(** * PathSense agents: the telemetry analytics core

    A shallow embedding of the indexer ([indexer_agent.py]), the streaming
    watchdog ([watchdog_agent.py]) and the query planner ([query_agent.py])
    with the store layer they call ([tools.py], [database.py]), followed by
    the properties of the specification settled against that embedding.

    Conventions of the embedding:
    - Python [int] is [Z]; Python [float] is modelled by exact rationals [Q]
      (the code only compares and subtracts depths and confidences; NaN and
      rounding of binary floating point are outside the model);
    - a Python [dict] is an association list in insertion order with unique
      keys ([PyDict]); assigning to an existing key keeps its position;
    - [time.time()] is an explicit argument of the functions that read it;
    - the database is an explicit value threaded through a small
      state-and-exception monad that also logs every call made to it;
    - the rows are typed as [nav_types.LogRecord] declares them ([events] a
      list of strings, [classes] absent or a list of strings);
    - an index passes through a JSON column on its way to and from the
      database, which turns the integer keys of [by_time] into strings. *)

From Stdlib Require Import List Bool ZArith QArith Lia String Ascii.
From Stdlib Require Import DecimalString DecimalPos DecimalZ.
From Stdlib Require Import Sorting.Sorted.
Import ListNotations.
Open Scope Z_scope.

Set Implicit Arguments.

(* ------------------------------------------------------------------ *)
(** * Python helpers *)

Definition Qltb (x y : Q) : bool := negb (Qle_bool y x).

(** [sub in s] on Python strings. *)
Fixpoint contains (sub s : string) : bool :=
  String.prefix sub s ||
  match s with
  | EmptyString => false
  | String _ s' => contains sub s'
  end.

(** [x in xs] on a list of strings. *)
Definition mem_str (x : string) (xs : list string) : bool :=
  existsb (String.eqb x) xs.

(** The last element of a non-empty sequence, [head :: tail][-1]. *)
Definition last_of {A} (head : A) (tail : list A) : A := last tail head.

(** [len(l)] *)
Definition len {A} (l : list A) : Z := Z.of_nat (List.length l).

(** [l[-n:]] for a positive [n]. *)
Definition last_n {A} (n : nat) (l : list A) : list A :=
  skipn (List.length l - n) l.

(** [max(depths)] and [min(depths)] of a non-empty list. *)
Definition py_max_q (d0 : Q) (ds : list Q) : Q :=
  fold_left (fun m x => if Qltb m x then x else m) ds d0.
Definition py_min_q (d0 : Q) (ds : list Q) : Q :=
  fold_left (fun m x => if Qltb x m then x else m) ds d0.

(** [max(depths) - min(depths)]; only evaluated on three values or more. *)
Definition spread (depths : list Q) : Q :=
  match depths with
  | [] => 0
  | d0 :: ds => py_max_q d0 ds - py_min_q d0 ds
  end.

Module PyDict.
Section Dict.
Variables K V : Type.
Variable eqb : K -> K -> bool.

Definition dict := list (K * V).

(** [d.get(k)] *)
Fixpoint get (d : dict) (k : K) : option V :=
  match d with
  | [] => None
  | (k', v) :: d' => if eqb k k' then Some v else get d' k
  end.

(** [d[k] = v]: an existing key keeps its place, a new key goes last. *)
Fixpoint setitem (d : dict) (k : K) (v : V) : dict :=
  match d with
  | [] => [(k, v)]
  | (k', v') :: d' =>
      if eqb k k' then (k', v) :: d' else (k', v') :: setitem d' k v
  end.

(** [d.pop(k, None)] *)
Fixpoint pop (d : dict) (k : K) : dict :=
  match d with
  | [] => []
  | (k', v') :: d' => if eqb k k' then d' else (k', v') :: pop d' k
  end.

Definition keys (d : dict) : list K := map fst d.
End Dict.
End PyDict.

Definition by_time_dict (V : Type) : Type := PyDict.dict Z V.
Definition str_dict (V : Type) : Type := PyDict.dict string V.

(* ------------------------------------------------------------------ *)
(** * nav_types.py *)

Definition CRASH_NEAR_M : Q := 6 # 10.
Definition CONF_MIN : Q := 6 # 10.
Definition MERGE_WINDOW_S : Z := 3.
Definition STUCK_MIN_S : Z := 120.
Definition STUCK_ALERT_S : Z := 300.
Definition STUCK_VARIANCE_M : Q := 5 # 100.
Definition STUCK_GAP_S : Z := 10.
Definition ACCIDENT_PATTERN_WINDOW_S : Z := 5.
Definition ACCIDENT_NO_PROCEED_S : Z := 30.
Definition ACCIDENT_DEPTH_M : Q := 4 # 10.
Definition ACCIDENT_CONF : Q := 7 # 10.

(** A log record.  The same shape serves for the dictionary a database row
    is turned into ([LogRecord.to_dict], where [classes] and
    [free_ahead_m] may be [None]) and for the record the indexer builds
    from it (where an absent key is [None]). *)
Record LogRecord := mkLog {
  client_id : string;
  session_id : string;
  t : Z;
  events : list string;
  classes : option (list string);
  free_ahead_m : option Q;
  confidence : Q;
  app : option string
}.

Definition OBSTACLE_EVENTS : list string :=
  ["obstacle_center"; "obstacle_close"; "collision_warning"]%string.
Definition ACCIDENT_EVENTS : list string :=
  ["fall"; "impact"; "collision"; "device_drop"]%string.

Definition is_directional_event (event : string) : bool :=
  existsb (fun d => contains d event)
          ["veer_left"; "veer_right"; "proceed"]%string.

(** [set(evs).intersection(S)], listed in the order of [S]. *)
Definition intersection (evs S : list string) : list string :=
  filter (fun s => mem_str s evs) S.

(** Truth value of [set(evs).intersection(S)]. *)
Definition intersects (evs S : list string) : bool :=
  match intersection evs S with [] => false | _ => true end.

Record QueryParams := mkParams {
  crash_near_m : Q;
  stuck_min_s : Z;
  conf_min : Q
}.

Definition default_params : QueryParams :=
  mkParams CRASH_NEAR_M STUCK_MIN_S CONF_MIN.

Inductive MetricType :=
| almost_crash | stuck_minutes | stuck_intervals | event_counts | accident.

(** The rationale strings of the watchdog and of the planner, by the
    pattern that builds them and the values formatted into them. *)
Inductive Rationale :=
| DirectAccident (matched : list string)
| ObstacleStop (depth : Q) (no_proceed_duration : Z)
| VeerSurge (veer_count : Z) (time_since_last_move : Z)
| NoPattern.

(** An entry of [hazards["almost_crash_moments"]]. *)
Record Moment := mkMoment {
  m_t : Z;
  m_free_ahead_m : option Q;
  m_classes : list string;
  m_confidence : Q;
  m_events : list string
}.

(** An entry of [hazards["stuck_intervals"]]. *)
Record Interval := mkInterval {
  start_t : Z;
  end_t : Z;
  duration_s : Z
}.

Record Hazards := mkHazards {
  almost_crash_moments : list Moment;
  stuck_intervals_of : list Interval
}.

Record UserIndex := mkIndex {
  ix_client_id : string;
  by_time : by_time_dict LogRecord;
  by_event : str_dict (list Z);
  counters : str_dict Z;
  by_class : str_dict Z;
  hazards : Hazards;
  dropped_records : Z
}.

(* ------------------------------------------------------------------ *)
(** * database.py and tools.py *)

Module Store.

(** An index as the JSON column [index_data] holds it and gives it back:
    the keys of a JSON object are strings, so [by_time] is keyed by
    strings; the other fields are as in [UserIndex]. *)
Record JsonIndex := mkJsonIndex {
  j_client_id : string;
  j_by_time : str_dict LogRecord;
  j_by_event : str_dict (list Z);
  j_counters : str_dict Z;
  j_by_class : str_dict Z;
  j_hazards : Hazards;
  j_dropped_records : Z
}.

(** The key [json.dumps] writes for an integer key: its decimal form. *)
Definition json_key (k : Z) : string := NilZero.string_of_int (Z.to_int k).

(** [json.loads(json.dumps(index))]: what the column holds once an index
    built by the indexer is committed to it. *)
Definition to_json (index : UserIndex) : JsonIndex :=
  mkJsonIndex (ix_client_id index)
              (map (fun item => (json_key (fst item), snd item))
                   (by_time index))
              (by_event index) (counters index) (by_class index)
              (hazards index) (dropped_records index).

(** A row of [user_indices]. *)
Record IndexRow := mkIndexRow {
  row_client_id : string;
  row_session_id : option string;
  row_time_start : option Z;
  row_time_end : option Z;
  index_data : JsonIndex
}.

(** A row of [emergency_contacts]. *)
Record ContactRow := mkContact {
  c_client_id : string;
  c_contact_id : string;
  c_authorized : Z
}.

Record Db := mkDb {
  log_records : list LogRecord;
  user_indices : list IndexRow;
  emergency_contacts : list ContactRow
}.

(** The calls made to [db_service], in the order they are made. *)
Inductive DbCall :=
| CallIsAuthorized (requester client : string)
| CallGetIndex (client : string) (session : option string)
| CallGetLogs (client : string) (session : option string)
              (time_start time_end : option Z)
| CallSaveIndex (client : string) (session : option string).

Inductive Exn :=
| PermissionError (requester : string)
| ValueError
| TypeError.

Inductive Outcome (A : Type) :=
| Return (a : A)
| Raise (e : Exn).
Arguments Return {A} a.
Arguments Raise {A} e.

(** Computations over the database that may raise and that log the calls. *)
Definition M (A : Type) : Type :=
  Db -> list DbCall -> Outcome A * Db * list DbCall.

Definition ret {A} (a : A) : M A := fun db log => (Return a, db, log).
Definition raise {A} (e : Exn) : M A := fun db log => (Raise e, db, log).
Definition bind {A B} (m : M A) (k : A -> M B) : M B :=
  fun db log =>
    match m db log with
    | (Return a, db', log') => k a db' log'
    | (Raise e, db', log') => (Raise e, db', log')
    end.
Definition lift {A} (o : Outcome A) : M A := fun db log => (o, db, log).
Definition call (c : DbCall) : M unit :=
  fun db log => (Return tt, db, log ++ [c]).
Definition read {A} (f : Db -> A) : M A :=
  fun db log => (Return (f db), db, log).
Definition write (f : Db -> Db) : M unit :=
  fun db log => (Return tt, f db, log).

Notation "x <- m ;; k" := (bind m (fun x => k))
  (at level 61, m at next level, right associativity).
Notation "m ;;; k" := (bind m (fun _ => k))
  (at level 61, right associativity).

(** Truth value of an optional string: [None] and [""] are falsy. *)
Definition truthy (s : option string) : bool :=
  match s with
  | Some (String _ _) => true
  | _ => false
  end.

Definition opt_str_eqb (a : option string) (b : string) : bool :=
  match a with Some x => String.eqb x b | None => false end.

(** ** database.py *)

(** [query.filter(client_id == ...)], then the session filter when the
    session is truthy. *)
Definition index_row_matches (client : string) (session : option string)
           (row : IndexRow) : bool :=
  String.eqb (row_client_id row) client &&
  match session with
  | Some s => if truthy session then opt_str_eqb (row_session_id row) s
              else true
  | None => true
  end.

Definition get_index (client : string) (session : option string)
  : M (option JsonIndex) :=
  call (CallGetIndex client session) ;;;
  rows <- read user_indices ;;
  ret (match find (index_row_matches client session) rows with
       | Some index => Some (index_data index)
       | None => None
       end).

(** The first matching row is updated in place; without one a row is
    appended. *)
Fixpoint update_first (client : string) (session : option string)
         (data : JsonIndex) (ts te : option Z) (rows : list IndexRow)
  : option (list IndexRow) :=
  match rows with
  | [] => None
  | row :: rows' =>
      if index_row_matches client session row
      then Some (mkIndexRow (row_client_id row) (row_session_id row) ts te data
                   :: rows')
      else match update_first client session data ts te rows' with
           | Some rows'' => Some (row :: rows'')
           | None => None
           end
  end.

(** [save_index]: the commit writes [index_data] through the JSON column. *)
Definition save_index (client : string) (data : UserIndex)
           (session : option string) (ts te : option Z) : M unit :=
  call (CallSaveIndex client session) ;;;
  write (fun db =>
    mkDb (log_records db)
         (match update_first client session (to_json data) ts te
                             (user_indices db) with
          | Some rows => rows
          | None =>
              user_indices db ++ [mkIndexRow client session ts te
                                             (to_json data)]
          end)
         (emergency_contacts db)).

Definition log_matches (client : string) (session : option string)
           (time_start time_end : option Z) (log : LogRecord) : bool :=
  String.eqb (client_id log) client &&
  (if truthy session then opt_str_eqb session (session_id log) else true) &&
  match time_start with Some ts => ts <=? t log | None => true end &&
  match time_end with Some te => t log <? te | None => true end.

(** [ORDER BY t ASC] over the matching rows, rows of equal [t] in
    insertion order. *)
Fixpoint insert_log (x : LogRecord) (l : list LogRecord) : list LogRecord :=
  match l with
  | [] => [x]
  | y :: l' => if t x <=? t y then x :: y :: l' else y :: insert_log x l'
  end.

Definition order_by_t (l : list LogRecord) : list LogRecord :=
  fold_right insert_log [] l.

Definition get_logs (client : string) (session : option string)
           (time_start time_end : option Z) : M (list LogRecord) :=
  call (CallGetLogs client session time_start time_end) ;;;
  rows <- read log_records ;;
  ret (order_by_t
         (filter (log_matches client session time_start time_end) rows)).

Definition db_is_authorized (requester client : string) : M bool :=
  call (CallIsAuthorized requester client) ;;;
  rows <- read emergency_contacts ;;
  ret (existsb (fun c => String.eqb (c_client_id c) client &&
                         String.eqb (c_contact_id c) requester &&
                         (c_authorized c =? 1)) rows).

(** ** tools.py *)

(** [key.split(":")] *)
Fixpoint split_colon (cur : string) (s : string) : list string :=
  match s with
  | EmptyString => [cur]
  | String c s' =>
      if Ascii.eqb c ":"%char then cur :: split_colon EmptyString s'
      else split_colon (cur ++ String c EmptyString)%string s'
  end.

Definition split (key : string) : list string := split_colon EmptyString key.

Definition min_key (ks : list Z) : option Z :=
  match ks with [] => None | k :: ks' => Some (fold_left Z.min ks' k) end.
Definition max_key (ks : list Z) : option Z :=
  match ks with [] => None | k :: ks' => Some (fold_left Z.max ks' k) end.

Definition persist_index (key : string) (value : UserIndex) : M bool :=
  match split key with
  | _ :: client :: rest =>
      let session := match rest with s :: _ => Some s | [] => None end in
      let timestamps := PyDict.keys (by_time value) in
      save_index client value session (min_key timestamps)
                 (max_key timestamps) ;;;
      ret true
  | _ => ret false
  end.

Definition read_index (key : string) : M (option JsonIndex) :=
  match split key with
  | _ :: client :: rest =>
      let session := match rest with s :: _ => Some s | [] => None end in
      get_index client session
  | _ => ret None
  end.

Definition get_logs_from_db (client : string) (session : option string)
           (time_start time_end : option Z) : M (list LogRecord) :=
  get_logs client session time_start time_end.

Definition is_authorized (requester client : string) : M bool :=
  db_is_authorized requester client.

(** The key [f"index:{client_id}"], with [f":{session_id}"] appended when
    the session is truthy. *)
Definition index_key (client : string) (session : option string) : string :=
  match session with
  | Some s => if truthy session then ("index:" ++ client ++ ":" ++ s)%string
              else ("index:" ++ client)%string
  | None => ("index:" ++ client)%string
  end.

End Store.

(* ------------------------------------------------------------------ *)
(** * indexer_agent.py *)

Module Indexer.

(** [_validate_record].  The record is built by [process_logs] with the five
    required keys, and the row types make [t] an [int], [events] a [list]
    and [confidence] a number, so the presence and [isinstance] tests pass;
    what is left is the range test on [confidence]. *)
Definition _validate_record (record : LogRecord) : bool :=
  if negb (Qle_bool 0 (confidence record) && Qle_bool (confidence record) 1)
  then false
  else true.

(** The record [process_logs] builds from a database row: [classes] is
    copied only when truthy, [free_ahead_m] only when not [None]. *)
Definition record_of_log_dict (log_dict : LogRecord) : LogRecord :=
  mkLog (client_id log_dict) (session_id log_dict) (t log_dict)
        (events log_dict)
        (match classes log_dict with
         | Some (c :: cs) => Some (c :: cs)
         | _ => None
         end)
        (free_ahead_m log_dict) (confidence log_dict) (app log_dict).

(** [d[k].append(x)] on a [defaultdict(list)]. *)
Definition dd_append (d : str_dict (list Z)) (k : string) (x : Z) :=
  PyDict.setitem String.eqb d k
    (match PyDict.get String.eqb d k with Some l => l | None => [] end ++ [x]).

(** [d[k] += 1] on a [defaultdict(int)]. *)
Definition dd_incr (d : str_dict Z) (k : string) :=
  PyDict.setitem String.eqb d k
    (match PyDict.get String.eqb d k with Some n => n | None => 0 end + 1).

Definition set_dropped (index : UserIndex) (n : Z) : UserIndex :=
  mkIndex (ix_client_id index) (by_time index) (by_event index)
          (counters index) (by_class index) (hazards index) n.

Definition set_hazards (index : UserIndex) (h : Hazards) : UserIndex :=
  mkIndex (ix_client_id index) (by_time index) (by_event index)
          (counters index) (by_class index) h (dropped_records index).

Definition _add_to_index (index : UserIndex) (record : LogRecord) : UserIndex :=
  let tm := t record in
  let by_time' := PyDict.setitem Z.eqb (by_time index) tm record in
  let by_event' :=
    fold_left (fun d event => dd_append d event tm) (events record)
              (by_event index) in
  let counters' := fold_left dd_incr (events record) (counters index) in
  let by_class' :=
    match classes record with
    | Some (c :: cs) => fold_left dd_incr (c :: cs) (by_class index)
    | _ => by_class index
    end in
  mkIndex (ix_client_id index) by_time' by_event' counters' by_class'
          (hazards index) (dropped_records index).

(** ** Almost-crash moments *)

(** The body of the candidate loop: [None] is [continue]. *)
Definition candidate_of (crash_near conf : Q) (item : Z * LogRecord)
  : option Moment :=
  let '(tm, record) := item in
  if negb (intersects (events record) OBSTACLE_EVENTS) then None
  else if Qltb (confidence record) conf then None
  else
    let depth := free_ahead_m record in
    if match depth with Some d => Qltb crash_near d | None => false end
    then None
    else Some (mkMoment tm depth
                 (match classes record with Some cs => cs | None => [] end)
                 (confidence record)
                 (intersection (events record) OBSTACLE_EVENTS)).

Fixpoint collect_candidates (crash_near conf : Q)
         (items : list (Z * LogRecord)) : list Moment :=
  match items with
  | [] => []
  | item :: items' =>
      match candidate_of crash_near conf item with
      | Some c => c :: collect_candidates crash_near conf items'
      | None => collect_candidates crash_near conf items'
      end
  end.

(** [list.sort(key=...)] and [sorted(..., key=...)] with integer keys: a
    stable sort, here by insertion. *)
Section Sort.
Variable A : Type.
Variable key : A -> Z.

Fixpoint insert_sorted (x : A) (l : list A) : list A :=
  match l with
  | [] => [x]
  | y :: l' => if key x <=? key y then x :: y :: l'
               else y :: insert_sorted x l'
  end.

Fixpoint sort_by (l : list A) : list A :=
  match l with
  | [] => []
  | x :: l' => insert_sorted x (sort_by l')
  end.
End Sort.

(** The key of [min(current_group, key=lambda x: x["free_ahead_m"] or 999)]:
    [None] and the falsy depth [0.0] both give 999. *)
Definition depth_key (x : Moment) : Q :=
  match m_free_ahead_m x with
  | Some d => if Qeq_bool d 0 then 999 # 1 else d
  | None => 999 # 1
  end.

(** [min(head :: tail, key=key)]: the first element with the least key. *)
Fixpoint py_min (A : Type) (key : A -> Q) (best : A) (l : list A) : A :=
  match l with
  | [] => best
  | x :: l' => py_min key (if Qltb (key x) (key best) then x else best) l'
  end.

(** The merge loop over [candidates[1:]]; [current_group] is never empty
    and is carried as its head and tail. *)
Fixpoint merge_loop (rest : list Moment) (g_head : Moment)
         (g_tail : list Moment) (merged : list Moment) : list Moment :=
  match rest with
  | [] => merged ++ [py_min depth_key g_head g_tail]
  | c :: rest' =>
      if m_t c - m_t (last_of g_head g_tail) <=? MERGE_WINDOW_S
      then merge_loop rest' g_head (g_tail ++ [c]) merged
      else merge_loop rest' c [] (merged ++ [py_min depth_key g_head g_tail])
  end.

(** Lines 209-231: sort the candidates by [t] and merge nearby ones. *)
Definition merge_candidates (candidates : list Moment) : list Moment :=
  match candidates with
  | [] => []
  | _ :: _ =>
      match sort_by m_t candidates with
      | [] => []
      | c0 :: rest => merge_loop rest c0 [] []
      end
  end.

Definition _find_almost_crashes (index : UserIndex) (crash_near conf : Q)
  : list Moment :=
  merge_candidates (collect_candidates crash_near conf (by_time index)).

(** ** Stuck intervals *)

(** The state of the walk of [_find_stuck_intervals].  [current_start] and
    [current_end] are assigned and reset together, so they are carried as
    one optional pair. *)
Record WalkState := mkWalk {
  intervals : list Interval;
  current : option (Z * Z);
  depths : list Q
}.

(** Lines 256-273: the depth window after the record and [is_stationary]. *)
Definition observe (depths0 : list Q) (record : LogRecord) : list Q * bool :=
  let evs := events record in
  let is_stopped := mem_str "stop"%string evs in
  let has_movement := existsb is_directional_event evs in
  let depths1 :=
    match free_ahead_m record with
    | Some depth =>
        let appended := depths0 ++ [depth] in
        if 10 <? len appended then tl appended else appended
    | None => depths0
    end in
  let depth_stationary :=
    if 3 <=? len depths1 then Qltb (spread depths1) STUCK_VARIANCE_M
    else false in
  (depths1, (is_stopped || depth_stationary) && negb has_movement).

(** Lines 275-290: one iteration of the walk. *)
Definition walk_step (stuck_min : Z) (st : WalkState) (item : Z * LogRecord)
  : WalkState :=
  let '(tm, record) := item in
  let '(depths1, is_stationary) := observe (depths st) record in
  if is_stationary then
    mkWalk (intervals st)
           (Some (match current st with Some (s, _) => s | None => tm end, tm))
           depths1
  else
    match current st with
    | Some (s, e) =>
        let duration := e - s in
        mkWalk (if stuck_min <=? duration
                then intervals st ++ [mkInterval s e duration]
                else intervals st)
               None []
    | None => mkWalk (intervals st) None depths1
    end.

(** Lines 292-300: the pending interval at the end of the stream. *)
Definition flush (stuck_min : Z) (st : WalkState) : list Interval :=
  match current st with
  | Some (s, e) =>
      let duration := e - s in
      if stuck_min <=? duration
      then intervals st ++ [mkInterval s e duration]
      else intervals st
  | None => intervals st
  end.

(** Lines 306-317: [merged] is carried as [done ++ [last]]. *)
Fixpoint merge_gaps (done : list Interval) (last : Interval)
         (rest : list Interval) : list Interval :=
  match rest with
  | [] => done ++ [last]
  | interval :: rest' =>
      if start_t interval - end_t last <=? STUCK_GAP_S
      then merge_gaps done
             (mkInterval (start_t last) (end_t interval)
                         (end_t interval - start_t last))
             rest'
      else merge_gaps (done ++ [last]) interval rest'
  end.

Definition merge_intervals (ivs : list Interval) : list Interval :=
  match ivs with
  | [] => []
  | first :: rest => merge_gaps [] first rest
  end.

Definition walk (stuck_min : Z) (records : list (Z * LogRecord)) : WalkState :=
  fold_left (walk_step stuck_min) records (mkWalk [] None []).

Definition _find_stuck_intervals (index : UserIndex) (stuck_min : Z)
  : list Interval :=
  let records := sort_by fst (by_time index) in
  merge_intervals (flush stuck_min (walk stuck_min records)).

Definition _compute_hazards (index : UserIndex) : Hazards :=
  mkHazards (_find_almost_crashes index CRASH_NEAR_M CONF_MIN)
            (_find_stuck_intervals index 120).

(** ** The build loop of [process_logs] *)

Definition empty_index (client : string) : UserIndex :=
  mkIndex client [] [] [] [] (mkHazards [] []) 0.

(** Lines 68-95: one iteration over a fetched row.  On a row typed as
    [LogRecord] neither the construction of the record nor [_add_to_index]
    raises, so the [except] branch is not taken. *)
Definition build_step (index : UserIndex) (log_dict : LogRecord) : UserIndex :=
  let record := record_of_log_dict log_dict in
  if negb (_validate_record record)
  then set_dropped index (dropped_records index + 1)
  else _add_to_index index record.

(** Lines 49-103: the index built from the fetched rows, hazards included. *)
Definition build_index (client : string) (log_records : list LogRecord)
  : UserIndex :=
  let index := fold_left build_step log_records (empty_index client) in
  set_hazards index (_compute_hazards index).

Import Store.

(** [process_logs]: fetch, build, persist under the derived key. *)
Definition process_logs (client : string) (time_start time_end : option Z)
           (session : option string) : M UserIndex :=
  log_records <- get_logs_from_db client session time_start time_end ;;
  let index := build_index client log_records in
  persist_index (index_key client session) index ;;;
  ret index.

End Indexer.

(* ------------------------------------------------------------------ *)
(** * watchdog_agent.py *)

Module Watchdog.

Inductive AlertType := stuck_alert | accident_alert.

Record Alert := mkAlert {
  alert_type : AlertType;
  a_client_id : string;
  a_t : Z;
  rationale : option Rationale;
  since : option Z
}.

(** What an execution shows from outside: an alert handed to the contacts
    at wall-clock time [now], or a client's state cleared. *)
Inductive Event :=
| Emitted (alert : Alert) (now : Z) (contacts : list string)
| Cleared (client : string).

Record Agent := mkAgent {
  client_windows : str_dict (list LogRecord);
  stuck_alerts : str_dict Z;
  accident_alerts : str_dict Z;
  emergency_contacts : str_dict (list string)
}.

Definition stuck_debounce : Z := 900.
Definition accident_debounce : Z := 7200.

Definition init : Agent :=
  mkAgent [] [] []
    [("F7d...aK", ["contact_001"; "contact_002"]);
     ("test_client", ["emergency_contact_001"]);
     ("demo_user", ["demo_contact_001"])]%string.

(** The three readings of [time.time()] one [process_record] can make: in
    [_check_stuck], in [_send_stuck_alert] and in [_send_accident_alert]. *)
Record Clock := mkClock {
  now_stuck : Z;
  now_sent : Z;
  now_accident : Z
}.

Section Agent.
(** [tools.get_emergency_contacts]: the contact ids the database holds. *)
Variable get_emergency_contacts : string -> list string.

Definition window_of (w : Agent) (client : string) : list LogRecord :=
  match PyDict.get String.eqb (client_windows w) client with
  | Some window => window
  | None => []
  end.

(** [deque(maxlen=100).append] *)
Definition deque_append (window : list LogRecord) (record : LogRecord) :=
  let appended := window ++ [record] in
  if 100 <? len appended then tl appended else appended.

Definition contacts_for (w : Agent) (client : string) : list string :=
  match get_emergency_contacts client with
  | [] => match PyDict.get String.eqb (emergency_contacts w) client with
          | Some cs => cs
          | None => []
          end
  | cs => cs
  end.

(** Lines 84-103: the depth window after the record and [is_stationary]. *)
Definition observe (depths0 : list Q) (record : LogRecord) : list Q * bool :=
  let evs := events record in
  let is_stopped := mem_str "stop"%string evs in
  let has_movement := existsb is_directional_event evs in
  let depths1 :=
    match free_ahead_m record with
    | Some depth =>
        let appended := depths0 ++ [depth] in
        if 10 <? len appended then tl appended else appended
    | None => depths0
    end in
  let depth_stationary :=
    if 3 <=? len depths1 then Qltb (spread depths1) STUCK_VARIANCE_M
    else false in
  (depths1, (is_stopped || depth_stationary) && negb has_movement).

(** Lines 83-108: the loop over [reversed(window)], with its [break]. *)
Fixpoint scan (reversed_window : list LogRecord) (depths0 : list Q)
         (stationary_start : option Z) : option Z :=
  match reversed_window with
  | [] => stationary_start
  | record :: rest =>
      let '(depths1, is_stationary) := observe depths0 record in
      if is_stationary then scan rest depths1 (Some (t record))
      else stationary_start
  end.

Definition _send_stuck_alert (w : Agent) (client : string) (since_t : Z)
           (now sent_t : Z) : Event :=
  Emitted (mkAlert stuck_alert client sent_t None (Some since_t)) now
          (contacts_for w client).

Definition set_stuck_alerts (w : Agent) (d : str_dict Z) : Agent :=
  mkAgent (client_windows w) d (accident_alerts w) (emergency_contacts w).
Definition set_accident_alerts (w : Agent) (d : str_dict Z) : Agent :=
  mkAgent (client_windows w) (stuck_alerts w) d (emergency_contacts w).
Definition set_client_windows (w : Agent)
           (d : str_dict (list LogRecord)) : Agent :=
  mkAgent d (stuck_alerts w) (accident_alerts w) (emergency_contacts w).

Definition _check_stuck (w : Agent) (client : string) (now sent_t : Z)
  : Agent * list Event :=
  let window := window_of w client in
  if len window <? 2 then (w, [])
  else
    match scan (rev window) [] None with
    | None => (w, [])
    | Some stationary_start =>
        let duration := now - stationary_start in
        if STUCK_ALERT_S <=? duration then
          let last_alert :=
            match PyDict.get String.eqb (stuck_alerts w) client with
            | Some v => v
            | None => 0
            end in
          if stuck_debounce <=? now - last_alert then
            (set_stuck_alerts w
               (PyDict.setitem String.eqb (stuck_alerts w) client now),
             [_send_stuck_alert w client stationary_start now sent_t])
          else (w, [])
        else (w, [])
    end.

(** [_send_accident_alert]: the debounce test comes first. *)
Definition _send_accident_alert (w : Agent) (client : string) (tm : Z)
           (why : Rationale) (now : Z) : Agent * list Event :=
  let last_alert :=
    match PyDict.get String.eqb (accident_alerts w) client with
    | Some v => v
    | None => 0
    end in
  if now - last_alert <? accident_debounce then (w, [])
  else
    (set_accident_alerts w
       (PyDict.setitem String.eqb (accident_alerts w) client now),
     [Emitted (mkAlert accident_alert client tm (Some why) None) now
              (contacts_for w client)]).

(** [range(start, stop, -1)]: [start, start-1, ..., stop+1]. *)
Fixpoint count_down (n : nat) (start : Z) : list Z :=
  match n with
  | O => []
  | S n' => start :: count_down n' (start - 1)
  end.
Definition range_desc (start stop : Z) : list Z :=
  count_down (Z.to_nat (start - stop)) start.

(** Lines 167-182: the loop over [window[i+1:]], with its two [break]s;
    the result is [(stop_found, no_proceed_duration)]. *)
Fixpoint scan_future (obstacle_time : Z) (future : list LogRecord)
         (stop_found : bool) (no_proceed_duration : Z) : bool * Z :=
  match future with
  | [] => (stop_found, no_proceed_duration)
  | future_rec :: rest =>
      let future_t := t future_rec in
      if ACCIDENT_PATTERN_WINDOW_S + ACCIDENT_NO_PROCEED_S
           <? future_t - obstacle_time
      then (stop_found, no_proceed_duration)
      else
        let stop_found1 :=
          if mem_str "stop"%string (events future_rec) then true
          else stop_found in
        if stop_found1 then
          if existsb is_directional_event (events future_rec)
          then (stop_found1, no_proceed_duration)
          else scan_future obstacle_time rest stop_found1
                           (future_t - obstacle_time)
        else scan_future obstacle_time rest stop_found1 no_proceed_duration
  end.

(** Lines 149-190: the loop over the anchor indices; [Some] is the alert
    it sends before returning: [(obstacle_time, depth, duration)]. *)
Fixpoint find_anchor (window : list LogRecord) (indices : list Z)
  : option (Z * Q * Z) :=
  match indices with
  | [] => None
  | i :: indices' =>
      match nth_error window (Z.to_nat i) with
      | None => None
      | Some rec =>
          if negb (intersects (events rec) OBSTACLE_EVENTS)
          then find_anchor window indices'
          else if Qltb (confidence rec) ACCIDENT_CONF
          then find_anchor window indices'
          else
            match free_ahead_m rec with
            | None => find_anchor window indices'
            | Some depth =>
                if Qltb ACCIDENT_DEPTH_M depth
                then find_anchor window indices'
                else
                  let obstacle_time := t rec in
                  let '(stop_found, no_proceed_duration) :=
                    scan_future obstacle_time
                      (skipn (S (Z.to_nat i)) window) false 0 in
                  if stop_found &&
                     (ACCIDENT_NO_PROCEED_S <=? no_proceed_duration)
                  then Some (obstacle_time, depth, no_proceed_duration)
                  else find_anchor window indices'
            end
      end
  end.

(** The anchor indices of pattern 2. *)
Definition anchor_indices (window : list LogRecord) : list Z :=
  range_desc (len window - 1) (Z.max 0 (len window - 10)).

(** Lines 202-205: the loop over [reversed(window[-10:])]. *)
Fixpoint since_last_move (current_t : Z) (reversed_tail : list LogRecord)
         (time_since_last_move : Z) : Z :=
  match reversed_tail with
  | [] => time_since_last_move
  | rec :: rest =>
      if existsb is_directional_event (events rec)
      then time_since_last_move
      else since_last_move current_t rest (current_t - t rec)
  end.

Definition count_veers (recs : list LogRecord) : Z :=
  fold_left
    (fun veer_count rec =>
       veer_count + len (filter (contains "veer"%string) (events rec)))
    recs 0.

Definition _check_accident (w : Agent) (client : string)
           (current_record : LogRecord) (now : Z) : Agent * list Event :=
  let evs := events current_record in
  if intersects evs ACCIDENT_EVENTS then
    _send_accident_alert w client (t current_record)
      (DirectAccident (intersection evs ACCIDENT_EVENTS)) now
  else
    let window := window_of w client in
    if len window <? 3 then (w, [])
    else
      match find_anchor window (anchor_indices window) with
      | Some (obstacle_time, depth, no_proceed_duration) =>
          _send_accident_alert w client obstacle_time
            (ObstacleStop depth no_proceed_duration) now
      | None =>
          let veer_count := count_veers (last_n 5 window) in
          if (3 <=? veer_count) && mem_str "stop"%string evs then
            let time_since_last_move :=
              since_last_move (t current_record)
                              (rev (last_n 10 window)) 0 in
            if 120 <=? time_since_last_move then
              _send_accident_alert w client (t current_record)
                (VeerSurge veer_count time_since_last_move) now
            else (w, [])
          else (w, [])
      end.

Definition process_record (w : Agent) (record : LogRecord) (clock : Clock)
  : Agent * list Event :=
  let client := client_id record in
  let w1 :=
    set_client_windows w
      (PyDict.setitem String.eqb (client_windows w) client
         (deque_append (window_of w client) record)) in
  let '(w2, out_stuck) :=
    _check_stuck w1 client (now_stuck clock) (now_sent clock) in
  let '(w3, out_accident) :=
    _check_accident w2 client record (now_accident clock) in
  (w3, out_stuck ++ out_accident).

Definition clear_client_state (w : Agent) (client : string)
  : Agent * list Event :=
  let windows :=
    match PyDict.get String.eqb (client_windows w) client with
    | Some _ => PyDict.setitem String.eqb (client_windows w) client []
    | None => client_windows w
    end in
  (mkAgent windows
           (PyDict.pop String.eqb (stuck_alerts w) client)
           (PyDict.pop String.eqb (accident_alerts w) client)
           (emergency_contacts w),
   [Cleared client]).

(** An execution: records streamed to [process_record], interleaved with
    calls of [clear_client_state]. *)
Inductive Op :=
| Process (record : LogRecord) (clock : Clock)
| Clear (client : string).

Definition step (w : Agent) (op : Op) : Agent * list Event :=
  match op with
  | Process record clock => process_record w record clock
  | Clear client => clear_client_state w client
  end.

Fixpoint run (w : Agent) (ops : list Op) : Agent * list Event :=
  match ops with
  | [] => (w, [])
  | op :: ops' =>
      let '(w1, out1) := step w op in
      let '(w2, out2) := run w1 ops' in
      (w2, out1 ++ out2)
  end.
End Agent.

End Watchdog.

(* ------------------------------------------------------------------ *)
(** * query_agent.py *)

Module QueryAgent.
Import Store.

Record TimeWindow := mkWindow {
  tw_start : Z;
  tw_end : Z;
  tw_tz : string
}.

(** The [result] dictionary of each metric. *)
Inductive Result :=
| ResCount (count : Z)
| ResMinutes (minutes : Q)
| ResIntervals (intervals : list (string * string * Z))
| ResAccident (detected : bool) (first_t : option Z) (why : Rationale)
| ResEventCounts (res_by_event res_by_class : str_dict Z).

(** The sample dictionaries. *)
Inductive Sample :=
| SampleMoment (iso_t : string) (depth : option Q) (conf : Q)
               (evs cls : list string)
| SampleInterval (iso_start iso_end : string) (duration : Z)
| SampleAccident (iso_t : string) (evs : list string) (depth : option Q)
                 (conf : Q)
| SampleEvent (event : string) (count : Z).

(** The answer sentences, by template and the values formatted into them. *)
Inductive Answer :=
| NearMissAnswer (count : Z)
| MinutesAnswer (minutes : Q)
| IntervalsAnswer (n : Z)
| AccidentAnswer (iso_t : option string) (why : Rationale)
| NoAccidentAnswer
| TotalEventsAnswer (total : Z).

Record QueryResponse := mkResponse {
  resp_client_id : string;
  resp_time_window : TimeWindow;
  resp_metric : MetricType;
  resp_params : QueryParams;
  resp_result : Result;
  resp_samples : list Sample
}.

(** [str.lower] on ASCII letters. *)
Definition lower_char (c : ascii) : ascii :=
  let n := nat_of_ascii c in
  if (65 <=? n)%nat && (n <=? 90)%nat then ascii_of_nat (n + 32) else c.

Fixpoint lower (s : string) : string :=
  match s with
  | EmptyString => EmptyString
  | String c s' => String (lower_char c) (lower s')
  end.

Definition any_in (kws : list string) (q : string) : bool :=
  existsb (fun kw => contains kw q) kws.

Definition _classify_intent (question : string) : MetricType :=
  let q_lower := lower question in
  if any_in
       ["almost crash"; "near miss"; "collision warning"; "close call"]%string
       q_lower
  then almost_crash
  else if contains "stuck" q_lower || contains "not moving" q_lower
          || contains "stationary" q_lower
  then
    if contains "interval" q_lower || contains "when" q_lower
       || contains "show" q_lower
    then stuck_intervals
    else stuck_minutes
  else if any_in
            ["accident"; "fell"; "fall"; "collision"; "crashed"; "impact"]%string
            q_lower
  then accident
  else event_counts.

(** The index the metrics are computed on: the cached one, decoded from
    the JSON column, or the one the indexer has just built. *)
Inductive LoadedIndex :=
| Cached (index : JsonIndex)
| Rebuilt (index : UserIndex).

(** [sorted(by_time.items(), key=lambda x: x[0])] on string keys: the
    order of Python strings, character by character. *)
Fixpoint insert_str (x : string * LogRecord) (l : list (string * LogRecord))
  : list (string * LogRecord) :=
  match l with
  | [] => [x]
  | y :: l' =>
      if String.leb (fst x) (fst y) then x :: y :: l'
      else y :: insert_str x l'
  end.
Definition sort_by_str (items : list (string * LogRecord))
  : list (string * LogRecord) :=
  fold_right insert_str [] items.

Section Planner.
(** [int(datetime.fromisoformat(s.replace("Z", "+00:00")).timestamp())],
    [None] when parsing raises. *)
Variable parse_iso : string -> option Z.
(** [datetime.fromtimestamp(t, tz=timezone.utc).isoformat()] *)
Variable isoformat : Z -> string.
(** [round(x, 1)] *)
Variable round1 : Q -> Q.

Definition is_str (o : option string) (s : string) : bool :=
  match o with Some x => String.eqb x s | None => false end.

Definition day_start (now : Z) : Z := now - now mod 86400.

(** [_parse_time_window], in whole seconds as [handle_query] uses it; it
    touches no store, and raises when an ISO string does not parse. *)
Definition _parse_time_window (now : Z) (start end_ : option string)
           (tz : string) : Outcome TimeWindow :=
  let end_is_now :=
    match end_ with None => true | Some e => String.eqb e "now" end in
  let end_parsed : Outcome Z :=
    if end_is_now then Return now
    else if is_str end_ "today" then Return (day_start now + 86399)
    else match end_ with
         | Some e => match parse_iso e with
                     | Some v => Return v
                     | None => Raise ValueError
                     end
         | None => Return now
         end in
  match end_parsed with
  | Raise e => Raise e
  | Return end_dt =>
      match start with
      | None => Return (mkWindow (now - 7 * 86400) end_dt tz)
      | Some s =>
          if String.eqb s "today" then
            Return (mkWindow (day_start now)
                      (if end_is_now then day_start now + 86399 else end_dt)
                      tz)
          else if String.eqb s "yesterday" then
            Return (mkWindow (day_start now - 86400) (day_start now - 1) tz)
          else if String.eqb s "last_7d" || String.eqb s "last_week" then
            Return (mkWindow (now - 7 * 86400) end_dt tz)
          else match parse_iso s with
               | Some v => Return (mkWindow v end_dt tz)
               | None => Raise ValueError
               end
      end
  end.

(** [_load_index]: the cached index when [read_index] gives one, as the
    JSON column returns it, otherwise the index a rebuild over the parsed
    window has just made, which [process_logs] returns as it built it. *)
Definition _load_index (client : string) (session : option string)
           (time_start time_end : Z) : M LoadedIndex :=
  let key := index_key client session in
  cached <- read_index key ;;
  match cached with
  | Some index => ret (Cached index)
  | None =>
      index <- Indexer.process_logs client (Some time_start) (Some time_end)
                                    session ;;
      ret (Rebuilt index)
  end.

Definition _compute_almost_crash (index : UserIndex) (params : QueryParams)
  : Result * list Sample :=
  let moments := almost_crash_moments (hazards index) in
  let filtered :=
    filter (fun m =>
              Qle_bool (conf_min params) (m_confidence m) &&
              match m_free_ahead_m m with
              | None => true
              | Some d => Qle_bool d (crash_near_m params)
              end) moments in
  (ResCount (len filtered),
   map (fun m => SampleMoment (isoformat (m_t m)) (m_free_ahead_m m)
                              (m_confidence m) (m_events m) (m_classes m))
       (firstn 3 filtered)).

Definition long_enough (params : QueryParams) (i : Interval) : bool :=
  stuck_min_s params <=? duration_s i.

Definition _compute_stuck_minutes (index : UserIndex) (params : QueryParams)
  : Result * list Sample :=
  let filtered := filter (long_enough params)
                         (stuck_intervals_of (hazards index)) in
  let total_seconds := fold_left Z.add (map duration_s filtered) 0 in
  (ResMinutes (round1 (inject_Z total_seconds / 60)),
   map (fun i => SampleInterval (isoformat (start_t i)) (isoformat (end_t i))
                                (duration_s i))
       (firstn 3 filtered)).

Definition _compute_stuck_intervals (index : UserIndex) (params : QueryParams)
  : Result * list Sample :=
  let filtered := filter (long_enough params)
                         (stuck_intervals_of (hazards index)) in
  let result_intervals :=
    map (fun i => (isoformat (start_t i), isoformat (end_t i), duration_s i))
        filtered in
  (ResIntervals result_intervals,
   map (fun iv => match iv with (a, b, d) => SampleInterval a b d end)
       (firstn 3 result_intervals)).

(** Lines 355-368: the look-ahead over [records[i+1:]]. *)
Fixpoint look_ahead (tm : Z) (future : list (Z * LogRecord))
         (stop_found : bool) (no_proceed_duration : Z) : bool * Z :=
  match future with
  | [] => (stop_found, no_proceed_duration)
  | (t2, rec2) :: rest =>
      if ACCIDENT_PATTERN_WINDOW_S + ACCIDENT_NO_PROCEED_S <? t2 - tm
      then (stop_found, no_proceed_duration)
      else
        let stop_found1 :=
          if mem_str "stop"%string (events rec2) then true else stop_found in
        if stop_found1 then
          if existsb is_directional_event (events rec2)
          then (stop_found1, no_proceed_duration)
          else look_ahead tm rest stop_found1 (t2 - tm)
        else look_ahead tm rest stop_found1 no_proceed_duration
  end.

(** Lines 340-382: pattern 2 over every record, oldest first. *)
Fixpoint pattern2 (records : list (Z * LogRecord))
  : option (Result * list Sample) :=
  match records with
  | [] => None
  | (tm, rec) :: rest =>
      if negb (intersects (events rec) OBSTACLE_EVENTS) then pattern2 rest
      else if Qltb (confidence rec) ACCIDENT_CONF then pattern2 rest
      else
        match free_ahead_m rec with
        | None => pattern2 rest
        | Some depth =>
            if Qltb ACCIDENT_DEPTH_M depth then pattern2 rest
            else
              let '(stop_found, no_proceed_duration) :=
                look_ahead tm rest false 0 in
              if stop_found && (ACCIDENT_NO_PROCEED_S <=? no_proceed_duration)
              then Some (ResAccident true (Some tm)
                           (ObstacleStop depth no_proceed_duration),
                         [SampleAccident (isoformat tm)
                            (nodup string_dec (events rec)) (Some depth)
                            (confidence rec)])
              else pattern2 rest
        end
  end.

Definition _compute_accident (index : UserIndex) (params : QueryParams)
  : Result * list Sample :=
  let records := Indexer.sort_by fst (by_time index) in
  match find (fun item => intersects (events (snd item)) ACCIDENT_EVENTS)
             records with
  | Some (tm, rec) =>
      (ResAccident true (Some tm)
         (DirectAccident (intersection (events rec) ACCIDENT_EVENTS)),
       [SampleAccident (isoformat tm) (nodup string_dec (events rec)) None
                       (confidence rec)])
  | None =>
      match pattern2 records with
      | Some found => found
      | None => (ResAccident false None NoPattern, [])
      end
  end.

(** [sorted(counters.items(), key=count, reverse=True)[:3]]: a stable
    sort in descending order, that is ascending on the negated count. *)
Definition _compute_event_counts (index : UserIndex) (params : QueryParams)
  : Result * list Sample :=
  let top_events :=
    firstn 3 (Indexer.sort_by (fun item : string * Z => - snd item)
                              (counters index)) in
  (ResEventCounts (counters index) (by_class index),
   map (fun item => SampleEvent (fst item) (snd item)) top_events).

(** Lines 340-382 on a cached index, whose keys are strings: the
    look-ahead starts with [t2 - t], which raises [TypeError] on strings,
    so the first record that passes the anchor tests and is not the last
    one raises; the last one has no look-ahead and is passed over. *)
Fixpoint pattern2_cached (records : list (string * LogRecord))
  : Outcome unit :=
  match records with
  | [] => Return tt
  | (tm, rec) :: rest =>
      if negb (intersects (events rec) OBSTACLE_EVENTS)
      then pattern2_cached rest
      else if Qltb (confidence rec) ACCIDENT_CONF then pattern2_cached rest
      else
        match free_ahead_m rec with
        | None => pattern2_cached rest
        | Some depth =>
            if Qltb ACCIDENT_DEPTH_M depth then pattern2_cached rest
            else match rest with
                 | [] => pattern2_cached rest
                 | _ :: _ => Raise TypeError
                 end
        end
  end.

(** [_compute_accident] on a cached index.  The records are sorted by their
    string keys.  Pattern 1 builds its sample with
    [datetime.fromtimestamp(t)], which raises [TypeError] on a string, so
    the first record with a direct accident event raises; pattern 2 is
    [pattern2_cached]; what is left is the answer that nothing was found. *)
Definition _compute_accident_cached (index : JsonIndex) (params : QueryParams)
  : Outcome (Result * list Sample) :=
  let records := sort_by_str (j_by_time index) in
  match find (fun item => intersects (events (snd item)) ACCIDENT_EVENTS)
             records with
  | Some _ => Raise TypeError
  | None =>
      match pattern2_cached records with
      | Raise e => Raise e
      | Return _ => Return (ResAccident false None NoPattern, [])
      end
  end.

(** The fields of a cached index that the JSON column gives back as the
    indexer wrote them: all but [by_time].  The metrics other than the
    accident one read only [hazards], [counters] and [by_class], and are
    run on these fields. *)
Definition typed_fields (index : JsonIndex) : UserIndex :=
  mkIndex (j_client_id index) [] (j_by_event index) (j_counters index)
          (j_by_class index) (j_hazards index) (j_dropped_records index).

(** [_compute_metric] on an index just built by the indexer. *)
Definition _compute_metric_rebuilt (metric_type : MetricType)
           (index : UserIndex) (params : QueryParams)
  : Result * list Sample :=
  match metric_type with
  | almost_crash => _compute_almost_crash index params
  | stuck_minutes => _compute_stuck_minutes index params
  | stuck_intervals => _compute_stuck_intervals index params
  | accident => _compute_accident index params
  | event_counts => _compute_event_counts index params
  end.

(** [_compute_metric] on a cached index. *)
Definition _compute_metric_cached (metric_type : MetricType)
           (index : JsonIndex) (params : QueryParams)
  : Outcome (Result * list Sample) :=
  match metric_type with
  | almost_crash => Return (_compute_almost_crash (typed_fields index) params)
  | stuck_minutes =>
      Return (_compute_stuck_minutes (typed_fields index) params)
  | stuck_intervals =>
      Return (_compute_stuck_intervals (typed_fields index) params)
  | accident => _compute_accident_cached index params
  | event_counts =>
      Return (_compute_event_counts (typed_fields index) params)
  end.

Definition _compute_metric (metric_type : MetricType) (index : LoadedIndex)
           (params : QueryParams) : Outcome (Result * list Sample) :=
  match index with
  | Cached index => _compute_metric_cached metric_type index params
  | Rebuilt index => Return (_compute_metric_rebuilt metric_type index params)
  end.

(** [_format_answer]: each metric reads the keys of its own result, so the
    template follows the shape of [result]. *)
Definition _format_answer (metric_type : MetricType) (result : Result)
  : Answer :=
  match result with
  | ResCount count => NearMissAnswer count
  | ResMinutes minutes => MinutesAnswer minutes
  | ResIntervals ivs => IntervalsAnswer (len ivs)
  | ResAccident true first why =>
      AccidentAnswer (option_map isoformat first) why
  | ResAccident false _ _ => NoAccidentAnswer
  | ResEventCounts ev _ => TotalEventsAnswer (fold_left Z.add (map snd ev) 0)
  end.

Definition handle_query (requester client question : string)
           (session time_start time_end : option string) (tz : string)
           (params : option QueryParams) (now : Z)
  : M (Answer * QueryResponse) :=
  authorized <- is_authorized requester client ;;
  if negb authorized then raise (PermissionError requester)
  else
    time_window <- lift (_parse_time_window now time_start time_end tz) ;;
    let params :=
      match params with Some p => p | None => default_params end in
    let metric_type := _classify_intent question in
    index <- _load_index client session
               (tw_start time_window) (tw_end time_window) ;;
    computed <- lift (_compute_metric metric_type index params) ;;
    let '(result, samples) := computed in
    let answer := _format_answer metric_type result in
    ret (answer,
         mkResponse client time_window metric_type params result
                    (firstn 3 samples)).
End Planner.

End QueryAgent.

(* ------------------------------------------------------------------ *)
(** * database.py, tools.py and app.py: ingestion and contacts *)

Module Registry.
Import Store.

(** [DatabaseService.insert_log], reached through [tools.save_log_to_db]:
    the row is appended with [app] defaulted to ["unknown"], and its id is
    returned.  Rows are never deleted, so the autoincremented id is the
    number of rows after the insertion. *)
Definition stored_row (log_data : LogRecord) : LogRecord :=
  mkLog (client_id log_data) (session_id log_data) (t log_data)
        (events log_data) (classes log_data) (free_ahead_m log_data)
        (confidence log_data)
        (match app log_data with
         | Some a => Some a
         | None => Some "unknown"%string
         end).

Definition insert_log (log_data : LogRecord) (db : Db) : Db * Z :=
  let rows := log_records db ++ [stored_row log_data] in
  (mkDb rows (user_indices db) (emergency_contacts db), len rows).

Definition save_log_to_db (log_record : LogRecord) (db : Db) : Db * Z :=
  insert_log log_record db.

(** [DatabaseService.add_emergency_contact]: the first row of the client
    and contact, whatever its [authorized], is set to authorized; without
    one an authorized row is appended.  Only the columns the queries of the
    code read are carried by [ContactRow]. *)
Definition contact_matches (client contact : string) (row : ContactRow)
  : bool :=
  String.eqb (c_client_id row) client && String.eqb (c_contact_id row) contact.

Fixpoint reauthorize (client contact : string) (rows : list ContactRow)
  : option (list ContactRow) :=
  match rows with
  | [] => None
  | row :: rows' =>
      if contact_matches client contact row
      then Some (mkContact (c_client_id row) (c_contact_id row) 1 :: rows')
      else match reauthorize client contact rows' with
           | Some rows'' => Some (row :: rows'')
           | None => None
           end
  end.

Definition add_emergency_contact (client contact : string) (db : Db) : Db :=
  mkDb (log_records db) (user_indices db)
       (match reauthorize client contact (emergency_contacts db) with
        | Some rows => rows
        | None => emergency_contacts db ++ [mkContact client contact 1]
        end).

(** [tools.add_authorized_contact] *)
Definition add_authorized_contact (client contact : string) (db : Db)
  : Db * bool :=
  (add_emergency_contact client contact db, true).

(** [tools.get_emergency_contacts]: the ids of the authorized contacts of
    the client, in table order. *)
Definition get_emergency_contacts (db : Db) (client : string) : list string :=
  map c_contact_id
      (filter (fun row => String.eqb (c_client_id row) client &&
                          (c_authorized row =? 1))
              (emergency_contacts db)).

(** [app.authorize_contact], lines 446-451: the contact is added, when
    absent, to the watchdog's own table, made for the client if need be. *)
Definition cache_contact (w : Watchdog.Agent) (client contact : string)
  : Watchdog.Agent :=
  let cache0 :=
    match PyDict.get String.eqb (Watchdog.emergency_contacts w) client with
    | Some _ => Watchdog.emergency_contacts w
    | None =>
        PyDict.setitem String.eqb (Watchdog.emergency_contacts w) client []
    end in
  let known :=
    match PyDict.get String.eqb cache0 client with
    | Some l => l
    | None => []
    end in
  Watchdog.mkAgent (Watchdog.client_windows w) (Watchdog.stuck_alerts w)
    (Watchdog.accident_alerts w)
    (if mem_str contact known then cache0
     else PyDict.setitem String.eqb cache0 client (known ++ [contact])).

(** [app.authorize_contact] on the two fields of the request body, absent
    or given as strings: the new state of the database and of the watchdog,
    and the status of the response. *)
Definition authorize_contact (client_id contact_id : option string)
           (state : Db * Watchdog.Agent) : Db * Watchdog.Agent * Z :=
  match client_id, contact_id with
  | Some client, Some contact =>
      if negb (truthy client_id && truthy contact_id) then (state, 400)
      else
        (fst (add_authorized_contact client contact (fst state)),
         cache_contact (snd state) client contact, 200)
  | _, _ => (state, 400)
  end.

(** [app.ingest_log] on a body that has the required fields: the record is
    rebuilt with [app] defaulted, saved, and handed to the watchdog, whose
    alerts go to the contacts the database holds at that time.  The result
    is the new state, the [log_id] of the response and the watchdog's
    events. *)
Definition ingest_log (data : LogRecord) (clock : Watchdog.Clock)
           (state : Db * Watchdog.Agent)
  : Db * Watchdog.Agent * Z * list Watchdog.Event :=
  let log_record := stored_row data in
  let '(db', log_id) := save_log_to_db log_record (fst state) in
  let '(w', emitted) :=
    Watchdog.process_record (get_emergency_contacts db') (snd state)
                            log_record clock in
  (db', w', log_id, emitted).

End Registry.

(* ------------------------------------------------------------------ *)
(** * Observations used to state the properties *)

Unset Implicit Arguments.
Import Store.

(** The value a computation returns from a database, and the calls it adds
    to an empty log. *)
Definition result_of {A} (m : M A) (db : Db) : Outcome A := fst (fst (m db [])).
Definition calls_of {A} (m : M A) (db : Db) : list DbCall := snd (m db []).


(** Sample records. *)
Definition obstacle_at (tm : Z) (depth : option Q) : LogRecord :=
  mkLog "alice" "s1" tm ["obstacle_center"%string] None depth (8 # 10) None.
Definition stop_at (tm : Z) : LogRecord :=
  mkLog "alice" "s1" tm ["stop"%string] None None (9 # 10) None.

(** A database holding a contact, three records and the index built from
    them, persisted for the client without a session. *)
Definition sample_logs : list LogRecord :=
  [obstacle_at 0 (Some (3 # 10)); stop_at 3; stop_at 35].
Definition sample_index : UserIndex := Indexer.build_index "alice" sample_logs.
Definition cached_db : Db :=
  mkDb sample_logs
       [mkIndexRow "alice" None (Some 0) (Some 35) (to_json sample_index)]
       [mkContact "alice" "carol" 1].

(** The same records and contact, with no index persisted. *)
Definition uncached_db : Db :=
  mkDb [obstacle_at 0 (Some (3 # 10)); stop_at 3; stop_at 35] []
       [mkContact "alice" "carol" 1].

(** A record with no event. *)
Definition no_event_record : LogRecord :=
  mkLog "alice" "s1" 7 [] None None (1 # 2) None.

(** Two obstacle records one second apart, the later one at depth 0.0, and
    the moments they become. *)
Definition near_then_touching : list LogRecord :=
  [obstacle_at 100 (Some (5 # 10)); obstacle_at 101 (Some 0%Q)].
Definition moment_at (tm : Z) (depth : option Q) : Moment :=
  mkMoment tm depth [] (8 # 10) ["obstacle_center"%string].

(** The direct reading of a depth for the comparison of the specification:
    a missing depth is above every present one. *)
Definition depth_lt (a b : option Q) : Prop :=
  match a, b with
  | Some x, Some y => (x < y)%Q
  | Some _, None => True
  | None, _ => False
  end.

(** No contact in the database: the watchdog falls back on its own table. *)
Definition no_db_contacts (client : string) : list string := [].

Definition at_clock (n : Z) : Watchdog.Clock := Watchdog.mkClock n n n.

(** Consecutive moments lie more than [MERGE_WINDOW_S] apart. *)
Fixpoint spaced (l : list Moment) : Prop :=
  match l with
  | [] => True
  | a :: l' =>
      match l' with
      | [] => True
      | b :: _ => MERGE_WINDOW_S < m_t b - m_t a
      end /\ spaced l'
  end.

(** The representatives [merge_loop] appends to [merged]. *)
Fixpoint representatives (rest : list Moment) (g_head : Moment)
         (g_tail : list Moment) : list Moment :=
  match rest with
  | [] => [Indexer.py_min Indexer.depth_key g_head g_tail]
  | c :: rest' =>
      if m_t c - m_t (last_of g_head g_tail) <=? MERGE_WINDOW_S
      then representatives rest' g_head (g_tail ++ [c])
      else Indexer.py_min Indexer.depth_key g_head g_tail
             :: representatives rest' c []
  end.

Definition le_t (a b : Moment) : Prop := m_t a <= m_t b.

(** An interval as the walk emits it and the merge keeps it. *)
Definition valid_interval (stuck_min : Z) (iv : Interval) : Prop :=
  duration_s iv = end_t iv - start_t iv /\
  stuck_min <= duration_s iv /\
  start_t iv <= end_t iv.

Definition before (a b : Interval) : Prop := end_t a < start_t b.
Definition starts_before (a b : Interval) : Prop := start_t a < start_t b.

(** Consecutive intervals are separated by more than [STUCK_GAP_S]. *)
Fixpoint gapped (l : list Interval) : Prop :=
  match l with
  | [] => True
  | a :: l' =>
      match l' with
      | [] => True
      | b :: _ => STUCK_GAP_S < start_t b - end_t a
      end /\ gapped l'
  end.

(** What [merge_gaps] appends to [done]. *)
Fixpoint merge_from (last : Interval) (rest : list Interval) : list Interval :=
  match rest with
  | [] => [last]
  | interval :: rest' =>
      if start_t interval - end_t last <=? STUCK_GAP_S
      then merge_from (mkInterval (start_t last) (end_t interval)
                                  (end_t interval - start_t last)) rest'
      else last :: merge_from interval rest'
  end.

(** The invariant of the walk over records of ascending [t]: everything
    recorded so far lies strictly below [bound]. *)
Definition walk_inv (stuck_min bound : Z) (st : Indexer.WalkState) : Prop :=
  Forall (valid_interval stuck_min) (Indexer.intervals st) /\
  StronglySorted before (Indexer.intervals st) /\
  Forall (fun iv => end_t iv < bound) (Indexer.intervals st) /\
  match Indexer.current st with
  | Some (s, e) =>
      s <= e /\ e < bound /\
      Forall (fun iv => end_t iv < s) (Indexer.intervals st)
  | None => True
  end.

(** What the watchdog's scan decides on each record it visits, newest
    first; the list ends with the record at which the scan breaks. *)
Fixpoint watchdog_verdicts (reversed_window : list LogRecord)
         (depths0 : list Q) : list bool :=
  match reversed_window with
  | [] => []
  | record :: rest =>
      let '(depths1, is_stationary) := Watchdog.observe depths0 record in
      is_stationary
        :: (if is_stationary then watchdog_verdicts rest depths1 else [])
  end.

(** What the indexer's walk decides on each record, oldest first. *)
Fixpoint indexer_verdicts (stuck_min : Z) (records : list (Z * LogRecord))
         (st : Indexer.WalkState) : list bool :=
  match records with
  | [] => []
  | item :: rest =>
      snd (Indexer.observe (Indexer.depths st) (snd item))
        :: indexer_verdicts stuck_min rest
             (Indexer.walk_step stuck_min st item)
  end.

(** The verdict of each scan on [window[i]]; [None] when the scan does not
    visit that record. *)
Definition watchdog_judges (window : list LogRecord) (i : nat) : option bool :=
  if (i <? List.length window)%nat
  then nth_error (watchdog_verdicts (rev window) [])
                 (List.length window - S i)
  else None.

(** The indexer walks the records sorted by [t]; on a window in ascending
    order of [t] position [i] of the walk is [window[i]]. *)
Definition indexer_judges (window : list LogRecord) (i : nat) : option bool :=
  nth_error
    (indexer_verdicts 120
       (Indexer.sort_by fst (map (fun r => (t r, r)) window))
       (Indexer.mkWalk [] None []))
    i.

Definition ascending (window : list LogRecord) : Prop :=
  StronglySorted (fun a b => t a <= t b) window.

(** [stationary_start] as the verdicts determine it. *)
Definition start_from (visited : list (LogRecord * bool)) (start : option Z)
  : option Z :=
  fold_left (fun (acc : option Z) (rv : LogRecord * bool) =>
               if snd rv then Some (t (fst rv)) else acc)
            visited start.

(** Three records one second apart at a steady depth, neither stopped nor
    moving. *)
Definition steady (tm : Z) : LogRecord :=
  mkLog "alice" "s1" tm ["obstacle_far"%string] None (Some 1%Q) (8 # 10) None.
Definition steady_window : list LogRecord := [steady 0; steady 1; steady 2].

Definition alert_type_eqb (a b : Watchdog.AlertType) : bool :=
  match a, b with
  | Watchdog.stuck_alert, Watchdog.stuck_alert => true
  | Watchdog.accident_alert, Watchdog.accident_alert => true
  | _, _ => false
  end.

Definition debounce_of (kind : Watchdog.AlertType) : Z :=
  match kind with
  | Watchdog.stuck_alert => Watchdog.stuck_debounce
  | Watchdog.accident_alert => Watchdog.accident_debounce
  end.

(** The wall-clock time of an event that is an alert of the kind for the
    client. *)
Definition alert_time (kind : Watchdog.AlertType) (client : string)
           (ev : Watchdog.Event) : option Z :=
  match ev with
  | Watchdog.Emitted a now _ =>
      if alert_type_eqb (Watchdog.alert_type a) kind
         && String.eqb (Watchdog.a_client_id a) client
      then Some now else None
  | Watchdog.Cleared _ => None
  end.

Definition clears (client : string) (ev : Watchdog.Event) : bool :=
  match ev with
  | Watchdog.Cleared c => String.eqb c client
  | Watchdog.Emitted _ _ _ => false
  end.

(** Over events listed newest first: the time of the latest alert of the
    kind for the client since its state was last cleared. *)
Fixpoint pending (kind : Watchdog.AlertType) (client : string)
         (newest_first : list Watchdog.Event) : option Z :=
  match newest_first with
  | [] => None
  | ev :: older =>
      match alert_time kind client ev with
      | Some now => Some now
      | None => if clears client ev then None else pending kind client older
      end
  end.

(** Every alert comes at least [gap] after the pending one. *)
Fixpoint debounced_steps (kind : Watchdog.AlertType) (gap : Z)
         (client : string) (newest_first : list Watchdog.Event) : Prop :=
  match newest_first with
  | [] => True
  | ev :: older =>
      match alert_time kind client ev, pending kind client older with
      | Some now, Some prev => gap <= now - prev
      | _, _ => True
      end /\ debounced_steps kind gap client older
  end.

(** The invariant of an execution, over its events listed newest first:
    the alert tables hold the pending alert times and every alert came at
    least its debounce after the pending one. *)
Definition watchdog_inv (w : Watchdog.Agent)
           (newest_first : list Watchdog.Event) : Prop :=
  NoDup (PyDict.keys (Watchdog.stuck_alerts w)) /\
  NoDup (PyDict.keys (Watchdog.accident_alerts w)) /\
  (forall c, PyDict.get String.eqb (Watchdog.stuck_alerts w) c
             = pending Watchdog.stuck_alert c newest_first) /\
  (forall c, PyDict.get String.eqb (Watchdog.accident_alerts w) c
             = pending Watchdog.accident_alert c newest_first) /\
  (forall kind c, debounced_steps kind (debounce_of kind) c newest_first).

(** Two stationary records, the state cleared, two more stationary
    records, the clock advancing by one second at each record. *)
Definition restart_ops : list Watchdog.Op :=
  [Watchdog.Process (stop_at 0) (at_clock 9999);
   Watchdog.Process (stop_at 1) (at_clock 10000);
   Watchdog.Clear "alice";
   Watchdog.Process (stop_at 2) (at_clock 10001);
   Watchdog.Process (stop_at 3) (at_clock 10002)].

(** Four stationary records 600 s apart with no clearing. *)
Definition steady_ops : list Watchdog.Op :=
  [Watchdog.Process (stop_at 0) (at_clock 9400);
   Watchdog.Process (stop_at 1) (at_clock 10000);
   Watchdog.Process (stop_at 2) (at_clock 10600);
   Watchdog.Process (stop_at 3) (at_clock 11200)].

Definition stuck_since (since_t now : Z) : Watchdog.Event :=
  Watchdog.Emitted
    (Watchdog.mkAlert Watchdog.stuck_alert "alice" now None (Some since_t))
    now [].

(** A stationary record with a depth reading. *)
Definition halted_at (tm : Z) : LogRecord :=
  mkLog "alice" "s1" tm ["stop"%string] None (Some 1%Q) (8 # 10) None.

(** The database a computation leaves. *)
Definition database_after {A} (m : M A) (db : Db) : Db := snd (fst (m db [])).

(** The range test of the validator on a fetched row. *)
Definition in_range (r : LogRecord) : bool :=
  Qle_bool 0 (confidence r) && Qle_bool (confidence r) 1.

(** The sum of a list of integers. *)
Definition total (l : list Z) : Z := fold_left Z.add l 0.

(** A database with one record of another client and nothing else. *)
Definition other_db : Db :=
  mkDb [mkLog "bob" "s9" 50 ["proceed"%string] None None (9 # 10) None] [] [].

(** The index of a client with no record. *)
Definition blank_index : UserIndex := Indexer.build_index "alice" [].

(** The half-open window of the record filter: a missing bound does not
    constrain. *)
Definition in_window (time_start time_end : option Z) (x : Z) : Prop :=
  (forall a, time_start = Some a -> a <= x) /\
  (forall b, time_end = Some b -> x < b).

(** The session filter: only a truthy session constrains. *)
Definition of_session (session : option string) (r : LogRecord) : Prop :=
  truthy session = true -> session = Some (session_id r).

(** [d.get(k, [])] and [d.get(k, 0)] *)
Definition lookup_list (d : str_dict (list Z)) (k : string) : list Z :=
  match PyDict.get String.eqb d k with Some l => l | None => [] end.
Definition lookup_count (d : str_dict Z) (k : string) : Z :=
  match PyDict.get String.eqb d k with Some n => n | None => 0 end.

(** The timestamps of the rows in range, one for each occurrence of the
    event tag in their [events], in the order of the rows. *)
Definition occurrences (event : string) (rows : list LogRecord) : list Z :=
  flat_map (fun r => if in_range r
                     then map (fun _ => t r)
                              (filter (String.eqb event) (events r))
                     else [])
           rows.

(** The last row in range with the given [t]. *)
Definition last_at (tm : Z) (rows : list LogRecord) : option LogRecord :=
  find (fun r => in_range r && (t r =? tm)) (rev rows).

(** A moment meets the thresholds of the candidate test. *)
Definition near_miss (crash_near conf : Q) (m : Moment) : bool :=
  Qle_bool conf (m_confidence m) &&
  match m_free_ahead_m m with
  | None => true
  | Some d => Qle_bool d crash_near
  end.

(** The keywords [_parse_time_window] understands without parsing. *)
Definition is_relative_start (start : option string) : bool :=
  match start with
  | None => true
  | Some s => String.eqb s "today" || String.eqb s "yesterday"
              || String.eqb s "last_7d" || String.eqb s "last_week"
  end.

Definition is_relative_end (end_ : option string) : bool :=
  match end_ with
  | None => true
  | Some e => String.eqb e "now" || String.eqb e "today"
  end.

(** A bound that is no keyword and that the ISO parser rejects. *)
Definition unparsable (parse_iso : string -> option Z)
           (is_relative : option string -> bool) (bound : option string)
  : Prop :=
  is_relative bound = false /\
  exists s, bound = Some s /\ parse_iso s = None.

(** The first record with a direct accident event is the one the planner
    reports; [has_accident] is its test. *)
Definition has_accident (record : LogRecord) : bool :=
  intersects (events record) ACCIDENT_EVENTS.

(** An anchor of pattern 2: an obstacle seen with confidence at least
    [ACCIDENT_CONF] at a depth of at most [ACCIDENT_DEPTH_M]. *)
Definition is_anchor (record : LogRecord) (depth : Q) : Prop :=
  intersects (events record) OBSTACLE_EVENTS = true /\
  Qle_bool ACCIDENT_CONF (confidence record) = true /\
  free_ahead_m record = Some depth /\
  Qle_bool depth ACCIDENT_DEPTH_M = true.

(** The records of one client streamed to the watchdog since its state was
    last cleared, oldest first. *)
Definition session_step (client : string) (acc : list LogRecord)
           (op : Watchdog.Op) : list LogRecord :=
  match op with
  | Watchdog.Process record _ =>
      if String.eqb client (client_id record) then acc ++ [record] else acc
  | Watchdog.Clear cleared =>
      if String.eqb client cleared then [] else acc
  end.
Definition session_records (client : string) (ops : list Watchdog.Op)
  : list LogRecord :=
  fold_left (session_step client) ops [].

(** What the watchdog has seen when it gives a rationale for an accident
    alert timed [tm], on [record] arriving with [window] as the client's
    window. *)
Definition accident_pattern (window : list LogRecord) (record : LogRecord)
           (tm : Z) (why : Rationale) : Prop :=
  match why with
  | DirectAccident evs =>
      has_accident record = true /\
      evs = intersection (events record) ACCIDENT_EVENTS /\ tm = t record
  | ObstacleStop depth n =>
      has_accident record = false /\ 3 <= len window /\
      (exists anchor, In anchor window /\ t anchor = tm /\
                      is_anchor anchor depth) /\
      ACCIDENT_NO_PROCEED_S <= n
      <= ACCIDENT_PATTERN_WINDOW_S + ACCIDENT_NO_PROCEED_S
  | VeerSurge veers still =>
      has_accident record = false /\ 3 <= len window /\
      3 <= veers /\ 120 <= still /\
      mem_str "stop" (events record) = true /\ tm = t record
  | NoPattern => False
  end.

(** The class tags and the event tags the rows in range carry, one entry
    per occurrence, in the order of the rows. *)
Definition class_tags (rows : list LogRecord) : list string :=
  flat_map (fun r => if in_range r
                     then match classes r with Some cs => cs | None => [] end
                     else [])
           rows.
Definition event_tags (rows : list LogRecord) : list string :=
  flat_map (fun r => if in_range r then events r else []) rows.

(* ------------------------------------------------------------------ *)
(** * Properties *)

(** ** Scenarios of the specification *)

(** S1: four obstacle records at depth 0.5; those at 100, 102 and 105 chain
    into one group, the one at 200 stands alone. *)
Example scenario_near_miss_count :
  map m_t
      (almost_crash_moments
         (hazards
            (Indexer.build_index "alice"
               (map (fun tm => obstacle_at tm (Some (5 # 10)))
                    [100; 102; 105; 200]))))
  = [100; 200].
Proof. reflexivity. Qed.

(** S2: a stop every 10 s from 0 to 150 is one interval of 150 s. *)
Example scenario_stuck_interval :
  stuck_intervals_of
    (hazards
       (Indexer.build_index "alice"
          (map (fun i => halted_at (10 * Z.of_nat i)) (seq 0 16))))
  = [mkInterval 0 150 150].
Proof. reflexivity. Qed.

(** S6: the four questions and their metrics. *)
Example scenario_intent_classification :
  map QueryAgent._classify_intent
      ["Show me stuck intervals yesterday";
       "how many almost crashes last week?";
       "did he fall today?";
       "top events"]%string
  = [stuck_intervals; almost_crash; accident; event_counts].
Proof. reflexivity. Qed.

(** ** Authorization *)

Section Authorization.
Variable parse_iso : string -> option Z.
Variable isoformat : Z -> string.
Variable round1 : Q -> Q.

(** C1.  When [is_authorized(requester_id, client_id)] is false,
    [handle_query] raises [PermissionError] (the Unauthorized failure), the
    database is unchanged, and the only call made to the store, before or
    after the failure, is the authorization check itself: no record read,
    no index read, no index write. *)
Theorem C1_unauthorized_before_any_access :
  forall requester client question session time_start time_end tz params
         now db log,
    fst (fst (is_authorized requester client db log)) = Return false ->
    QueryAgent.handle_query parse_iso isoformat round1 requester client
      question session time_start time_end tz params now db log
    = (Raise (PermissionError requester), db,
       log ++ [CallIsAuthorized requester client]).
Proof.
  intros requester client question session time_start time_end tz params
         now db log Hno.
  unfold QueryAgent.handle_query, is_authorized, db_is_authorized in *.
  unfold bind, call, read, ret, raise in *. cbn in *.
  injection Hno as Hno. rewrite Hno. reflexivity.
Qed.
End Authorization.

Lemma C1_witness :
  QueryAgent.handle_query (fun _ => None) (fun _ => EmptyString) (fun q => q)
    "bob" "alice" "did he fall today?" None None None "UTC" None 100000
    uncached_db []
  = (Raise (PermissionError "bob"), uncached_db,
     [CallIsAuthorized "bob" "alice"]).
Proof.
  apply (C1_unauthorized_before_any_access (fun _ => None)
           (fun _ => EmptyString) (fun q => q) "bob" "alice"
           "did he fall today?" None None None "UTC" None 100000
           uncached_db []).
  reflexivity.
Defined.

(** ** Index acquisition *)

Lemma read_index_run (key : string) (db : Db) (log : list DbCall) :
  read_index key db log
  = (result_of (read_index key) db, db, log ++ calls_of (read_index key) db).
Proof.
  unfold result_of, calls_of, read_index.
  destruct (split key) as [|p0 [|client rest]]; cbn.
  - now rewrite app_nil_r.
  - now rewrite app_nil_r.
  - reflexivity.
Qed.


Lemma is_authorized_run (requester client : string) (db : Db)
      (log : list DbCall) :
  is_authorized requester client db log
  = (fst (fst (is_authorized requester client db log)), db,
     log ++ [CallIsAuthorized requester client]).
Proof. reflexivity. Qed.


Section CachedIndex.
Variable parse_iso : string -> option Z.
Variable isoformat : Z -> string.
Variable round1 : Q -> Q.

(** What [handle_query] does once the requester is authorized and the
    window parsed, by what [read_index] finds. *)
Lemma handle_query_run :
  forall requester client question session time_start time_end tz params
         now db log tw,
    fst (fst (is_authorized requester client db log)) = Return true ->
    QueryAgent._parse_time_window parse_iso now time_start time_end tz
      = Return tw ->
    let key := index_key client session in
    let mt := QueryAgent._classify_intent question in
    let p := match params with Some p => p | None => default_params end in
    let log1 := (log ++ [CallIsAuthorized requester client])
                  ++ calls_of (read_index key) db in
    let respond computed :=
      match computed with
      | Return out =>
          Return (QueryAgent._format_answer isoformat mt (fst out),
                  QueryAgent.mkResponse client tw mt p (fst out)
                                        (firstn 3 (snd out)))
      | Raise e => Raise e
      end in
    QueryAgent.handle_query parse_iso isoformat round1 requester client
      question session time_start time_end tz params now db log
    = match result_of (read_index key) db with
      | Return (Some index) =>
          (respond (QueryAgent._compute_metric isoformat round1 mt
                      (QueryAgent.Cached index) p), db, log1)
      | Return None =>
          match Indexer.process_logs client (Some (QueryAgent.tw_start tw))
                  (Some (QueryAgent.tw_end tw)) session db log1 with
          | (Return index, db', log') =>
              (respond (QueryAgent._compute_metric isoformat round1 mt
                          (QueryAgent.Rebuilt index) p), db', log')
          | (Raise e, db', log') => (Raise e, db', log')
          end
      | Raise e => (Raise e, db, log1)
      end.
Proof.
  intros requester client question session time_start time_end tz params
         now db log tw Hauth Hparse key mt p log1 respond.
  unfold QueryAgent.handle_query.
  unfold bind at 1. rewrite is_authorized_run, Hauth. cbn [negb].
  unfold bind at 1. unfold lift at 1. rewrite Hparse.
  unfold bind at 1. unfold QueryAgent._load_index.
  unfold bind at 1. fold key. rewrite read_index_run. fold log1.
  destruct (result_of (read_index key) db) as [[index|]|e].
  - unfold ret at 1. unfold bind, lift, ret. fold mt. fold p.
    destruct (QueryAgent._compute_metric isoformat round1 mt
                (QueryAgent.Cached index) p) as [[result samples]|e];
      reflexivity.
  - unfold bind at 1.
    destruct (Indexer.process_logs _ _ _ _ _ _) as [[[index|e] db'] log'].
    + unfold ret at 1. unfold bind, lift, ret. fold mt. fold p.
      destruct (QueryAgent._compute_metric isoformat round1 mt
                  (QueryAgent.Rebuilt index) p) as [[result samples]|e];
        reflexivity.
    + reflexivity.
  - reflexivity.
Qed.

End CachedIndex.


(** ** Validation during an index build *)

Lemma validate_out_of_range (r : LogRecord) :
  (confidence r < 0 \/ 1 < confidence r)%Q ->
  Indexer._validate_record (Indexer.record_of_log_dict r) = false.
Proof.
  intros H. unfold Indexer._validate_record.
  cbn [confidence Indexer.record_of_log_dict].
  destruct (Qle_bool 0 (confidence r)) eqn:E0;
    destruct (Qle_bool (confidence r) 1) eqn:E1; try reflexivity.
  apply Qle_bool_iff in E0. apply Qle_bool_iff in E1.
  destruct H as [H | H]; exfalso; eapply Qlt_not_le; eauto.
Qed.

Lemma validate_in_range (r : LogRecord) :
  (0 <= confidence r)%Q -> (confidence r <= 1)%Q ->
  Indexer._validate_record (Indexer.record_of_log_dict r) = true.
Proof.
  intros H0 H1. unfold Indexer._validate_record.
  cbn [confidence Indexer.record_of_log_dict].
  apply Qle_bool_iff in H0. apply Qle_bool_iff in H1.
  now rewrite H0, H1.
Qed.

Lemma build_step_shift (index : UserIndex) (n : Z) (r : LogRecord) :
  Indexer.build_step
    (Indexer.set_dropped index (dropped_records index + n)) r
  = Indexer.set_dropped (Indexer.build_step index r)
      (dropped_records (Indexer.build_step index r) + n).
Proof.
  unfold Indexer.build_step.
  destruct (negb (Indexer._validate_record (Indexer.record_of_log_dict r))).
  - unfold Indexer.set_dropped. cbn. f_equal. lia.
  - reflexivity.
Qed.

Lemma build_loop_shift (rows : list LogRecord) :
  forall (index : UserIndex) (n : Z),
    fold_left Indexer.build_step rows
      (Indexer.set_dropped index (dropped_records index + n))
    = Indexer.set_dropped (fold_left Indexer.build_step rows index)
        (dropped_records (fold_left Indexer.build_step rows index) + n).
Proof.
  induction rows as [|r rows IH]; intros index n; cbn [fold_left].
  - reflexivity.
  - rewrite build_step_shift. apply IH.
Qed.

(** C5.  A fetched record whose confidence lies outside [0, 1] is dropped
    by the index build: the index built with it has the same [by_time],
    [by_event], [counters], [by_class] and hazards as the index built
    without it, and its [dropped_records] is larger by exactly 1. *)
Theorem C5_out_of_range_confidence_dropped :
  forall (client : string) (before after : list LogRecord) (r : LogRecord),
    (confidence r < 0 \/ 1 < confidence r)%Q ->
    let with_r := Indexer.build_index client (before ++ r :: after) in
    let without := Indexer.build_index client (before ++ after) in
    by_time with_r = by_time without /\
    by_event with_r = by_event without /\
    counters with_r = counters without /\
    by_class with_r = by_class without /\
    hazards with_r = hazards without /\
    dropped_records with_r = dropped_records without + 1.
Proof.
  intros client before after r Hconf with_r without.
  subst with_r without. unfold Indexer.build_index.
  rewrite !fold_left_app. cbn [fold_left].
  set (index := fold_left Indexer.build_step before
                          (Indexer.empty_index client)).
  assert (Hstep : Indexer.build_step index r
                  = Indexer.set_dropped index (dropped_records index + 1)).
  { unfold Indexer.build_step. now rewrite validate_out_of_range. }
  rewrite Hstep, build_loop_shift.
  set (final := fold_left Indexer.build_step after index).
  repeat split; reflexivity.
Qed.

Lemma C5_witness :
  let bad := mkLog "alice" "s1" 3 ["stop"%string] None None (3 # 2) None in
  let with_r :=
    Indexer.build_index "alice" ([obstacle_at 0 None] ++ bad :: [stop_at 35]) in
  let without :=
    Indexer.build_index "alice" ([obstacle_at 0 None] ++ [stop_at 35]) in
  by_time with_r = by_time without /\
  by_event with_r = by_event without /\
  counters with_r = counters without /\
  by_class with_r = by_class without /\
  hazards with_r = hazards without /\
  dropped_records with_r = dropped_records without + 1.
Proof.
  apply (C5_out_of_range_confidence_dropped "alice" [obstacle_at 0 None]
           [stop_at 35]
           (mkLog "alice" "s1" 3 ["stop"%string] None None (3 # 2) None)).
  right. reflexivity.
Defined.

(** ** Records with no event *)

(** C6, as the code has it.  A record whose [events] is the empty list and
    whose confidence lies in [0, 1] passes validation: the build stores it
    in [by_time] under its [t], leaves [by_event] and [counters] as they
    were, and does not increment [dropped_records]. *)
Theorem C6_empty_events_accepted :
  forall (index : UserIndex) (r : LogRecord),
    events r = [] ->
    (0 <= confidence r)%Q -> (confidence r <= 1)%Q ->
    let record := Indexer.record_of_log_dict r in
    let index' := Indexer.build_step index r in
    Indexer._validate_record record = true /\
    by_time index' = PyDict.setitem Z.eqb (by_time index) (t r) record /\
    by_event index' = by_event index /\
    counters index' = counters index /\
    dropped_records index' = dropped_records index.
Proof.
  intros index r Hev H0 H1 record index'. subst record index'.
  unfold Indexer.build_step. rewrite (validate_in_range r H0 H1). cbn [negb].
  unfold Indexer._add_to_index.
  cbn [by_time by_event counters dropped_records t events
       Indexer.record_of_log_dict].
  rewrite Hev. cbn [fold_left]. repeat split; reflexivity.
Qed.

Lemma C6_witness :
  let record := Indexer.record_of_log_dict no_event_record in
  let index' :=
    Indexer.build_step (Indexer.empty_index "alice") no_event_record in
  Indexer._validate_record record = true /\
  by_time index' = PyDict.setitem Z.eqb [] 7 record /\
  by_event index' = [] /\
  counters index' = [] /\
  dropped_records index' = 0.
Proof.
  apply (C6_empty_events_accepted (Indexer.empty_index "alice")
           no_event_record).
  - reflexivity.
  - discriminate.
  - discriminate.
Defined.

(** C6 as stated fails: this record has no event, yet the build keeps it
    and counts no dropped record. *)
Lemma C6_counterexample :
  events no_event_record = [] /\
  Indexer._validate_record (Indexer.record_of_log_dict no_event_record)
    = true /\
  by_time (Indexer.build_index "alice" [no_event_record])
    = [(7, no_event_record)] /\
  dropped_records (Indexer.build_index "alice" [no_event_record]) = 0.
Proof. repeat split. Qed.

(** ** Representative of a merged group *)

(** C2 on the code.  Two candidates one second apart form one group; the
    later one has depth 0.0, strictly below the 0.5 of the earlier one, yet
    the earlier one is selected: the key [free_ahead_m or 999] turns the
    depth 0.0 into 999, as it does a missing depth. *)
Theorem C2_zero_depth_loses_selection :
  Indexer.collect_candidates CRASH_NEAR_M CONF_MIN
    (by_time (Indexer.build_index "alice" near_then_touching))
  = [moment_at 100 (Some (5 # 10)); moment_at 101 (Some 0%Q)] /\
  almost_crash_moments
    (hazards (Indexer.build_index "alice" near_then_touching))
  = [moment_at 100 (Some (5 # 10))] /\
  depth_lt (m_free_ahead_m (moment_at 101 (Some 0%Q)))
           (m_free_ahead_m (moment_at 100 (Some (5 # 10)))) /\
  Indexer.merge_candidates [moment_at 100 None; moment_at 101 (Some 0%Q)]
  = [moment_at 100 None].
Proof. repeat split. Qed.

(** ** Anchors of accident pattern 2 *)

(** C4 on the code.  With three records in the window, the obstacle at the
    oldest position followed by two stops 35 s apart, the anchor indices are
    2 and 1 only: position 0 is never examined and the watchdog emits no
    alert over the three records, although the scan started at position 0
    finds the pattern, as the planner does over the same records.  With
    twenty records nine positions are examined, not ten. *)
Theorem C4_oldest_record_never_anchor :
  Watchdog.anchor_indices sample_logs = [2; 1] /\
  Watchdog.find_anchor sample_logs (Watchdog.anchor_indices sample_logs)
    = None /\
  Watchdog.find_anchor sample_logs [2; 1; 0] = Some (0, 3 # 10, 35) /\
  snd (Watchdog.run no_db_contacts Watchdog.init
         [Watchdog.Process (obstacle_at 0 (Some (3 # 10))) (at_clock 100);
          Watchdog.Process (stop_at 3) (at_clock 103);
          Watchdog.Process (stop_at 35) (at_clock 135)]) = [] /\
  fst (QueryAgent._compute_accident (fun _ => EmptyString) sample_index
         default_params)
  = QueryAgent.ResAccident true (Some 0) (ObstacleStop (3 # 10) 35) /\
  List.length (Watchdog.anchor_indices (repeat (stop_at 0) 20)) = 9%nat.
Proof. repeat split. Qed.

(** ** Near-miss merging *)

Section StableSort.
Variable A : Type.
Variable key : A -> Z.

Lemma insert_sorted_In (x y : A) (l : list A) :
  In y (Indexer.insert_sorted key x l) <-> y = x \/ In y l.
Proof.
  induction l as [|z l IH]; cbn.
  - intuition congruence.
  - destruct (key x <=? key z); cbn; rewrite ?IH; intuition congruence.
Qed.

Lemma sort_by_In (y : A) (l : list A) :
  In y (Indexer.sort_by key l) <-> In y l.
Proof.
  induction l as [|x l IH]; cbn; [tauto|].
  rewrite insert_sorted_In, IH. intuition congruence.
Qed.

Lemma insert_sorted_sorted (x : A) (l : list A) :
  StronglySorted (fun a b => key a <= key b) l ->
  StronglySorted (fun a b => key a <= key b) (Indexer.insert_sorted key x l).
Proof.
  induction l as [|z l IH]; intros Hs; cbn.
  - repeat constructor.
  - inversion Hs as [|? ? Hl Hz]; subst.
    destruct (key x <=? key z) eqn:E.
    + apply Z.leb_le in E. constructor; [exact Hs|].
      constructor; [exact E|].
      eapply Forall_impl; [|exact Hz]. cbn. intros; lia.
    + apply Z.leb_gt in E. constructor; [now apply IH|].
      apply Forall_forall. intros y Hy. apply insert_sorted_In in Hy.
      destruct Hy as [->|Hy]; [lia|].
      rewrite Forall_forall in Hz. now apply Hz.
Qed.

Lemma sort_by_sorted (l : list A) :
  StronglySorted (fun a b => key a <= key b) (Indexer.sort_by key l).
Proof.
  induction l as [|x l IH]; cbn; [constructor|].
  now apply insert_sorted_sorted.
Qed.

Lemma insert_sorted_strict (x : A) (l : list A) :
  StronglySorted (fun a b => key a < key b) l ->
  (forall y, In y l -> key y <> key x) ->
  StronglySorted (fun a b => key a < key b) (Indexer.insert_sorted key x l).
Proof.
  induction l as [|z l IH]; intros Hs Hne; cbn.
  - repeat constructor.
  - inversion Hs as [|? ? Hl Hz]; subst.
    assert (Hzx : key z <> key x) by (apply Hne; now left).
    destruct (key x <=? key z) eqn:E.
    + apply Z.leb_le in E. constructor; [exact Hs|].
      constructor; [lia|].
      eapply Forall_impl; [|exact Hz]. cbn. intros; lia.
    + apply Z.leb_gt in E. constructor.
      * apply IH; [exact Hl|]. intros y Hy. apply Hne. now right.
      * apply Forall_forall. intros y Hy. apply insert_sorted_In in Hy.
        destruct Hy as [->|Hy]; [lia|].
        rewrite Forall_forall in Hz. now apply Hz.
Qed.

Lemma sort_by_strict (l : list A) :
  NoDup (map key l) ->
  StronglySorted (fun a b => key a < key b) (Indexer.sort_by key l).
Proof.
  induction l as [|x l IH]; intros Hnd; cbn; [constructor|].
  inversion Hnd as [|? ? Hx Hl]; subst.
  apply insert_sorted_strict; [now apply IH|].
  intros y Hy Heq. rewrite sort_by_In in Hy. apply Hx.
  rewrite <- Heq. apply in_map_iff. exists y. now split.
Qed.

Lemma sort_by_sorted_id (l : list A) :
  StronglySorted (fun a b => key a <= key b) l -> Indexer.sort_by key l = l.
Proof.
  induction l as [|x l IH]; intros Hs; [reflexivity|].
  inversion Hs as [|? ? Hl Hx]; subst.
  cbn [Indexer.sort_by]. rewrite (IH Hl).
  destruct l as [|y l]; [reflexivity|].
  inversion Hx as [|? ? Hxy _]; subst. cbn.
  apply Z.leb_le in Hxy. now rewrite Hxy.
Qed.

End StableSort.

Lemma spaced_sort_id (l : list Moment) :
  spaced l -> Indexer.sort_by m_t l = l.
Proof.
  induction l as [|a l IH]; intros Hs; [reflexivity|].
  destruct Hs as [Hgap Hs]. cbn [Indexer.sort_by]. rewrite (IH Hs).
  destruct l as [|b l]; [reflexivity|]. cbn.
  replace (m_t a <=? m_t b) with true; [reflexivity|].
  symmetry. apply Z.leb_le. unfold MERGE_WINDOW_S in Hgap. lia.
Qed.

Lemma merge_loop_representatives (rest : list Moment) :
  forall g_head g_tail merged,
    Indexer.merge_loop rest g_head g_tail merged
    = merged ++ representatives rest g_head g_tail.
Proof.
  induction rest as [|c rest IH]; intros g_head g_tail merged; cbn.
  - reflexivity.
  - destruct (m_t c - m_t (last_of g_head g_tail) <=? MERGE_WINDOW_S).
    + apply IH.
    + rewrite IH, <- app_assoc. reflexivity.
Qed.

Lemma spaced_representatives_id (rest : list Moment) :
  forall c0, spaced (c0 :: rest) -> representatives rest c0 [] = c0 :: rest.
Proof.
  induction rest as [|c rest IH]; intros c0 Hs; cbn.
  - reflexivity.
  - destruct Hs as [Hgap Hs]. unfold last_of. cbn [last].
    replace (m_t c - m_t c0 <=? MERGE_WINDOW_S) with false.
    + now rewrite (IH c Hs).
    + symmetry. apply Z.leb_gt. lia.
Qed.

Lemma py_min_In (A : Type) (key : A -> Q) (l : list A) :
  forall best, In (Indexer.py_min key best l) (best :: l).
Proof.
  induction l as [|x l IH]; intros best; cbn [Indexer.py_min].
  - now left.
  - specialize (IH (if Qltb (key x) (key best) then x else best)).
    destruct (Qltb (key x) (key best)); cbn in *; intuition.
Qed.

Lemma last_cons (A : Type) (l : list A) :
  forall x d, last (x :: l) d = last l x.
Proof.
  induction l as [|y l IH]; intros x d; [reflexivity|].
  change (last (x :: y :: l) d) with (last (y :: l) d).
  now rewrite !IH.
Qed.

Lemma sorted_last_max (g_tail : list Moment) :
  forall g_head m,
    StronglySorted le_t (g_head :: g_tail) ->
    In m (g_head :: g_tail) -> m_t m <= m_t (last_of g_head g_tail).
Proof.
  unfold last_of.
  induction g_tail as [|x g_tail IH]; intros g_head m Hs Hin.
  - destruct Hin as [->|[]]. cbn. lia.
  - inversion Hs as [|? ? Hs' Hall]; subst.
    specialize (IH x).
    rewrite last_cons.
    destruct Hin as [->|Hin].
    + transitivity (m_t x).
      * rewrite Forall_forall in Hall. apply Hall. now left.
      * apply IH; [exact Hs'|now left].
    + now apply IH.
Qed.

Lemma representatives_In (rest : list Moment) :
  forall g_head g_tail m,
    In m (representatives rest g_head g_tail) ->
    In m (g_head :: g_tail ++ rest).
Proof.
  induction rest as [|c rest IH]; intros g_head g_tail m Hin; cbn in Hin.
  - destruct Hin as [<-|[]]. rewrite app_nil_r. apply py_min_In.
  - destruct (m_t c - m_t (last_of g_head g_tail) <=? MERGE_WINDOW_S).
    + apply IH in Hin. now rewrite <- app_assoc in Hin.
    + destruct Hin as [<-|Hin].
      * pose proof (py_min_In Moment Indexer.depth_key g_tail g_head) as H.
        cbn in *. rewrite in_app_iff. tauto.
      * apply IH in Hin. cbn in *. rewrite in_app_iff. cbn. tauto.
Qed.

Lemma representatives_spaced (rest : list Moment) :
  forall g_head g_tail,
    StronglySorted le_t (g_head :: g_tail ++ rest) ->
    spaced (representatives rest g_head g_tail).
Proof.
  induction rest as [|c rest IH]; intros g_head g_tail Hs; cbn.
  - tauto.
  - destruct (m_t c - m_t (last_of g_head g_tail) <=? MERGE_WINDOW_S) eqn:E.
    + apply IH. now rewrite <- app_assoc.
    + apply Z.leb_gt in E.
      assert (Hs_group : StronglySorted le_t (g_head :: g_tail)).
      { clear - Hs. change (g_head :: g_tail ++ c :: rest)
          with ((g_head :: g_tail) ++ c :: rest) in Hs.
        revert Hs. generalize (g_head :: g_tail). intros l.
        induction l as [|x l IHl]; cbn; intros Hs; [constructor|].
        inversion Hs as [|? ? Hl Hx]; subst. constructor; [now apply IHl|].
        apply Forall_app in Hx. tauto. }
      assert (Hs_rest : StronglySorted le_t (c :: [] ++ rest)).
      { clear - Hs. change (g_head :: g_tail ++ c :: rest)
          with ((g_head :: g_tail) ++ c :: rest) in Hs.
        revert Hs. generalize (g_head :: g_tail). intros l.
        induction l as [|x l IHl]; cbn; intros Hs; [exact Hs|].
        inversion Hs; subst. now apply IHl. }
      pose proof (sorted_last_max g_tail g_head _ Hs_group
                    (py_min_In Moment Indexer.depth_key g_tail g_head)) as Hrep.
      specialize (IH c [] Hs_rest). split; [|exact IH].
      destruct (representatives rest c []) as [|b reps] eqn:Er; [exact I|].
      assert (Hb : In b (c :: [] ++ rest)).
      { apply representatives_In. rewrite Er. now left. }
      cbn in Hb. inversion Hs_rest as [|? ? _ Hc]; subst.
      destruct Hb as [<-|Hb]; [lia|].
      rewrite Forall_forall in Hc. specialize (Hc b Hb). unfold le_t in Hc. lia.
Qed.

(** C8.  The sort-and-merge step of the near-miss merger is idempotent:
    applied to its own output it returns that output unchanged, for every
    list of candidates. *)
Theorem C8_merge_candidates_idempotent :
  forall candidates : list Moment,
    Indexer.merge_candidates (Indexer.merge_candidates candidates)
    = Indexer.merge_candidates candidates.
Proof.
  intros candidates.
  assert (Hsp : spaced (Indexer.merge_candidates candidates)).
  { unfold Indexer.merge_candidates. destruct candidates as [|c cs]; [exact I|].
    pose proof (sort_by_sorted Moment m_t (c :: cs)) as Hs.
    destruct (Indexer.sort_by m_t (c :: cs)) as [|c0 rest]; [exact I|].
    rewrite merge_loop_representatives. cbn [List.app].
    apply representatives_spaced. exact Hs. }
  revert Hsp. generalize (Indexer.merge_candidates candidates). intros out Hsp.
  unfold Indexer.merge_candidates. destruct out as [|o0 orest]; [reflexivity|].
  rewrite (spaced_sort_id _ Hsp), merge_loop_representatives. cbn [List.app].
  now apply spaced_representatives_id.
Qed.

(** ** Dictionaries *)

Section DictFacts.
Variables K V : Type.
Variable eqb : K -> K -> bool.
Hypothesis eqb_eq : forall a b, eqb a b = true <-> a = b.

Lemma eqb_refl (a : K) : eqb a a = true.
Proof. now apply eqb_eq. Qed.

Lemma eqb_neq (a b : K) : a <> b -> eqb a b = false.
Proof.
  intros H. destruct (eqb a b) eqn:E; [|reflexivity].
  apply eqb_eq in E. contradiction.
Qed.

Lemma setitem_keys_In (d : PyDict.dict K V) (k : K) (v : V) (x : K) :
  In x (PyDict.keys (PyDict.setitem eqb d k v)) ->
  x = k \/ In x (PyDict.keys d).
Proof.
  unfold PyDict.keys.
  induction d as [|[k' v'] d IH]; intros Hx; cbn in *.
  - intuition.
  - destruct (eqb k k'); cbn in *; [tauto|].
    destruct Hx as [Hx|Hx]; [tauto|]. apply IH in Hx. tauto.
Qed.

Lemma setitem_keys_NoDup (d : PyDict.dict K V) (k : K) (v : V) :
  NoDup (PyDict.keys d) -> NoDup (PyDict.keys (PyDict.setitem eqb d k v)).
Proof.
  unfold PyDict.keys.
  induction d as [|[k' v'] d IH]; intros Hnd; cbn.
  - repeat constructor. intros [].
  - inversion Hnd as [|? ? Hk Hd]; subst.
    destruct (eqb k k') eqn:E; cbn.
    + now constructor.
    + constructor; [|now apply IH].
      intros Hx. apply setitem_keys_In in Hx.
      destruct Hx as [Hx|Hx]; [|now apply Hk].
      subst k'. now rewrite eqb_refl in E.
Qed.

Lemma get_setitem (d : PyDict.dict K V) (k : K) (v : V) (k' : K) :
  PyDict.get eqb (PyDict.setitem eqb d k v) k'
  = if eqb k' k then Some v else PyDict.get eqb d k'.
Proof.
  induction d as [|[k0 v0] d IH]; cbn.
  - reflexivity.
  - destruct (eqb k k0) eqn:E; cbn.
    + apply eqb_eq in E. subst k0. now destruct (eqb k' k).
    + rewrite IH. destruct (eqb k' k0) eqn:E0; [|reflexivity].
      apply eqb_eq in E0. subst k0.
      destruct (eqb k' k) eqn:E1; [|reflexivity].
      apply eqb_eq in E1. subst k'. now rewrite eqb_refl in E.
Qed.

Lemma get_absent (d : PyDict.dict K V) (k : K) :
  ~ In k (PyDict.keys d) -> PyDict.get eqb d k = None.
Proof.
  unfold PyDict.keys.
  induction d as [|[k0 v0] d IH]; intros Hk; cbn in *; [reflexivity|].
  rewrite eqb_neq by intuition. apply IH. tauto.
Qed.

Lemma pop_keys_In (d : PyDict.dict K V) (k x : K) :
  In x (PyDict.keys (PyDict.pop eqb d k)) -> In x (PyDict.keys d).
Proof.
  unfold PyDict.keys.
  induction d as [|[k0 v0] d IH]; intros Hx; cbn in *; [exact Hx|].
  destruct (eqb k k0); cbn in *; tauto.
Qed.

Lemma pop_keys_NoDup (d : PyDict.dict K V) (k : K) :
  NoDup (PyDict.keys d) -> NoDup (PyDict.keys (PyDict.pop eqb d k)).
Proof.
  unfold PyDict.keys.
  induction d as [|[k0 v0] d IH]; intros Hnd; cbn; [constructor|].
  inversion Hnd as [|? ? Hk Hd]; subst.
  destruct (eqb k k0); [exact Hd|]. cbn. constructor; [|now apply IH].
  intros Hx. apply pop_keys_In in Hx. now apply Hk.
Qed.

Lemma get_pop (d : PyDict.dict K V) (k k' : K) :
  NoDup (PyDict.keys d) ->
  PyDict.get eqb (PyDict.pop eqb d k) k'
  = if eqb k' k then None else PyDict.get eqb d k'.
Proof.
  unfold PyDict.keys.
  induction d as [|[k0 v0] d IH]; intros Hnd; cbn.
  - now destruct (eqb k' k).
  - inversion Hnd as [|? ? Hk Hd]; subst.
    destruct (eqb k k0) eqn:E; cbn.
    + apply eqb_eq in E. subst k0.
      destruct (eqb k' k) eqn:E1; [|reflexivity].
      apply eqb_eq in E1. subst k'. now apply get_absent.
    + rewrite (IH Hd). destruct (eqb k' k0) eqn:E0; [|reflexivity].
      apply eqb_eq in E0. subst k0.
      rewrite eqb_neq; [reflexivity|].
      intros ->. now rewrite eqb_refl in E.
Qed.
End DictFacts.

(** ** Stuck intervals *)

Lemma build_loop_keys_NoDup (rows : list LogRecord) :
  forall index,
    NoDup (map fst (by_time index)) ->
    NoDup (map fst (by_time (fold_left Indexer.build_step rows index))).
Proof.
  induction rows as [|r rows IH]; intros index Hnd; cbn [fold_left].
  - exact Hnd.
  - apply IH. unfold Indexer.build_step.
    destruct (negb (Indexer._validate_record (Indexer.record_of_log_dict r))).
    + exact Hnd.
    + cbn. apply setitem_keys_NoDup; [exact Z.eqb_eq|exact Hnd].
Qed.

Lemma sorted_snoc (A : Type) (R : A -> A -> Prop) (l : list A) (x : A) :
  StronglySorted R l -> Forall (fun a => R a x) l ->
  StronglySorted R (l ++ [x]).
Proof.
  induction l as [|a l IH]; intros Hs Hall; cbn.
  - repeat constructor.
  - inversion Hs as [|? ? Hl Ha]; subst.
    inversion Hall as [|? ? Hax Hlx]; subst.
    constructor; [now apply IH|].
    apply Forall_app. split; [exact Ha|]. now repeat constructor.
Qed.

Lemma walk_inv_emit (stuck_min bound s e : Z) (ivs : list Interval) :
  Forall (valid_interval stuck_min) ivs ->
  StronglySorted before ivs ->
  Forall (fun iv => end_t iv < s) ivs ->
  s <= e -> e < bound ->
  let out := if stuck_min <=? e - s
             then ivs ++ [mkInterval s e (e - s)] else ivs in
  Forall (valid_interval stuck_min) out /\
  StronglySorted before out /\
  Forall (fun iv => end_t iv < bound) out.
Proof.
  intros Hv Hs Hlt Hse Heb out. subst out.
  assert (Hb : Forall (fun iv => end_t iv < bound) ivs).
  { eapply Forall_impl; [|exact Hlt]. cbn. intros; lia. }
  destruct (stuck_min <=? e - s) eqn:E; [|tauto].
  apply Z.leb_le in E. repeat split.
  - apply Forall_app. split; [exact Hv|].
    repeat constructor; cbn; lia.
  - apply sorted_snoc; [exact Hs|]. exact Hlt.
  - apply Forall_app. split; [exact Hb|]. repeat constructor. cbn. lia.
Qed.

Lemma walk_step_inv (stuck_min bound : Z) (st : Indexer.WalkState)
      (tm : Z) (record : LogRecord) :
  walk_inv stuck_min bound st -> bound <= tm ->
  walk_inv stuck_min (tm + 1) (Indexer.walk_step stuck_min st (tm, record)).
Proof.
  intros (Hv & Hs & Hb & Hc) Hle. unfold Indexer.walk_step.
  destruct (Indexer.observe (Indexer.depths st) record) as [depths1 stationary].
  assert (Hb' : Forall (fun iv => end_t iv < tm + 1) (Indexer.intervals st)).
  { eapply Forall_impl; [|exact Hb]. cbn. intros; lia. }
  destruct stationary.
  - unfold walk_inv. cbn. repeat split; try assumption.
    + destruct (Indexer.current st) as [[s e]|]; lia.
    + lia.
    + destruct (Indexer.current st) as [[s e]|]; [tauto|].
      eapply Forall_impl; [|exact Hb]. cbn. intros; lia.
  - destruct (Indexer.current st) as [[s e]|].
    + destruct Hc as (Hse & Heb & Hlt).
      destruct (walk_inv_emit stuck_min (tm + 1) s e _ Hv Hs Hlt Hse
                  ltac:(lia)) as (H1 & H2 & H3).
      unfold walk_inv. cbn. tauto.
    + unfold walk_inv. cbn. tauto.
Qed.

Lemma walk_loop_inv (stuck_min : Z) (records : list (Z * LogRecord)) :
  forall bound st,
    StronglySorted (fun a b => fst a < fst b) records ->
    Forall (fun item => bound <= fst item) records ->
    walk_inv stuck_min bound st ->
    exists bound',
      walk_inv stuck_min bound'
               (fold_left (Indexer.walk_step stuck_min) records st).
Proof.
  induction records as [|[tm record] records IH]; intros bound st Hs Hlb Hinv.
  - exists bound. exact Hinv.
  - cbn [fold_left]. inversion Hs as [|? ? Hs' Hall]; subst.
    inversion Hlb as [|? ? Htm _]; subst. cbn in Htm.
    apply (IH (tm + 1));
      [exact Hs'| |now apply walk_step_inv with (bound := bound)].
    eapply Forall_impl; [|exact Hall]. cbn. intros; lia.
Qed.

Lemma flush_valid (stuck_min bound : Z) (st : Indexer.WalkState) :
  walk_inv stuck_min bound st ->
  Forall (valid_interval stuck_min) (Indexer.flush stuck_min st) /\
  StronglySorted before (Indexer.flush stuck_min st).
Proof.
  intros (Hv & Hs & Hb & Hc). unfold Indexer.flush.
  destruct (Indexer.current st) as [[s e]|]; [|tauto].
  destruct Hc as (Hse & Heb & Hlt).
  destruct (walk_inv_emit stuck_min bound s e _ Hv Hs Hlt Hse Heb)
    as (H1 & H2 & _).
  tauto.
Qed.

Lemma merge_gaps_from (rest : list Interval) :
  forall done last,
    Indexer.merge_gaps done last rest = done ++ merge_from last rest.
Proof.
  induction rest as [|iv rest IH]; intros done last; cbn.
  - reflexivity.
  - destruct (start_t iv - end_t last <=? STUCK_GAP_S).
    + apply IH.
    + rewrite IH, <- app_assoc. reflexivity.
Qed.

Lemma merge_from_spec (stuck_min : Z) (rest : list Interval) :
  forall last,
    valid_interval stuck_min last ->
    Forall (valid_interval stuck_min) rest ->
    StronglySorted before (last :: rest) ->
    Forall (valid_interval stuck_min) (merge_from last rest) /\
    gapped (merge_from last rest) /\
    exists tail, merge_from last rest = tail /\
                 match tail with
                 | first :: _ => start_t first = start_t last
                 | [] => False
                 end.
Proof.
  induction rest as [|iv rest IH]; intros last Hlast Hrest Hs; cbn.
  - split; [repeat constructor; apply Hlast|].
    split; [exact (conj I I)|]. eexists. split; reflexivity.
  - inversion Hrest as [|? ? Hiv Hrest']; subst.
    inversion Hs as [|? ? Hs' Hall]; subst.
    inversion Hs' as [|? ? Hs'' Hall']; subst.
    inversion Hall as [|? ? Hbefore Hall_rest]; subst. unfold before in Hbefore.
    destruct Hlast as (Hd & Hmin & Hle). destruct Hiv as (Hd' & Hmin' & Hle').
    destruct (start_t iv - end_t last <=? STUCK_GAP_S) eqn:E.
    + set (joined := mkInterval (start_t last) (end_t iv)
                                (end_t iv - start_t last)).
      destruct (IH joined) as (H1 & H2 & tail & Htail & Hhead).
      * unfold valid_interval, joined. cbn. lia.
      * exact Hrest'.
      * constructor; [exact Hs''|]. exact Hall'.
      * repeat split; try assumption. exists tail. split; [exact Htail|].
        destruct tail; [exact Hhead|]. exact Hhead.
    + apply Z.leb_gt in E.
      destruct (IH iv) as (H1 & H2 & tail & Htail & Hhead).
      * unfold valid_interval. lia.
      * exact Hrest'.
      * exact Hs'.
      * repeat split.
        -- constructor; [unfold valid_interval; lia|exact H1].
        -- rewrite Htail in *. destruct tail as [|first tail]; [exact I|]. lia.
        -- exact H2.
        -- eexists. split; reflexivity.
Qed.

Lemma gapped_sorted (stuck_min : Z) (l : list Interval) :
  Forall (valid_interval stuck_min) l -> gapped l ->
  StronglySorted before l /\ StronglySorted starts_before l.
Proof.
  induction l as [|a l IH]; intros Hv Hg.
  - split; constructor.
  - inversion Hv as [|? ? Ha Hl]; subst. destruct Hg as [Hgap Hg].
    destruct (IH Hl Hg) as [Hb Hsb].
    assert (Hall : Forall (fun b => end_t a < start_t b) l).
    { destruct l as [|b l]; [constructor|].
      inversion Hb as [|? ? _ Hbl]; subst.
      inversion Hl as [|? ? (_ & _ & Hble) _]; subst.
      unfold STUCK_GAP_S in Hgap.
      constructor; [lia|].
      eapply Forall_impl; [|exact Hbl]. unfold before. intros; lia. }
    destruct Ha as (_ & _ & Hale).
    split; constructor; try assumption.
    eapply Forall_impl; [|exact Hall]. unfold starts_before. intros; lia.
Qed.

Lemma stuck_intervals_spec (stuck_min : Z) (index : UserIndex) :
  NoDup (map fst (by_time index)) ->
  let ivs := Indexer._find_stuck_intervals index stuck_min in
  Forall (valid_interval stuck_min) ivs /\ gapped ivs.
Proof.
  intros Hnd ivs. subst ivs. unfold Indexer._find_stuck_intervals, Indexer.walk.
  pose proof (sort_by_strict _ fst (by_time index) Hnd) as Hsorted.
  set (records := Indexer.sort_by fst (by_time index)) in *.
  assert (Hbound : exists bound,
             Forall (fun item : Z * LogRecord => bound <= fst item) records).
  { clear. induction records as [|[tm r] records [b Hb]].
    - exists 0. constructor.
    - exists (Z.min tm b). constructor; [cbn; lia|].
      eapply Forall_impl; [|exact Hb]. cbn. intros; lia. }
  destruct Hbound as [bound Hbound].
  destruct (walk_loop_inv stuck_min records bound
              (Indexer.mkWalk [] None []) Hsorted Hbound) as [bound' Hinv].
  { unfold walk_inv. cbn. repeat split; constructor. }
  destruct (flush_valid _ _ _ Hinv) as [Hv Hs].
  unfold Indexer.merge_intervals.
  destruct (Indexer.flush stuck_min _) as [|first rest]; [now split|].
  rewrite merge_gaps_from. cbn [List.app].
  inversion Hv as [|? ? Hfirst Hrest]; subst.
  destruct (merge_from_spec stuck_min rest first Hfirst Hrest Hs)
    as (H1 & H2 & _).
  now split.
Qed.

(** C7.  For every list of fetched records, the stuck intervals of the
    index built from them are in ascending order of [start_t], pairwise
    non-overlapping (each ends before every later one starts), each has
    [duration_s = end_t - start_t] and [duration_s >= STUCK_MIN_S], and any
    two consecutive ones are separated by more than [STUCK_GAP_S]. *)
Theorem C7_stuck_intervals_ordered_disjoint_long_gapped :
  forall (client : string) (log_records : list LogRecord),
    let ivs :=
      stuck_intervals_of (hazards (Indexer.build_index client log_records)) in
    StronglySorted starts_before ivs /\
    StronglySorted before ivs /\
    Forall (fun iv => duration_s iv = end_t iv - start_t iv /\
                      STUCK_MIN_S <= duration_s iv) ivs /\
    gapped ivs.
Proof.
  intros client log_records ivs. subst ivs.
  unfold Indexer.build_index.
  cbn [hazards Indexer.set_hazards Indexer._compute_hazards
       stuck_intervals_of].
  set (index := fold_left Indexer.build_step log_records
                          (Indexer.empty_index client)).
  assert (Hnd : NoDup (map fst (by_time index))).
  { apply build_loop_keys_NoDup. constructor. }
  destruct (stuck_intervals_spec 120 index Hnd) as [Hv Hg].
  destruct (gapped_sorted 120 _ Hv Hg) as [Hb Hsb].
  repeat split; try assumption.
  eapply Forall_impl; [|exact Hv].
  unfold valid_interval, STUCK_MIN_S. intros iv H. lia.
Qed.

(** ** Stationary verdicts of the watchdog and of the indexer *)

Lemma scan_by_verdicts (reversed_window : list LogRecord) :
  forall depths0 start,
    Watchdog.scan reversed_window depths0 start
    = start_from (combine reversed_window
                          (watchdog_verdicts reversed_window depths0))
                 start.
Proof.
  unfold start_from.
  induction reversed_window as [|r rest IH]; intros depths0 start;
    cbn [Watchdog.scan watchdog_verdicts].
  - reflexivity.
  - destruct (Watchdog.observe depths0 r) as [depths1 stationary].
    destruct stationary; cbn [combine fold_left snd fst].
    + apply IH.
    + destruct rest; reflexivity.
Qed.

(** The verdict on a record that carries a stop or a directional event does
    not depend on the depth window. *)
Lemma verdict_by_events (depths0 : list Q) (r : LogRecord) :
  mem_str "stop" (events r) = true \/
  existsb is_directional_event (events r) = true ->
  snd (Indexer.observe depths0 r)
  = negb (existsb is_directional_event (events r)).
Proof.
  intros H. unfold Indexer.observe. cbn [snd].
  destruct (existsb is_directional_event (events r)).
  - now rewrite andb_false_r.
  - destruct H as [H|H]; [|discriminate]. now rewrite H.
Qed.

Lemma watchdog_verdicts_nth (reversed_window : list LogRecord) :
  forall depths0 k v,
    nth_error (watchdog_verdicts reversed_window depths0) k = Some v ->
    exists depths1 r,
      nth_error reversed_window k = Some r /\
      v = snd (Watchdog.observe depths1 r).
Proof.
  induction reversed_window as [|r rest IH]; intros depths0 k v Hk;
    cbn [watchdog_verdicts] in Hk.
  - destruct k; discriminate.
  - destruct (Watchdog.observe depths0 r) as [depths1 stationary] eqn:E.
    destruct k as [|k]; cbn [nth_error] in Hk |- *.
    + injection Hk as <-. exists depths0, r. split; [reflexivity|].
      now rewrite E.
    + destruct stationary; [|destruct k; discriminate].
      destruct (IH _ _ _ Hk) as (d & r' & Hr & Hv).
      exists d, r'. now split.
Qed.

Lemma indexer_verdicts_nth (stuck_min : Z) (records : list (Z * LogRecord)) :
  forall st i item,
    nth_error records i = Some item ->
    exists depths0,
      nth_error (indexer_verdicts stuck_min records st) i
      = Some (snd (Indexer.observe depths0 (snd item))).
Proof.
  induction records as [|x rest IH]; intros st i item Hi.
  - destruct i; discriminate.
  - destruct i as [|i]; cbn [nth_error indexer_verdicts] in *.
    + injection Hi as ->. now exists (Indexer.depths st).
    + now apply IH.
Qed.

(** C3, as the code has it.  The watchdog and the indexer apply the same
    rule to a record and a depth window (same events tests, same push into a
    window of at most 10 depths, same test on three values or more), and
    the watchdog's [stationary_start] is the [t] of the last record its
    verdicts accept; but each scan fills its own depth window, the watchdog
    from the newest record backwards and the indexer from the oldest one
    forwards.  Over a window in ascending order of [t], on a record that
    carries a stop or a directional event, where the depth window cannot
    change the verdict, a verdict of the watchdog is the verdict of the
    indexer. *)
Theorem C3_same_rule_verdicts_agree_on_stop_or_move :
  (forall depths0 record,
      Watchdog.observe depths0 record = Indexer.observe depths0 record) /\
  (forall window,
      Watchdog.scan (rev window) [] None
      = start_from (combine (rev window) (watchdog_verdicts (rev window) []))
                   None) /\
  (forall window i r v,
      ascending window ->
      nth_error window i = Some r ->
      mem_str "stop" (events r) = true \/
      existsb is_directional_event (events r) = true ->
      watchdog_judges window i = Some v ->
      indexer_judges window i = Some v).
Proof.
  split; [reflexivity|]. split; [intros; apply scan_by_verdicts|].
  intros window i r v Hasc Hr Hev Hw.
  assert (Hsorted : Indexer.sort_by fst (map (fun r => (t r, r)) window)
                    = map (fun r => (t r, r)) window).
  { apply sort_by_sorted_id. clear - Hasc.
    induction Hasc as [|a l Hl IH Ha]; cbn; constructor; [exact IH|].
    rewrite Forall_map. exact Ha. }
  unfold watchdog_judges in Hw.
  destruct (i <? List.length window)%nat eqn:Hlt; [|discriminate].
  apply Nat.ltb_lt in Hlt.
  destruct (watchdog_verdicts_nth _ _ _ _ Hw) as (d & r' & Hr' & Hv).
  rewrite nth_error_rev in Hr'.
  replace (List.length window - S i <? List.length window)%nat with true in Hr'
    by (symmetry; apply Nat.ltb_lt; lia).
  replace (List.length window - S (List.length window - S i))%nat with i in Hr'
    by lia.
  rewrite Hr in Hr'. injection Hr' as <-.
  unfold indexer_judges. rewrite Hsorted.
  destruct (indexer_verdicts_nth 120 (map (fun r => (t r, r)) window)
              (Indexer.mkWalk [] None []) i (t r, r)) as (d' & Hd').
  { rewrite nth_error_map, Hr. reflexivity. }
  rewrite Hd'. cbn [snd]. f_equal. subst v.
  change (Watchdog.observe d r) with (Indexer.observe d r).
  now rewrite !verdict_by_events.
Qed.

Lemma C3_witness :
  nth_error sample_logs 2 = Some (stop_at 35) /\
  watchdog_judges sample_logs 2 = Some true /\
  indexer_judges sample_logs 2 = Some true.
Proof.
  split; [reflexivity|]. split; [reflexivity|].
  apply (proj2 (proj2 C3_same_rule_verdicts_agree_on_stop_or_move)
           sample_logs 2%nat (stop_at 35) true).
  - unfold ascending, sample_logs. repeat constructor; cbn; lia.
  - reflexivity.
  - left. reflexivity.
  - reflexivity.
Defined.

(** C3 as stated fails: on three records at a steady depth, the newest one
    is the third value of the indexer's depth window, which makes it
    stationary, and the first value of the watchdog's, which does not. *)
Lemma C3_counterexample :
  ascending steady_window /\
  map t steady_window = [0; 1; 2] /\
  watchdog_judges steady_window 2 = Some false /\
  indexer_judges steady_window 2 = Some true.
Proof.
  split; [unfold ascending, steady_window; repeat constructor; cbn; lia|].
  repeat split.
Qed.

(** ** Debounce of the watchdog's alerts *)

Lemma debounced_suffix (kind : Watchdog.AlertType) (gap : Z) (client : string)
      (l1 l2 : list Watchdog.Event) :
  debounced_steps kind gap client (l1 ++ l2) ->
  debounced_steps kind gap client l2.
Proof.
  induction l1 as [|x l1 IH]; cbn; intros H; [exact H|]. apply IH, H.
Qed.

(** With no clearing in between, the pending time only grows. *)
Lemma pending_after (kind : Watchdog.AlertType) (gap : Z) (client : string)
      (mid : list Watchdog.Event) :
  forall e1 older n1,
    0 <= gap ->
    debounced_steps kind gap client (mid ++ e1 :: older) ->
    (forall ev, In ev mid -> clears client ev = false) ->
    alert_time kind client e1 = Some n1 ->
    exists prev,
      pending kind client (mid ++ e1 :: older) = Some prev /\ n1 <= prev.
Proof.
  induction mid as [|ev mid IH]; intros e1 older n1 Hgap Hd Hnc H1.
  - cbn. rewrite H1. exists n1. split; [reflexivity|lia].
  - cbn [List.app pending debounced_steps] in *. destruct Hd as [Hstep Hd].
    destruct (IH e1 older n1 Hgap Hd) as (prev & Hp & Hle); try assumption.
    { intros ev' Hin. apply Hnc. now right. }
    rewrite Hp in Hstep.
    destruct (alert_time kind client ev) as [now|].
    + exists now. split; [reflexivity|lia].
    + rewrite (Hnc ev (or_introl eq_refl)). exists prev. now split.
Qed.

Lemma debounced_pairwise (kind : Watchdog.AlertType) (gap : Z)
      (client : string) (newer mid older : list Watchdog.Event)
      (e1 e2 : Watchdog.Event) (n1 n2 : Z) :
  0 <= gap ->
  debounced_steps kind gap client (newer ++ e2 :: mid ++ e1 :: older) ->
  (forall ev, In ev mid -> clears client ev = false) ->
  alert_time kind client e1 = Some n1 ->
  alert_time kind client e2 = Some n2 ->
  gap <= n2 - n1.
Proof.
  intros Hgap Hd Hnc H1 H2.
  apply debounced_suffix in Hd. cbn [debounced_steps] in Hd.
  destruct Hd as [Hstep Hd].
  destruct (pending_after kind gap client mid e1 older n1 Hgap Hd Hnc H1)
    as (prev & Hp & Hle).
  rewrite H2, Hp in Hstep. lia.
Qed.

Section Debounce.
Variable get_emergency_contacts : string -> list string.

Lemma inv_emit_stuck (w : Watchdog.Agent) (rt : list Watchdog.Event)
      (now sent since_t : Z) (client : string) (cs : list string) :
  watchdog_inv w rt ->
  Watchdog.stuck_debounce
    <= now - match PyDict.get String.eqb (Watchdog.stuck_alerts w) client with
             | Some v => v
             | None => 0
             end ->
  watchdog_inv
    (Watchdog.set_stuck_alerts w
       (PyDict.setitem String.eqb (Watchdog.stuck_alerts w) client now))
    (Watchdog.Emitted
       (Watchdog.mkAlert Watchdog.stuck_alert client sent None (Some since_t))
       now cs :: rt).
Proof.
  intros (H1 & H2 & H3 & H4 & H5) Hgap.
  unfold watchdog_inv.
  cbn [Watchdog.stuck_alerts Watchdog.accident_alerts
       Watchdog.set_stuck_alerts].
  split; [apply setitem_keys_NoDup; [exact String.eqb_eq|exact H1]|].
  split; [exact H2|].
  split.
  { intros c. rewrite (get_setitem _ _ String.eqb String.eqb_eq).
    cbn. rewrite (String.eqb_sym client c).
    destruct (String.eqb c client); [reflexivity|apply H3]. }
  split; [intros c; cbn; apply H4|].
  intros kind c. cbn [debounced_steps]. split; [|apply H5].
  destruct (alert_time kind c _) as [n|] eqn:Ea; [|exact I].
  destruct (pending kind c rt) as [prev|] eqn:Ep; [|exact I].
  cbn in Ea. destruct kind; cbn in Ea; [|discriminate].
  destruct (String.eqb client c) eqn:Ec; [|discriminate].
  apply String.eqb_eq in Ec. subst c. injection Ea as <-.
  rewrite H3, Ep in Hgap. exact Hgap.
Qed.

Lemma inv_emit_accident (w : Watchdog.Agent) (rt : list Watchdog.Event)
      (now tm : Z) (why : Rationale) (client : string) (cs : list string) :
  watchdog_inv w rt ->
  Watchdog.accident_debounce
    <= now - match PyDict.get String.eqb (Watchdog.accident_alerts w) client
             with
             | Some v => v
             | None => 0
             end ->
  watchdog_inv
    (Watchdog.set_accident_alerts w
       (PyDict.setitem String.eqb (Watchdog.accident_alerts w) client now))
    (Watchdog.Emitted
       (Watchdog.mkAlert Watchdog.accident_alert client tm (Some why) None)
       now cs :: rt).
Proof.
  intros (H1 & H2 & H3 & H4 & H5) Hgap.
  unfold watchdog_inv.
  cbn [Watchdog.stuck_alerts Watchdog.accident_alerts
       Watchdog.set_accident_alerts].
  split; [exact H1|].
  split; [apply setitem_keys_NoDup; [exact String.eqb_eq|exact H2]|].
  split; [intros c; cbn; apply H3|].
  split.
  { intros c. rewrite (get_setitem _ _ String.eqb String.eqb_eq).
    cbn. rewrite (String.eqb_sym client c).
    destruct (String.eqb c client); [reflexivity|apply H4]. }
  intros kind c. cbn [debounced_steps]. split; [|apply H5].
  destruct (alert_time kind c _) as [n|] eqn:Ea; [|exact I].
  destruct (pending kind c rt) as [prev|] eqn:Ep; [|exact I].
  cbn in Ea. destruct kind; cbn in Ea; [discriminate|].
  destruct (String.eqb client c) eqn:Ec; [|discriminate].
  apply String.eqb_eq in Ec. subst c. injection Ea as <-.
  rewrite H4, Ep in Hgap. exact Hgap.
Qed.

Lemma inv_clear (w : Watchdog.Agent) (rt : list Watchdog.Event)
      (client : string) :
  watchdog_inv w rt ->
  watchdog_inv (fst (Watchdog.clear_client_state w client))
               (Watchdog.Cleared client :: rt).
Proof.
  intros (H1 & H2 & H3 & H4 & H5).
  unfold watchdog_inv, Watchdog.clear_client_state.
  cbn [fst Watchdog.stuck_alerts Watchdog.accident_alerts].
  split; [now apply pop_keys_NoDup|].
  split; [now apply pop_keys_NoDup|].
  split.
  { intros c. rewrite (get_pop _ _ String.eqb String.eqb_eq) by exact H1.
    cbn. rewrite (String.eqb_sym client c).
    destruct (String.eqb c client); [reflexivity|apply H3]. }
  split.
  { intros c. rewrite (get_pop _ _ String.eqb String.eqb_eq) by exact H2.
    cbn. rewrite (String.eqb_sym client c).
    destruct (String.eqb c client); [reflexivity|apply H4]. }
  intros kind c. cbn. split; [exact I|apply H5].
Qed.

Lemma check_stuck_inv (w : Watchdog.Agent) (rt : list Watchdog.Event)
      (now sent : Z) (client : string) :
  watchdog_inv w rt ->
  watchdog_inv
    (fst (Watchdog._check_stuck get_emergency_contacts w client now sent))
    (rev (snd (Watchdog._check_stuck get_emergency_contacts w client now sent))
       ++ rt).
Proof.
  intros Hinv. unfold Watchdog._check_stuck.
  destruct (len (Watchdog.window_of w client) <? 2); [exact Hinv|].
  destruct (Watchdog.scan _ _ _) as [stationary_start|]; [|exact Hinv].
  destruct (STUCK_ALERT_S <=? now - stationary_start); [|exact Hinv].
  destruct (Watchdog.stuck_debounce <=? _) eqn:E; [|exact Hinv].
  apply Z.leb_le in E. cbn [fst snd rev List.app].
  unfold Watchdog._send_stuck_alert. now apply inv_emit_stuck.
Qed.

Lemma send_accident_inv (w : Watchdog.Agent) (rt : list Watchdog.Event)
      (now tm : Z) (why : Rationale) (client : string) :
  watchdog_inv w rt ->
  watchdog_inv
    (fst (Watchdog._send_accident_alert get_emergency_contacts w client tm
            why now))
    (rev (snd (Watchdog._send_accident_alert get_emergency_contacts w client
                 tm why now)) ++ rt).
Proof.
  intros Hinv. unfold Watchdog._send_accident_alert.
  destruct (_ <? Watchdog.accident_debounce) eqn:E; [exact Hinv|].
  apply Z.ltb_ge in E. cbn [fst snd rev List.app].
  now apply inv_emit_accident.
Qed.

Lemma check_accident_inv (w : Watchdog.Agent) (rt : list Watchdog.Event)
      (now : Z) (client : string) (record : LogRecord) :
  watchdog_inv w rt ->
  watchdog_inv
    (fst (Watchdog._check_accident get_emergency_contacts w client record now))
    (rev (snd (Watchdog._check_accident get_emergency_contacts w client
                 record now)) ++ rt).
Proof.
  intros Hinv. unfold Watchdog._check_accident.
  destruct (intersects _ _); [now apply send_accident_inv|].
  destruct (len _ <? 3); [exact Hinv|].
  destruct (Watchdog.find_anchor _ _) as [[[obstacle_time depth] duration]|];
    [now apply send_accident_inv|].
  destruct (_ && _); [|exact Hinv].
  destruct (120 <=? _); [|exact Hinv].
  now apply send_accident_inv.
Qed.

Lemma process_record_inv (w : Watchdog.Agent) (rt : list Watchdog.Event)
      (record : LogRecord) (clock : Watchdog.Clock) :
  watchdog_inv w rt ->
  watchdog_inv
    (fst (Watchdog.process_record get_emergency_contacts w record clock))
    (rev (snd (Watchdog.process_record get_emergency_contacts w record clock))
       ++ rt).
Proof.
  intros Hinv. unfold Watchdog.process_record.
  set (w1 := Watchdog.set_client_windows w _).
  assert (Hinv1 : watchdog_inv w1 rt) by exact Hinv.
  pose proof (check_stuck_inv w1 rt (Watchdog.now_stuck clock)
                (Watchdog.now_sent clock) (client_id record) Hinv1) as Hs.
  destruct (Watchdog._check_stuck _ w1 _ _ _) as [w2 out_stuck].
  cbn [fst snd] in Hs.
  pose proof (check_accident_inv w2 (rev out_stuck ++ rt)
                (Watchdog.now_accident clock) (client_id record) record Hs)
    as Ha.
  destruct (Watchdog._check_accident _ w2 _ _ _) as [w3 out_accident].
  cbn [fst snd] in *. now rewrite rev_app_distr, <- app_assoc.
Qed.

Lemma run_inv (ops : list Watchdog.Op) :
  forall w rt,
    watchdog_inv w rt ->
    watchdog_inv (fst (Watchdog.run get_emergency_contacts w ops))
                 (rev (snd (Watchdog.run get_emergency_contacts w ops)) ++ rt).
Proof.
  induction ops as [|op ops IH]; intros w rt Hinv.
  - exact Hinv.
  - cbn [Watchdog.run].
    assert (Hstep : watchdog_inv
                      (fst (Watchdog.step get_emergency_contacts w op))
                      (rev (snd (Watchdog.step get_emergency_contacts w op))
                         ++ rt)).
    { destruct op as [record clock|client]; cbn [Watchdog.step].
      - now apply process_record_inv.
      - now apply inv_clear. }
    destruct (Watchdog.step get_emergency_contacts w op) as [w1 out1].
    cbn [fst snd] in Hstep.
    specialize (IH w1 (rev out1 ++ rt) Hstep).
    destruct (Watchdog.run get_emergency_contacts w1 ops) as [w2 out2].
    cbn [fst snd] in *. now rewrite rev_app_distr, <- app_assoc.
Qed.

Lemma init_inv : watchdog_inv Watchdog.init [].
Proof.
  unfold watchdog_inv. cbn.
  split; [constructor|]. split; [constructor|].
  split; [reflexivity|]. split; [reflexivity|]. intros; exact I.
Qed.

(** C9, as the code has it.  In every execution of the watchdog from its
    initial state, any two [stuck] alerts emitted for a client with no
    [clear_client_state] of that client between them are at least
    [STUCK_DEBOUNCE] (900 s) apart in wall-clock time, and any two such
    [accident] alerts at least [ACCIDENT_DEBOUNCE] (7200 s) apart. *)
Theorem C9_debounce_between_clears :
  forall (ops : list Watchdog.Op) (kind : Watchdog.AlertType)
         (client : string) (earlier mid later : list Watchdog.Event)
         (e1 e2 : Watchdog.Event) (n1 n2 : Z),
    snd (Watchdog.run get_emergency_contacts Watchdog.init ops)
      = earlier ++ e1 :: mid ++ e2 :: later ->
    (forall ev, In ev mid -> clears client ev = false) ->
    alert_time kind client e1 = Some n1 ->
    alert_time kind client e2 = Some n2 ->
    debounce_of kind <= n2 - n1.
Proof.
  intros ops kind client earlier mid later e1 e2 n1 n2 Htrace Hnc H1 H2.
  pose proof (run_inv ops Watchdog.init [] init_inv) as Hinv.
  rewrite app_nil_r, Htrace in Hinv.
  destruct Hinv as (_ & _ & _ & _ & Hd).
  assert (Hrev : rev (earlier ++ e1 :: mid ++ e2 :: later)
                 = rev later ++ e2 :: rev mid ++ e1 :: rev earlier).
  { rewrite rev_app_distr. cbn [rev]. rewrite rev_app_distr. cbn [rev].
    now rewrite <- !app_assoc. }
  specialize (Hd kind client). rewrite Hrev in Hd.
  apply (debounced_pairwise kind (debounce_of kind) client (rev later)
           (rev mid) (rev earlier) e1 e2 n1 n2); try assumption.
  - destruct kind; cbn; unfold Watchdog.stuck_debounce,
      Watchdog.accident_debounce; lia.
  - intros ev Hin. apply Hnc. now apply in_rev.
Qed.
End Debounce.

Lemma C9_witness :
  snd (Watchdog.run no_db_contacts Watchdog.init steady_ops)
    = [] ++ stuck_since 0 10000 :: [] ++ stuck_since 0 11200 :: [] /\
  debounce_of Watchdog.stuck_alert <= 11200 - 10000.
Proof.
  split; [reflexivity|].
  apply (C9_debounce_between_clears no_db_contacts steady_ops
           Watchdog.stuck_alert "alice" [] [] []
           (stuck_since 0 10000) (stuck_since 0 11200) 10000 11200).
  - reflexivity.
  - intros ev [].
  - reflexivity.
  - reflexivity.
Defined.

(** C9 as stated fails: after [clear_client_state] the next stuck alert for
    the same client comes two seconds of wall clock after the previous one. *)
Lemma C9_counterexample :
  snd (Watchdog.run no_db_contacts Watchdog.init restart_ops)
    = [stuck_since 0 10000; Watchdog.Cleared "alice"; stuck_since 2 10002] /\
  alert_time Watchdog.stuck_alert "alice" (stuck_since 0 10000) = Some 10000 /\
  alert_time Watchdog.stuck_alert "alice" (stuck_since 2 10002) = Some 10002 /\
  10002 - 10000 < Watchdog.stuck_debounce.
Proof. repeat split. Qed.

(* ------------------------------------------------------------------ *)
(** * Further properties of the code *)

(** ** The index table *)

Lemma split_colon_nonempty (s : string) :
  forall cur, split_colon cur s <> [].
Proof.
  induction s as [|c s IH]; intros cur; cbn; [discriminate|].
  destruct (Ascii.eqb c ":"%char); [discriminate|apply IH].
Qed.

Lemma index_key_parts (client : string) (session : option string) :
  exists c rest, split (index_key client session) = "index"%string :: c :: rest.
Proof.
  assert (H : forall x, exists c rest,
               split ("index:" ++ x) = "index"%string :: c :: rest).
  { intros x. unfold split. cbn.
    destruct (split_colon "" x) as [|c rest] eqn:E.
    - now apply split_colon_nonempty in E.
    - now exists c, rest. }
  unfold index_key. destruct session as [s|]; [|apply H].
  destruct (truthy (Some s)); apply H.
Qed.

Lemma matches_updated (client : string) (session : option string)
      (row : IndexRow) (ts te : option Z) (data : JsonIndex) :
  index_row_matches client session
    (mkIndexRow (row_client_id row) (row_session_id row) ts te data)
  = index_row_matches client session row.
Proof. reflexivity. Qed.

Lemma matches_new (client : string) (session : option string)
      (ts te : option Z) (data : JsonIndex) :
  index_row_matches client session (mkIndexRow client session ts te data)
  = true.
Proof.
  unfold index_row_matches. cbn. rewrite String.eqb_refl. cbn.
  destruct session as [s|]; [|reflexivity].
  destruct (truthy (Some s)); [|reflexivity]. cbn. apply String.eqb_refl.
Qed.

Lemma update_first_spec (client : string) (session : option string)
      (data : JsonIndex) (ts te : option Z) (rows : list IndexRow) :
  match update_first client session data ts te rows with
  | Some rows' =>
      List.length rows' = List.length rows /\
      (exists old, find (index_row_matches client session) rows = Some old) /\
      exists row, find (index_row_matches client session) rows' = Some row /\
                  index_data row = data
  | None => find (index_row_matches client session) rows = None
  end.
Proof.
  induction rows as [|row rows IH]; cbn; [reflexivity|].
  destruct (index_row_matches client session row) eqn:E.
  - split; [reflexivity|]. split; [now exists row|].
    cbn. rewrite matches_updated, E. eexists. split; reflexivity.
  - destruct (update_first client session data ts te rows) as [rows'|].
    + destruct IH as (Hlen & Hold & r & Hr & Hd).
      split; [cbn; now rewrite Hlen|]. split; [exact Hold|].
      cbn. rewrite E. now exists r.
    + exact IH.
Qed.

Lemma find_snoc (A : Type) (f : A -> bool) (l : list A) (x : A) :
  find f (l ++ [x])
  = match find f l with
    | Some y => Some y
    | None => if f x then Some x else None
    end.
Proof.
  induction l as [|y l IH]; cbn; [reflexivity|].
  destruct (f y); [reflexivity|exact IH].
Qed.

Lemma get_index_after_save (client : string) (session : option string)
      (data : UserIndex) (ts te : option Z) (db : Db) :
  result_of (get_index client session)
            (database_after (save_index client data session ts te) db)
  = Return (Some (to_json data)).
Proof.
  unfold result_of, database_after, get_index, save_index.
  unfold bind, call, read, write, ret. cbn.
  pose proof (update_first_spec client session (to_json data) ts te
                (user_indices db)) as H.
  destruct (update_first client session (to_json data) ts te
                         (user_indices db)).
  - destruct H as (_ & _ & row & Hr & Hd). now rewrite Hr, Hd.
  - rewrite find_snoc, H, matches_new. reflexivity.
Qed.

Lemma persist_then_read (key : string) (value : UserIndex) (db : Db) :
  result_of (persist_index key value) db = Return true ->
  result_of (read_index key) (database_after (persist_index key value) db)
  = Return (Some (to_json value)).
Proof.
  unfold persist_index, read_index.
  destruct (split key) as [|p0 [|client rest]]; try discriminate.
  intros _.
  set (session := match rest with s :: _ => Some s | [] => None end).
  rewrite <- (get_index_after_save client session value
                (min_key (PyDict.keys (by_time value)))
                (max_key (PyDict.keys (by_time value))) db).
  reflexivity.
Qed.

Lemma persist_index_key_true (client : string) (session : option string)
      (value : UserIndex) (db : Db) :
  result_of (persist_index (index_key client session) value) db = Return true.
Proof.
  unfold persist_index.
  destruct (index_key_parts client session) as (c & rest & ->).
  reflexivity.
Qed.

Lemma json_key_inj (a b : Z) : json_key a = json_key b -> a = b.
Proof.
  assert (Hnorm : forall z, Z.to_int z <> Decimal.Pos Decimal.Nil /\
                            Z.to_int z <> Decimal.Neg Decimal.Nil).
  { intros [|q|q]; cbn; split; try discriminate;
      intros [= H]; now apply (Unsigned.to_uint_nonnil q). }
  unfold json_key. intros H.
  apply DecimalZ.to_int_inj.
  destruct (Hnorm a) as [Ha1 Ha2]. destruct (Hnorm b) as [Hb1 Hb2].
  pose proof (NilZero.isi (Z.to_int a) Ha1 Ha2) as Ea.
  pose proof (NilZero.isi (Z.to_int b) Hb1 Hb2) as Eb.
  rewrite H in Ea. congruence.
Qed.

Lemma json_get (V : Type) (d : PyDict.dict Z V) (k : Z) :
  PyDict.get String.eqb (map (fun item => (json_key (fst item), snd item)) d)
             (json_key k)
  = PyDict.get Z.eqb d k.
Proof.
  induction d as [|[k' v] d IH]; cbn; [reflexivity|].
  destruct (Z.eqb k k') eqn:E.
  - apply Z.eqb_eq in E. subst k'. now rewrite String.eqb_refl.
  - destruct (String.eqb (json_key k) (json_key k')) eqn:Es; [|exact IH].
    apply String.eqb_eq, json_key_inj in Es. subst k'.
    now rewrite Z.eqb_refl in E.
Qed.

(** X1.  An index persisted under the key of a client and session comes
    back from [read_index], whatever the table held before, as its passage
    through the JSON column leaves it: every field as persisted except
    [by_time], which holds the same records in the same order under the
    decimal strings of their timestamps, so that the record persisted under
    a timestamp is found under its decimal string. *)
Theorem X1_persist_read_round_trip :
  forall (client : string) (session : option string) (value : UserIndex)
         (db : Db),
    let key := index_key client session in
    result_of (persist_index key value) db = Return true /\
    exists stored,
      result_of (read_index key) (database_after (persist_index key value) db)
      = Return (Some stored) /\
      j_client_id stored = ix_client_id value /\
      j_by_event stored = by_event value /\
      j_counters stored = counters value /\
      j_by_class stored = by_class value /\
      j_hazards stored = hazards value /\
      j_dropped_records stored = dropped_records value /\
      PyDict.keys (j_by_time stored)
      = map json_key (PyDict.keys (by_time value)) /\
      map snd (j_by_time stored) = map snd (by_time value) /\
      forall k, PyDict.get String.eqb (j_by_time stored) (json_key k)
                = PyDict.get Z.eqb (by_time value) k.
Proof.
  intros client session value db key. split.
  - apply persist_index_key_true.
  - exists (to_json value). split.
    + apply persist_then_read, persist_index_key_true.
    + cbn. unfold PyDict.keys. rewrite !map_map. cbn.
      repeat (split; [reflexivity|]). apply json_get.
Qed.

Lemma persist_keeps_other_tables (key : string) (value : UserIndex)
      (db : Db) :
  log_records (database_after (persist_index key value) db) = log_records db /\
  emergency_contacts (database_after (persist_index key value) db)
  = emergency_contacts db.
Proof.
  unfold persist_index.
  destruct (split key) as [|p0 [|client rest]]; split; reflexivity.
Qed.

Lemma update_first_split (client : string) (session : option string)
      (data : JsonIndex) (ts te : option Z) (rows : list IndexRow) :
  match find (index_row_matches client session) rows with
  | Some old =>
      exists before after,
        rows = before ++ old :: after /\
        Forall (fun row => index_row_matches client session row = false)
               before /\
        update_first client session data ts te rows
        = Some (before
                  ++ mkIndexRow (row_client_id old) (row_session_id old)
                                ts te data :: after)
  | None => update_first client session data ts te rows = None
  end.
Proof.
  induction rows as [|row rows IH]; cbn; [reflexivity|].
  destruct (index_row_matches client session row) eqn:E.
  - exists [], rows. split; [reflexivity|]. split; [constructor|reflexivity].
  - destruct (find (index_row_matches client session) rows) as [old|].
    + destruct IH as (before & after & -> & Hbefore & ->).
      exists (row :: before), after.
      split; [reflexivity|]. split; [now constructor|reflexivity].
    + now rewrite IH.
Qed.

(** X2.  Persisting an index touches neither the records nor the contacts.
    The key is parsed to a client and a session, the ones [read_index]
    looks up.  When the table has a row they match, the first such row
    keeps its place, its client and its session and takes the index, as
    the JSON column holds it, and the time bounds of its [by_time]; every
    other row is left as it was.  Only when no row matches is a row added,
    at the end. *)
Theorem X2_persist_replaces_in_place :
  forall (client : string) (session : option string) (value : UserIndex)
         (db : Db),
    let key := index_key client session in
    let db' := database_after (persist_index key value) db in
    let ts := min_key (PyDict.keys (by_time value)) in
    let te := max_key (PyDict.keys (by_time value)) in
    log_records db' = log_records db /\
    emergency_contacts db' = emergency_contacts db /\
    exists c s,
      (forall db0,
          result_of (read_index key) db0
          = Return (option_map index_data
                      (find (index_row_matches c s) (user_indices db0)))) /\
      match find (index_row_matches c s) (user_indices db) with
      | Some old =>
          exists before after,
            user_indices db = before ++ old :: after /\
            Forall (fun row => index_row_matches c s row = false) before /\
            user_indices db'
            = before
                ++ mkIndexRow (row_client_id old) (row_session_id old) ts te
                              (to_json value) :: after
      | None =>
          user_indices db'
          = user_indices db ++ [mkIndexRow c s ts te (to_json value)]
      end.
Proof.
  intros client session value db key db' ts te.
  destruct (persist_keeps_other_tables key value db) as [Hlogs Hcontacts].
  split; [exact Hlogs|]. split; [exact Hcontacts|].
  subst key db'. unfold persist_index, read_index.
  destruct (index_key_parts client session) as (c & rest & ->).
  set (s := match rest with s :: _ => Some s | [] => None end).
  exists c, s. split.
  { intros db0. unfold result_of, get_index, bind, call, read, ret. cbn.
    now destruct (find _ _). }
  unfold database_after, save_index, bind, call, write, ret. cbn.
  fold ts te.
  pose proof (update_first_split c s (to_json value) ts te (user_indices db))
    as H.
  destruct (find (index_row_matches c s) (user_indices db)) as [old|].
  - destruct H as (before & after & Hrows & Hbefore & ->).
    exists before, after. split; [exact Hrows|]. split; [exact Hbefore|].
    reflexivity.
  - now rewrite H.
Qed.

Lemma find_no_client (client : string) (session : option string)
      (rows : list IndexRow) :
  (forall row, In row rows -> row_client_id row <> client) ->
  find (index_row_matches client session) rows = None.
Proof.
  induction rows as [|row rows IH]; intros H; cbn; [reflexivity|].
  unfold index_row_matches at 1.
  replace (String.eqb (row_client_id row) client) with false.
  - cbn. apply IH. intros r Hr. apply H. now right.
  - symmetry. apply String.eqb_neq. apply H. now left.
Qed.

Lemma update_first_snoc (client : string) (session : option string)
      (data : JsonIndex) (ts te : option Z) (rows : list IndexRow)
      (x : IndexRow) :
  find (index_row_matches client session) rows = None ->
  index_row_matches client session x = true ->
  update_first client session data ts te (rows ++ [x])
  = Some (rows ++ [mkIndexRow (row_client_id x) (row_session_id x) ts te data]).
Proof.
  induction rows as [|row rows IH]; cbn; intros Hnone Hx.
  - now rewrite Hx.
  - destruct (index_row_matches client session row); [discriminate|].
    now rewrite (IH Hnone Hx).
Qed.

Lemma save_index_rows (client : string) (session : option string)
      (data : UserIndex) (ts te : option Z) (db : Db) :
  user_indices (database_after (save_index client data session ts te) db)
  = match update_first client session (to_json data) ts te
                       (user_indices db) with
    | Some rows => rows
    | None =>
        user_indices db ++ [mkIndexRow client session ts te (to_json data)]
    end.
Proof. reflexivity. Qed.

Lemma get_index_result (client : string) (session : option string)
      (db : Db) :
  result_of (get_index client session) db
  = Return (option_map index_data
              (find (index_row_matches client session) (user_indices db))).
Proof.
  unfold result_of, get_index, bind, call, read, ret. cbn.
  now destruct (find _ _).
Qed.

(** X3.  The index table is matched on the client alone when no session is
    given.  In a table with no row for the client, an index saved for one of
    its sessions is what a lookup without a session returns (as the JSON
    column holds it); and an index then saved without a session replaces
    that session's row, so the lookup for the session returns it and the
    table has the one row for the client, still marked with the session. *)
Theorem X3_session_row_shared_with_sessionless_key :
  forall (client s : string) (v1 v2 : UserIndex) (ts te ts' te' : option Z)
         (db : Db),
    truthy (Some s) = true ->
    (forall row, In row (user_indices db) -> row_client_id row <> client) ->
    let db1 := database_after (save_index client v1 (Some s) ts te) db in
    let db2 := database_after (save_index client v2 None ts' te') db1 in
    result_of (get_index client None) db1 = Return (Some (to_json v1)) /\
    result_of (get_index client (Some s)) db2 = Return (Some (to_json v2)) /\
    user_indices db2
    = user_indices db ++ [mkIndexRow client (Some s) ts' te' (to_json v2)].
Proof.
  intros client s v1 v2 ts te ts' te' db Hs Hnone db1 db2.
  pose proof (find_no_client client (Some s) _ Hnone) as Hfs.
  pose proof (find_no_client client None _ Hnone) as Hfn.
  pose proof (update_first_spec client (Some s) (to_json v1) ts te
                (user_indices db)) as Hu.
  assert (Hrows1 : user_indices db1
                   = user_indices db
                       ++ [mkIndexRow client (Some s) ts te (to_json v1)]).
  { subst db1. rewrite save_index_rows.
    destruct (update_first client (Some s) (to_json v1) ts te
                           (user_indices db));
      [|reflexivity].
    destruct Hu as (_ & (old & Hold) & _). congruence. }
  assert (Hrows2 : user_indices db2
                   = user_indices db
                       ++ [mkIndexRow client (Some s) ts' te' (to_json v2)]).
  { subst db2. rewrite save_index_rows, Hrows1.
    rewrite (update_first_snoc client None (to_json v2) ts' te'
               (user_indices db)
               (mkIndexRow client (Some s) ts te (to_json v1)) Hfn);
      [reflexivity|].
    unfold index_row_matches. cbn. now rewrite String.eqb_refl. }
  rewrite !get_index_result, Hrows1, Hrows2, !find_snoc, Hfn, Hfs.
  unfold index_row_matches. cbn [row_client_id row_session_id].
  rewrite String.eqb_refl, Hs. cbn. rewrite String.eqb_refl. cbn.
  split; [reflexivity|]. split; reflexivity.
Qed.

Lemma X3_witness :
  let db1 := database_after
               (save_index "alice" sample_index (Some "s1"%string) None None)
               other_db in
  let db2 := database_after (save_index "alice" blank_index None None None)
                            db1 in
  result_of (get_index "alice" None) db1
    = Return (Some (to_json sample_index)) /\
  result_of (get_index "alice" (Some "s1"%string)) db2
    = Return (Some (to_json blank_index)) /\
  user_indices db2
  = user_indices other_db
      ++ [mkIndexRow "alice" (Some "s1"%string) None None
                     (to_json blank_index)].
Proof.
  apply (X3_session_row_shared_with_sessionless_key "alice" "s1" sample_index
           blank_index None None None None other_db).
  - reflexivity.
  - intros row [].
Defined.

(** ** The record table *)

Lemma insert_log_sorted_insert (x : LogRecord) (l : list LogRecord) :
  Store.insert_log x l = Indexer.insert_sorted t x l.
Proof.
  induction l as [|y l IH]; cbn; [reflexivity|]. now rewrite IH.
Qed.

Lemma order_by_t_sort (l : list LogRecord) :
  order_by_t l = Indexer.sort_by t l.
Proof.
  unfold order_by_t. induction l as [|x l IH]; cbn; [reflexivity|].
  now rewrite IH, insert_log_sorted_insert.
Qed.

Lemma log_matches_spec (client : string) (session : option string)
      (ts te : option Z) (r : LogRecord) :
  log_matches client session ts te r = true <->
  client_id r = client /\ of_session session r /\ in_window ts te (t r).
Proof.
  unfold log_matches, of_session, in_window.
  rewrite !andb_true_iff, String.eqb_eq.
  assert (Hs : (if truthy session
                then opt_str_eqb session (session_id r) else true) = true
               <-> (truthy session = true -> session = Some (session_id r))).
  { destruct (truthy session).
    - destruct session as [s|]; cbn; [|split; [discriminate|]].
      + rewrite String.eqb_eq. split; [now intros ->|].
        intros H. specialize (H eq_refl). congruence.
      + intros H. specialize (H eq_refl). discriminate.
    - split; [discriminate|reflexivity]. }
  assert (Ha : match ts with Some a => a <=? t r | None => true end = true
               <-> (forall a, ts = Some a -> a <= t r)).
  { destruct ts as [a|].
    - rewrite Z.leb_le. split; [now intros H ? [= <-]|now intros H; apply H].
    - split; [discriminate|reflexivity]. }
  assert (Hb : match te with Some b => t r <? b | None => true end = true
               <-> (forall b, te = Some b -> t r < b)).
  { destruct te as [b|].
    - rewrite Z.ltb_lt. split; [now intros H ? [= <-]|now intros H; apply H].
    - split; [discriminate|reflexivity]. }
  rewrite Hs, Ha, Hb. tauto.
Qed.

Lemma get_logs_spec (client : string) (session : option string)
      (ts te : option Z) (db : Db) :
  let rows :=
    order_by_t (filter (log_matches client session ts te) (log_records db)) in
  result_of (get_logs_from_db client session ts te) db = Return rows /\
  database_after (get_logs_from_db client session ts te) db = db /\
  StronglySorted (fun a b => t a <= t b) rows /\
  forall r, In r rows <->
            In r (log_records db) /\ client_id r = client /\
            of_session session r /\ in_window ts te (t r).
Proof.
  intros rows. split; [reflexivity|]. split; [reflexivity|].
  subst rows. rewrite order_by_t_sort. split; [apply sort_by_sorted|].
  intros r. rewrite sort_by_In, filter_In, log_matches_spec. tauto.
Qed.

(** X4.  [get_logs_from_db] changes nothing and returns the fetched records
    in ascending order of [t]; a record is fetched exactly when it is in
    the table, belongs to the client, belongs to the session when one is
    given (an empty session string filters nothing), and has
    [time_start <= t < time_end] for the bounds that are given. *)
Theorem X4_get_logs_filters_and_orders :
  forall (client : string) (session : option string) (ts te : option Z)
         (db : Db),
  exists rows,
    result_of (get_logs_from_db client session ts te) db = Return rows /\
    database_after (get_logs_from_db client session ts te) db = db /\
    StronglySorted (fun a b => t a <= t b) rows /\
    forall r, In r rows <->
              In r (log_records db) /\ client_id r = client /\
              of_session session r /\ in_window ts te (t r).
Proof.
  intros client session ts te db. eexists.
  exact (get_logs_spec client session ts te db).
Qed.

(** X5.  A record saved with [save_log_to_db] gets the number of rows as
    its id, leaves the indices and the contacts as they were, and is from
    then on fetched for its client, with [app] defaulted to "unknown", by
    every window that contains its [t]; what was fetched before still is. *)
Theorem X5_saved_record_is_fetched :
  forall (r : LogRecord) (db : Db) (ts te : option Z),
    in_window ts te (t r) ->
    let db' := fst (Registry.save_log_to_db r db) in
    snd (Registry.save_log_to_db r db) = len (log_records db) + 1 /\
    user_indices db' = user_indices db /\
    emergency_contacts db' = emergency_contacts db /\
    exists rows rows',
      result_of (get_logs_from_db (client_id r) None ts te) db = Return rows /\
      result_of (get_logs_from_db (client_id r) None ts te) db' = Return rows' /\
      In (Registry.stored_row r) rows' /\
      forall x, In x rows -> In x rows'.
Proof.
  intros r db ts te Hw db'.
  split.
  { cbn. unfold len. rewrite length_app. cbn. lia. }
  split; [reflexivity|]. split; [reflexivity|].
  destruct (get_logs_spec (client_id r) None ts te db) as (H1 & _ & _ & Hin).
  destruct (get_logs_spec (client_id r) None ts te db') as (H2 & _ & _ & Hin').
  eexists _, _. split; [exact H1|]. split; [exact H2|]. split.
  - apply Hin'. split; [|split; [reflexivity|split; [discriminate|exact Hw]]].
    subst db'. cbn. apply in_or_app. right. now left.
  - intros x Hx. apply Hin in Hx. apply Hin'.
    destruct Hx as (Hx & Hrest). split; [|exact Hrest].
    subst db'. cbn. apply in_or_app. now left.
Qed.

Lemma X5_witness :
  let db' := fst (Registry.save_log_to_db (stop_at 40) uncached_db) in
  snd (Registry.save_log_to_db (stop_at 40) uncached_db)
    = len (log_records uncached_db) + 1 /\
  user_indices db' = user_indices uncached_db /\
  emergency_contacts db' = emergency_contacts uncached_db /\
  exists rows rows',
    result_of (get_logs_from_db "alice" None (Some 30) (Some 41)) uncached_db
      = Return rows /\
    result_of (get_logs_from_db "alice" None (Some 30) (Some 41)) db'
      = Return rows' /\
    In (Registry.stored_row (stop_at 40)) rows' /\
    forall x, In x rows -> In x rows'.
Proof.
  apply (X5_saved_record_is_fetched (stop_at 40) uncached_db (Some 30)
           (Some 41)).
  split; intros ? [= <-]; cbn; lia.
Defined.

(** ** The contact table *)

Lemma reauthorize_spec (client contact : string) (rows : list ContactRow) :
  forall requester c,
    let test := fun row =>
      String.eqb (c_client_id row) c && String.eqb (c_contact_id row) requester
      && (c_authorized row =? 1) in
    match Registry.reauthorize client contact rows with
    | Some rows' =>
        existsb test rows'
        = if String.eqb c client && String.eqb requester contact then true
          else existsb test rows
    | None =>
        (if String.eqb c client && String.eqb requester contact
         then existsb test rows = false else True)
    end.
Proof.
  intros requester c test.
  induction rows as [|row rows IH]; cbn.
  - now destruct (_ && _).
  - unfold Registry.contact_matches at 1.
    destruct (String.eqb (c_client_id row) client) eqn:Ec;
      destruct (String.eqb (c_contact_id row) contact) eqn:Ek; cbn.
    + apply String.eqb_eq in Ec. apply String.eqb_eq in Ek.
      unfold test at 1 3. cbn. rewrite Ec, Ek.
      rewrite (String.eqb_sym client c), (String.eqb_sym contact requester).
      destruct (String.eqb c client); destruct (String.eqb requester contact);
        cbn; reflexivity.
    + destruct (Registry.reauthorize client contact rows) as [rows'|]; cbn.
      * rewrite IH. unfold test at 1 3.
        destruct (String.eqb c client && String.eqb requester contact) eqn:E;
          [now rewrite orb_true_r|reflexivity].
      * destruct (String.eqb c client && String.eqb requester contact) eqn:E;
          [|exact I].
        rewrite IH, orb_false_r. unfold test.
        apply andb_true_iff in E. destruct E as [E1 E2].
        apply String.eqb_eq in E1. apply String.eqb_eq in E2. subst.
        now rewrite Ek, andb_false_r.
    + destruct (Registry.reauthorize client contact rows) as [rows'|]; cbn.
      * rewrite IH. unfold test at 1 3.
        destruct (String.eqb c client && String.eqb requester contact) eqn:E;
          [now rewrite orb_true_r|reflexivity].
      * destruct (String.eqb c client && String.eqb requester contact) eqn:E;
          [|exact I].
        rewrite IH, orb_false_r. unfold test.
        apply andb_true_iff in E. destruct E as [E1 E2].
        apply String.eqb_eq in E1. apply String.eqb_eq in E2. subst.
        now rewrite Ec.
    + destruct (Registry.reauthorize client contact rows) as [rows'|]; cbn.
      * rewrite IH. unfold test at 1 3.
        destruct (String.eqb c client && String.eqb requester contact) eqn:E;
          [now rewrite orb_true_r|reflexivity].
      * destruct (String.eqb c client && String.eqb requester contact) eqn:E;
          [|exact I].
        rewrite IH, orb_false_r. unfold test.
        apply andb_true_iff in E. destruct E as [E1 E2].
        apply String.eqb_eq in E1. apply String.eqb_eq in E2. subst.
        now rewrite Ec.
Qed.

Lemma is_authorized_after_add (client contact requester c : string) (db : Db) :
  result_of (is_authorized requester c)
            (Registry.add_emergency_contact client contact db)
  = if String.eqb c client && String.eqb requester contact then Return true
    else result_of (is_authorized requester c) db.
Proof.
  unfold result_of, is_authorized, db_is_authorized, bind, call, read, ret.
  cbn.
  pose proof (reauthorize_spec client contact (emergency_contacts db)
                requester c) as H. cbn in H.
  destruct (Registry.reauthorize client contact (emergency_contacts db)).
  - rewrite H. now destruct (_ && _).
  - rewrite existsb_app. cbn.
    destruct (String.eqb c client) eqn:E1;
      destruct (String.eqb requester contact) eqn:E2; cbn in *.
    + rewrite H. apply String.eqb_eq in E1. apply String.eqb_eq in E2. subst.
      now rewrite !String.eqb_refl.
    + rewrite (String.eqb_sym contact requester), E2, andb_false_r.
      now rewrite !orb_false_r.
    + rewrite (String.eqb_sym client c), E1. now rewrite !orb_false_r.
    + rewrite (String.eqb_sym client c), E1. now rewrite !orb_false_r.
Qed.

Lemma contacts_after_add (client contact : string) (db : Db) :
  In contact
     (Registry.get_emergency_contacts
        (Registry.add_emergency_contact client contact db) client).
Proof.
  unfold Registry.get_emergency_contacts, Registry.add_emergency_contact.
  cbn [emergency_contacts].
  induction (emergency_contacts db) as [|row rows IH]; cbn.
  - rewrite String.eqb_refl. cbn. now left.
  - unfold Registry.contact_matches at 1.
    destruct (String.eqb (c_client_id row) client) eqn:Ec;
      destruct (String.eqb (c_contact_id row) contact) eqn:Ek; cbn.
    + rewrite Ec. cbn. left. now apply String.eqb_eq.
    + destruct (Registry.reauthorize client contact rows); cbn in *;
        rewrite Ec; destruct (c_authorized row =? 1); cbn; auto.
    + destruct (Registry.reauthorize client contact rows); cbn in *;
        rewrite Ec; cbn; auto.
    + destruct (Registry.reauthorize client contact rows); cbn in *;
        rewrite Ec; cbn; auto.
Qed.

(** X6.  After [add_authorized_contact(client, contact)] the contact is
    authorized for the client and listed among its contacts, also when its
    row had been revoked, and the
    answer of [is_authorized] for every other requester or client is what
    it was; the records and the indices are untouched. *)
Theorem X6_added_contact_is_authorized :
  forall (client contact : string) (db : Db),
    let db' := fst (Registry.add_authorized_contact client contact db) in
    result_of (is_authorized contact client) db' = Return true /\
    In contact (Registry.get_emergency_contacts db' client) /\
    (forall requester c,
        requester <> contact \/ c <> client ->
        result_of (is_authorized requester c) db'
        = result_of (is_authorized requester c) db) /\
    log_records db' = log_records db /\
    user_indices db' = user_indices db.
Proof.
  intros client contact db db'. subst db'.
  cbn [fst Registry.add_authorized_contact].
  split.
  - rewrite is_authorized_after_add, !String.eqb_refl. reflexivity.
  - split; [apply contacts_after_add|]. split; [|split; reflexivity].
    intros requester c Hne. rewrite is_authorized_after_add.
    destruct (String.eqb c client) eqn:E1;
      destruct (String.eqb requester contact) eqn:E2; cbn; try reflexivity.
    apply String.eqb_eq in E1. apply String.eqb_eq in E2. tauto.
Qed.

(** ** What an index build stores *)

Lemma validate_in_range_bool (r : LogRecord) :
  Indexer._validate_record (Indexer.record_of_log_dict r) = in_range r.
Proof.
  unfold Indexer._validate_record, in_range. cbn.
  now destruct (Qle_bool 0 (confidence r) && Qle_bool (confidence r) 1).
Qed.

Lemma build_loop_by_time (tm : Z) (rows : list LogRecord) :
  forall index,
    PyDict.get Z.eqb (by_time (fold_left Indexer.build_step rows index)) tm
    = match last_at tm rows with
      | Some r => Some (Indexer.record_of_log_dict r)
      | None => PyDict.get Z.eqb (by_time index) tm
      end.
Proof.
  unfold last_at.
  induction rows as [|r rows IH]; intros index; cbn [fold_left rev].
  - reflexivity.
  - rewrite IH, find_snoc.
    destruct (find _ (rev rows)) as [r'|]; [reflexivity|].
    unfold Indexer.build_step. rewrite validate_in_range_bool.
    destruct (in_range r); cbn [negb andb].
    + unfold Indexer._add_to_index. cbn [by_time].
      rewrite (get_setitem _ _ Z.eqb Z.eqb_eq).
      cbn [t Indexer.record_of_log_dict]. rewrite (Z.eqb_sym tm (t r)).
      now destruct (t r =? tm).
    + reflexivity.
Qed.

(** X8.  In a built index [by_time] has one entry per timestamp, and the
    entry under a timestamp is the last fetched row in range with that [t]
    (with [classes] kept only when non-empty); a timestamp no such row
    carries is absent. *)
Theorem X8_by_time_keeps_last_record :
  forall (client : string) (rows : list LogRecord) (tm : Z),
    let index := Indexer.build_index client rows in
    NoDup (PyDict.keys (by_time index)) /\
    PyDict.get Z.eqb (by_time index) tm
    = option_map Indexer.record_of_log_dict (last_at tm rows).
Proof.
  intros client rows tm index. subst index. unfold Indexer.build_index.
  cbn [by_time Indexer.set_hazards]. split.
  - apply build_loop_keys_NoDup. constructor.
  - rewrite build_loop_by_time. now destruct (last_at tm rows).
Qed.

Lemma lookup_list_append (d : str_dict (list Z)) (ev e : string) (tm : Z) :
  lookup_list (Indexer.dd_append d ev tm) e
  = lookup_list d e ++ (if String.eqb e ev then [tm] else []).
Proof.
  unfold lookup_list, Indexer.dd_append.
  rewrite (get_setitem _ _ String.eqb String.eqb_eq).
  destruct (String.eqb e ev) eqn:E.
  - apply String.eqb_eq in E. now subst.
  - now rewrite app_nil_r.
Qed.

Lemma lookup_count_incr (d : str_dict Z) (ev e : string) :
  lookup_count (Indexer.dd_incr d ev) e
  = lookup_count d e + (if String.eqb e ev then 1 else 0).
Proof.
  unfold lookup_count, Indexer.dd_incr.
  rewrite (get_setitem _ _ String.eqb String.eqb_eq).
  destruct (String.eqb e ev) eqn:E.
  - apply String.eqb_eq in E. now subst.
  - lia.
Qed.

Lemma event_loop_by_event (e : string) (tm : Z) (evs : list string) :
  forall d,
    lookup_list (fold_left (fun d event => Indexer.dd_append d event tm) evs d) e
    = lookup_list d e ++ map (fun _ => tm) (filter (String.eqb e) evs).
Proof.
  induction evs as [|ev evs IH]; intros d; cbn [fold_left filter].
  - now rewrite app_nil_r.
  - rewrite IH, lookup_list_append, <- app_assoc.
    now destruct (String.eqb e ev).
Qed.

Lemma event_loop_counters (e : string) (evs : list string) :
  forall d,
    lookup_count (fold_left Indexer.dd_incr evs d) e
    = lookup_count d e + len (filter (String.eqb e) evs).
Proof.
  induction evs as [|ev evs IH]; intros d; cbn [fold_left filter].
  - unfold len. cbn. lia.
  - rewrite IH, lookup_count_incr.
    destruct (String.eqb e ev); unfold len; cbn [List.length]; lia.
Qed.

Lemma build_loop_events (e : string) (rows : list LogRecord) :
  forall index,
    lookup_list (by_event (fold_left Indexer.build_step rows index)) e
    = lookup_list (by_event index) e ++ occurrences e rows /\
    lookup_count (counters (fold_left Indexer.build_step rows index)) e
    = lookup_count (counters index) e + len (occurrences e rows).
Proof.
  unfold occurrences.
  induction rows as [|r rows IH]; intros index; cbn [fold_left flat_map].
  - rewrite app_nil_r. unfold len. cbn. split; [reflexivity|lia].
  - destruct (IH (Indexer.build_step index r)) as [IH1 IH2].
    rewrite IH1, IH2. unfold Indexer.build_step.
    rewrite validate_in_range_bool.
    destruct (in_range r); cbn [negb].
    + unfold Indexer._add_to_index. cbn [by_event counters].
      cbn [events t Indexer.record_of_log_dict].
      rewrite event_loop_by_event, event_loop_counters.
      unfold len. rewrite !length_app, length_map, <- app_assoc.
      split; [reflexivity|lia].
    + cbn [by_event counters Indexer.set_dropped List.app].
      split; [reflexivity|]. unfold len. lia.
Qed.

(** X9.  In a built index, [by_event[e]] is the list of the timestamps of
    the rows in range, one per occurrence of [e] in their [events] and in
    fetch order (a row overwritten in [by_time] by a later one of the same
    [t] still contributes), and [counters[e]] is the length of that list;
    an event no row carries reads as the empty list and as 0. *)
Theorem X9_by_event_and_counters_agree :
  forall (client : string) (rows : list LogRecord) (e : string),
    let index := Indexer.build_index client rows in
    lookup_list (by_event index) e = occurrences e rows /\
    lookup_count (counters index) e = len (lookup_list (by_event index) e).
Proof.
  intros client rows e index. subst index. unfold Indexer.build_index.
  cbn [by_event counters Indexer.set_hazards].
  destruct (build_loop_events e rows (Indexer.empty_index client)) as [H1 H2].
  cbn in H1, H2. rewrite H1, H2. split; [reflexivity|lia].
Qed.

(** ** Near-miss moments and the planner's thresholds *)

Lemma dict_get_In (V : Type) (d : PyDict.dict Z V) (k : Z) (v : V) :
  NoDup (PyDict.keys d) -> In (k, v) d -> PyDict.get Z.eqb d k = Some v.
Proof.
  unfold PyDict.keys.
  induction d as [|[k' v'] d IH]; intros Hnd Hin; [destruct Hin|].
  inversion Hnd as [|? ? Hk Hd]; subst. cbn.
  destruct Hin as [[= -> ->]|Hin].
  - now rewrite Z.eqb_refl.
  - destruct (Z.eqb k k') eqn:E; [|now apply IH].
    apply Z.eqb_eq in E. subst k'. exfalso. apply Hk.
    apply in_map_iff. now exists (k, v).
Qed.

Lemma collect_candidates_In (crash_near conf : Q)
      (items : list (Z * LogRecord)) (m : Moment) :
  In m (Indexer.collect_candidates crash_near conf items) ->
  exists item, In item items /\
               Indexer.candidate_of crash_near conf item = Some m.
Proof.
  induction items as [|item items IH]; cbn; [intros []|].
  destruct (Indexer.candidate_of crash_near conf item) as [c|] eqn:E.
  - intros [<-|Hin].
    + exists item. split; [now left|exact E].
    + destruct (IH Hin) as (it & Hit & Hc). exists it. split; [now right|exact Hc].
  - intros Hin. destruct (IH Hin) as (it & Hit & Hc).
    exists it. split; [now right|exact Hc].
Qed.

Lemma candidate_of_spec (crash_near conf : Q) (tm : Z) (record : LogRecord)
      (m : Moment) :
  Indexer.candidate_of crash_near conf (tm, record) = Some m ->
  m_t m = tm /\
  m_free_ahead_m m = free_ahead_m record /\
  m_confidence m = confidence record /\
  m_events m = intersection (events record) OBSTACLE_EVENTS /\
  intersects (events record) OBSTACLE_EVENTS = true /\
  near_miss crash_near conf m = true.
Proof.
  unfold Indexer.candidate_of.
  destruct (intersects (events record) OBSTACLE_EVENTS) eqn:Eo; cbn [negb];
    [|discriminate].
  destruct (Qltb (confidence record) conf) eqn:Ec; [discriminate|].
  destruct (match free_ahead_m record with
            | Some d => Qltb crash_near d
            | None => false
            end) eqn:Ed; [discriminate|].
  intros [= <-]. cbn. repeat split.
  unfold near_miss. cbn. unfold Qltb in Ec, Ed.
  apply negb_false_iff in Ec. rewrite Ec. cbn.
  destruct (free_ahead_m record) as [d|]; [|reflexivity].
  now apply negb_false_iff in Ed.
Qed.

Lemma merge_candidates_In (candidates : list Moment) (m : Moment) :
  In m (Indexer.merge_candidates candidates) -> In m candidates.
Proof.
  unfold Indexer.merge_candidates. destruct candidates as [|c cs]; [intros []|].
  pose proof (sort_by_In Moment m_t m (c :: cs)) as Hs.
  destruct (Indexer.sort_by m_t (c :: cs)) as [|c0 rest]; [intros []|].
  rewrite merge_loop_representatives. cbn [List.app]. intros Hin.
  apply representatives_In in Hin. cbn [List.app] in Hin. now apply Hs.
Qed.

Lemma merge_candidates_spaced (candidates : list Moment) :
  spaced (Indexer.merge_candidates candidates).
Proof.
  unfold Indexer.merge_candidates. destruct candidates as [|c cs]; [exact I|].
  pose proof (sort_by_sorted Moment m_t (c :: cs)) as Hs.
  destruct (Indexer.sort_by m_t (c :: cs)) as [|c0 rest]; [exact I|].
  rewrite merge_loop_representatives. cbn [List.app].
  apply representatives_spaced. exact Hs.
Qed.

Lemma moments_spec (index : UserIndex) (crash_near conf : Q) (m : Moment) :
  NoDup (PyDict.keys (by_time index)) ->
  In m (Indexer._find_almost_crashes index crash_near conf) ->
  near_miss crash_near conf m = true /\
  exists record,
    PyDict.get Z.eqb (by_time index) (m_t m) = Some record /\
    intersects (events record) OBSTACLE_EVENTS = true /\
    m_free_ahead_m m = free_ahead_m record /\
    m_confidence m = confidence record.
Proof.
  intros Hnd Hin. unfold Indexer._find_almost_crashes in Hin.
  apply merge_candidates_In, collect_candidates_In in Hin.
  destruct Hin as ([tm record] & Hitem & Hc).
  apply candidate_of_spec in Hc.
  destruct Hc as (Ht & Hd & Hcf & _ & Ho & Hnm).
  split; [exact Hnm|]. exists record. rewrite Ht.
  split; [now apply dict_get_In|]. tauto.
Qed.

Lemma built_moments_spec (client : string) (rows : list LogRecord)
      (m : Moment) :
  let index := Indexer.build_index client rows in
  In m (almost_crash_moments (hazards index)) ->
  near_miss CRASH_NEAR_M CONF_MIN m = true /\
  exists record,
    PyDict.get Z.eqb (by_time index) (m_t m) = Some record /\
    intersects (events record) OBSTACLE_EVENTS = true /\
    m_free_ahead_m m = free_ahead_m record /\
    m_confidence m = confidence record.
Proof.
  intros index. subst index. unfold Indexer.build_index.
  cbn [hazards by_time Indexer.set_hazards Indexer._compute_hazards
       almost_crash_moments].
  intros Hin. apply moments_spec in Hin; [exact Hin|].
  apply build_loop_keys_NoDup. constructor.
Qed.

(** X10.  The near-miss moments of a built index lie more than
    [MERGE_WINDOW_S] apart from one to the next, and each of them is a
    record of [by_time] (same depth and confidence, found under the moment's
    [t]) that carries an obstacle event, has confidence at least [CONF_MIN]
    and a depth that is absent or at most [CRASH_NEAR_M]. *)
Theorem X10_moments_are_spaced_candidates :
  forall (client : string) (rows : list LogRecord),
    let index := Indexer.build_index client rows in
    let moments := almost_crash_moments (hazards index) in
    spaced moments /\
    forall m, In m moments ->
      near_miss CRASH_NEAR_M CONF_MIN m = true /\
      exists record,
        PyDict.get Z.eqb (by_time index) (m_t m) = Some record /\
        intersects (events record) OBSTACLE_EVENTS = true /\
        m_free_ahead_m m = free_ahead_m record /\
        m_confidence m = confidence record.
Proof.
  intros client rows index moments. split.
  - apply merge_candidates_spaced.
  - intros m Hin. exact (built_moments_spec client rows m Hin).
Qed.


Section DefaultThresholds.
Variable isoformat : Z -> string.
Variable round1 : Q -> Q.

End DefaultThresholds.

(** ** Time windows *)

Lemma day_start_bounds (now : Z) :
  QueryAgent.day_start now <= now < QueryAgent.day_start now + 86400.
Proof.
  unfold QueryAgent.day_start.
  pose proof (Z.mod_pos_bound now 86400 ltac:(lia)). lia.
Qed.

(** X12.  When both bounds are keywords (start missing, "today",
    "yesterday", "last_7d" or "last_week"; end missing, "now" or "today"),
    [_parse_time_window] never raises and never consults the ISO parser,
    and the window it returns carries the given [tz], starts at or before
    the current time and does not end before it starts. *)
Theorem X12_keyword_windows_parse_and_are_ordered :
  forall (now : Z) (start end_ : option string) (tz : string),
    is_relative_start start = true ->
    is_relative_end end_ = true ->
    exists tw,
      (forall parse_iso,
          QueryAgent._parse_time_window parse_iso now start end_ tz
          = Return tw) /\
      QueryAgent.tw_tz tw = tz /\
      QueryAgent.tw_start tw <= now /\
      QueryAgent.tw_start tw <= QueryAgent.tw_end tw.
Proof.
  intros now start end_ tz Hs He.
  pose proof (day_start_bounds now) as Hd.
  assert (Hend : end_ = None \/ end_ = Some "now"%string
                 \/ end_ = Some "today"%string).
  { destruct end_ as [e|]; [|now left]. cbn in He.
    apply orb_true_iff in He. destruct He as [H|H];
      apply String.eqb_eq in H; subst; tauto. }
  assert (Hstart : start = None \/ start = Some "today"%string
                   \/ start = Some "yesterday"%string
                   \/ start = Some "last_7d"%string
                   \/ start = Some "last_week"%string).
  { destruct start as [s|]; [|now left]. cbn in Hs.
    rewrite !orb_true_iff in Hs.
    destruct Hs as [[[H|H]|H]|H]; apply String.eqb_eq in H; subst; tauto. }
  destruct Hend as [ -> | [ -> | -> ] ];
    destruct Hstart as [ -> | [ -> | [ -> | [ -> | -> ] ] ] ];
    eexists; (split; [intros parse_iso; reflexivity|]); cbn;
    unfold QueryAgent.day_start in *; (split; [reflexivity|lia]).
Qed.

Lemma X12_witness :
  exists tw,
    (forall parse_iso,
        QueryAgent._parse_time_window parse_iso 100000
          (Some "yesterday"%string) (Some "now"%string) "UTC"
        = Return tw) /\
    QueryAgent.tw_tz tw = "UTC"%string /\
    QueryAgent.tw_start tw <= 100000 /\
    QueryAgent.tw_start tw <= QueryAgent.tw_end tw.
Proof.
  apply (X12_keyword_windows_parse_and_are_ordered 100000
           (Some "yesterday"%string) (Some "now"%string) "UTC");
    reflexivity.
Defined.

Lemma parse_raises (parse_iso : string -> option Z) (now : Z)
      (start end_ : option string) (tz : string) :
  unparsable parse_iso is_relative_end end_ \/
  unparsable parse_iso is_relative_start start ->
  QueryAgent._parse_time_window parse_iso now start end_ tz = Raise ValueError.
Proof.
  intros H. unfold QueryAgent._parse_time_window.
  assert (Hend : unparsable parse_iso is_relative_end end_ ->
                 (if match end_ with
                     | None => true
                     | Some e => String.eqb e "now"
                     end
                  then Return now
                  else if QueryAgent.is_str end_ "today"
                       then Return (QueryAgent.day_start now + 86399)
                       else match end_ with
                            | Some e => match parse_iso e with
                                        | Some v => Return v
                                        | None => Raise ValueError
                                        end
                            | None => Return now
                            end) = Raise ValueError).
  { intros (Hrel & e & -> & Hp). cbn in Hrel |- *.
    apply orb_false_iff in Hrel. destruct Hrel as [-> ->]. now rewrite Hp. }
  destruct H as [H|H]; [now rewrite (Hend H)|].
  destruct H as (Hrel & s & -> & Hp). cbn in Hrel.
  rewrite !orb_false_iff in Hrel. destruct Hrel as [[[H1 H2] H3] H4].
  rewrite H1, H2, H3, H4, Hp. cbn. clear Hend.
  destruct end_ as [e|]; cbn; [|reflexivity].
  destruct (String.eqb e "now"); [reflexivity|].
  destruct (String.eqb e "today"); [reflexivity|].
  now destruct (parse_iso e).
Qed.

Section BadWindow.
Variable parse_iso : string -> option Z.
Variable isoformat : Z -> string.
Variable round1 : Q -> Q.

(** X13.  For an authorized requester, a bound that is neither a keyword
    nor accepted by the ISO parser makes [handle_query] raise [ValueError]
    after the authorization check and before any index or record access;
    the end bound is parsed, and can fail the query, also when the start
    is "yesterday", which discards it. *)
Theorem X13_unparsable_bound_raises_before_data_access :
  forall requester client question session time_start time_end tz params
         now db log,
    fst (fst (is_authorized requester client db log)) = Return true ->
    unparsable parse_iso is_relative_end time_end \/
    unparsable parse_iso is_relative_start time_start ->
    QueryAgent.handle_query parse_iso isoformat round1 requester client
      question session time_start time_end tz params now db log
    = (Raise ValueError, db, log ++ [CallIsAuthorized requester client]).
Proof.
  intros requester client question session time_start time_end tz params
         now db log Hauth Hbad.
  unfold QueryAgent.handle_query.
  unfold bind at 1. rewrite is_authorized_run, Hauth. cbn [negb].
  unfold bind at 1. unfold lift.
  now rewrite (parse_raises parse_iso now time_start time_end tz Hbad).
Qed.
End BadWindow.

Lemma X13_witness :
  QueryAgent.handle_query (fun _ => None) (fun _ => EmptyString) (fun q => q)
    "carol" "alice" "did he fall today?" None (Some "yesterday"%string)
    (Some "tomorrow"%string) "UTC" None 100000 cached_db []
  = (Raise ValueError, cached_db, [CallIsAuthorized "carol" "alice"]).
Proof.
  apply (X13_unparsable_bound_raises_before_data_access (fun _ => None)
           (fun _ => EmptyString) (fun q => q) "carol" "alice"
           "did he fall today?" None (Some "yesterday"%string)
           (Some "tomorrow"%string) "UTC" None 100000 cached_db []).
  - reflexivity.
  - left. split; [reflexivity|]. now exists "tomorrow"%string.
Defined.

(** ** The cache after a rebuild *)


Section FrozenCache.
Variable parse_iso : string -> option Z.
Variable isoformat : Z -> string.
Variable round1 : Q -> Q.

End FrozenCache.


(** ** Event counts *)

Lemma sort_by_length (A : Type) (key : A -> Z) (l : list A) :
  List.length (Indexer.sort_by key l) = List.length l.
Proof.
  assert (Hins : forall x s, List.length (Indexer.insert_sorted key x s)
                             = S (List.length s)).
  { intros x s. induction s as [|y s IH]; cbn; [reflexivity|].
    destruct (key x <=? key y); cbn; [reflexivity|now rewrite IH]. }
  induction l as [|x l IH]; cbn; [reflexivity|]. now rewrite Hins, IH.
Qed.

Lemma sorted_app_cross (A : Type) (R : A -> A -> Prop) (l1 l2 : list A) :
  StronglySorted R (l1 ++ l2) ->
  forall a b, In a l1 -> In b l2 -> R a b.
Proof.
  induction l1 as [|x l1 IH]; cbn; intros Hs a b Ha Hb; [destruct Ha|].
  inversion Hs as [|? ? Hs' Hall]; subst.
  destruct Ha as [->|Ha]; [|now apply IH].
  rewrite Forall_forall in Hall. apply Hall, in_or_app. now right.
Qed.

Lemma firstn_incl (A : Type) (n : nat) (l : list A) (x : A) :
  In x (firstn n l) -> In x l.
Proof.
  intros H. rewrite <- (firstn_skipn n l). apply in_or_app. now left.
Qed.

(** X15.  The samples of the event-count metric are at most three entries
    of [counters], as many as there are when there are fewer, and no entry
    left out has a larger count than an entry sampled. *)
Theorem X15_event_count_samples_are_the_top_three :
  forall (index : UserIndex) (params : QueryParams),
    let samples := snd (QueryAgent._compute_event_counts index params) in
    fst (QueryAgent._compute_event_counts index params)
    = QueryAgent.ResEventCounts (counters index) (by_class index) /\
    List.length samples = Nat.min 3 (List.length (counters index)) /\
    (forall e c, In (QueryAgent.SampleEvent e c) samples ->
                 In (e, c) (counters index)) /\
    (forall e c e' c',
        In (QueryAgent.SampleEvent e c) samples ->
        In (e', c') (counters index) ->
        ~ In (QueryAgent.SampleEvent e' c') samples ->
        c' <= c).
Proof.
  intros index params samples. subst samples.
  unfold QueryAgent._compute_event_counts. cbn [fst snd].
  set (key := fun item : string * Z => - snd item).
  set (sorted := Indexer.sort_by key (counters index)).
  assert (Hsample : forall e c l,
             In (QueryAgent.SampleEvent e c)
                (map (fun item : string * Z =>
                        QueryAgent.SampleEvent (fst item) (snd item)) l)
             <-> In (e, c) l).
  { intros e c l. rewrite in_map_iff. split.
    - intros ([e0 c0] & [= -> ->] & Hin). exact Hin.
    - intros Hin. now exists (e, c). }
  split; [reflexivity|]. split.
  { rewrite length_map, length_firstn. unfold sorted.
    now rewrite sort_by_length. }
  split.
  - intros e c Hin. apply Hsample in Hin. apply firstn_incl in Hin.
    unfold sorted in Hin. now rewrite sort_by_In in Hin.
  - intros e c e' c' Hin Hin' Hout.
    apply Hsample in Hin. rewrite Hsample in Hout.
    assert (Hs : In (e', c') sorted) by (unfold sorted; now rewrite sort_by_In).
    rewrite <- (firstn_skipn 3 sorted) in Hs. apply in_app_or in Hs.
    destruct Hs as [Hs|Hs]; [contradiction|].
    pose proof (sort_by_sorted _ key (counters index)) as Hsorted.
    fold sorted in Hsorted. rewrite <- (firstn_skipn 3 sorted) in Hsorted.
    pose proof (sorted_app_cross _ _ _ _ Hsorted _ _ Hin Hs) as H.
    unfold key in H. cbn in H. lia.
Qed.

(** ** The accident metric *)



Lemma Qltb_false (x y : Q) : Qltb x y = false -> Qle_bool y x = true.
Proof. unfold Qltb. now destruct (Qle_bool y x). Qed.




(** ** The watchdog's windows *)

Lemma tl_skipn (A : Type) (k : nat) (l : list A) :
  tl (skipn k l) = skipn (S k) l.
Proof.
  revert l. induction k as [|k IH]; intros [|x l]; cbn; try reflexivity.
  apply IH.
Qed.

Lemma deque_append_last_n (acc : list LogRecord) (record : LogRecord) :
  Watchdog.deque_append (last_n 100 acc) record
  = last_n 100 (acc ++ [record]).
Proof.
  unfold Watchdog.deque_append, last_n, len.
  rewrite !length_app, length_skipn. cbn [List.length].
  destruct (Nat.le_gt_cases (List.length acc) 99) as [Hle|Hgt].
  - replace (List.length acc - 100)%nat with 0%nat by lia.
    replace (List.length acc + 1 - 100)%nat with 0%nat by lia.
    cbn [skipn]. destruct (100 <? _) eqn:E; [|reflexivity].
    apply Z.ltb_lt in E. lia.
  - destruct (100 <? _) eqn:E; [|apply Z.ltb_ge in E; lia].
    replace (List.length acc + 1 - 100)%nat
      with (S (List.length acc - 100)) by lia.
    rewrite skipn_app.
    replace (S (List.length acc - 100) - List.length acc)%nat
      with 0%nat by lia.
    rewrite <- tl_skipn. change (skipn 0 [record]) with [record].
    destruct (skipn (List.length acc - 100) acc) as [|x l] eqn:El;
      [|reflexivity].
    apply (f_equal (@List.length _)) in El. rewrite length_skipn in El.
    cbn in El. lia.
Qed.

Lemma deque_append_snoc (window : list LogRecord) (record : LogRecord) :
  exists older, Watchdog.deque_append window record = older ++ [record].
Proof.
  unfold Watchdog.deque_append. destruct (100 <? _) eqn:E.
  - destruct window as [|x window]; [discriminate|].
    now exists window.
  - now exists window.
Qed.

Section WatchdogFacts.
Variable get_emergency_contacts : string -> list string.

Lemma send_accident_frame (w : Watchdog.Agent) (client : string) (tm : Z)
      (why : Rationale) (now : Z) :
  let out := Watchdog._send_accident_alert get_emergency_contacts w client tm
               why now in
  Watchdog.client_windows (fst out) = Watchdog.client_windows w /\
  Watchdog.stuck_alerts (fst out) = Watchdog.stuck_alerts w /\
  Watchdog.emergency_contacts (fst out) = Watchdog.emergency_contacts w /\
  (forall c, c <> client ->
     PyDict.get String.eqb (Watchdog.accident_alerts (fst out)) c
     = PyDict.get String.eqb (Watchdog.accident_alerts w) c) /\
  (forall e, In e (snd out) ->
     e = Watchdog.Emitted
           (Watchdog.mkAlert Watchdog.accident_alert client tm (Some why) None)
           now (Watchdog.contacts_for get_emergency_contacts w client)).
Proof.
  unfold Watchdog._send_accident_alert.
  destruct (_ <? Watchdog.accident_debounce); cbn.
  - repeat split; intros; tauto.
  - split; [reflexivity|]. split; [reflexivity|]. split; [reflexivity|].
    split.
    + intros c Hc. rewrite (get_setitem _ _ String.eqb String.eqb_eq).
      apply String.eqb_neq in Hc. now rewrite Hc.
    + intros e [<-|[]]. reflexivity.
Qed.

Lemma check_stuck_frame (w : Watchdog.Agent) (client : string)
      (now sent : Z) :
  let out := Watchdog._check_stuck get_emergency_contacts w client now sent in
  Watchdog.client_windows (fst out) = Watchdog.client_windows w /\
  Watchdog.accident_alerts (fst out) = Watchdog.accident_alerts w /\
  Watchdog.emergency_contacts (fst out) = Watchdog.emergency_contacts w /\
  (forall c, c <> client ->
     PyDict.get String.eqb (Watchdog.stuck_alerts (fst out)) c
     = PyDict.get String.eqb (Watchdog.stuck_alerts w) c) /\
  (forall e, In e (snd out) ->
     exists since_t,
       Watchdog.scan (rev (Watchdog.window_of w client)) [] None
       = Some since_t /\
       2 <= len (Watchdog.window_of w client) /\
       STUCK_ALERT_S <= now - since_t /\
       e = Watchdog.Emitted
             (Watchdog.mkAlert Watchdog.stuck_alert client sent None
                               (Some since_t))
             now (Watchdog.contacts_for get_emergency_contacts w client)).
Proof.
  unfold Watchdog._check_stuck.
  destruct (len (Watchdog.window_of w client) <? 2) eqn:Elen;
    [cbn; repeat split; intros; tauto|].
  destruct (Watchdog.scan _ _ _) as [since_t|];
    [|cbn; repeat split; intros; tauto].
  destruct (STUCK_ALERT_S <=? now - since_t) eqn:Edur;
    [|cbn; repeat split; intros; tauto].
  destruct (Watchdog.stuck_debounce <=? _);
    [|cbn; repeat split; intros; tauto].
  cbn. split; [reflexivity|]. split; [reflexivity|]. split; [reflexivity|].
  split.
  - intros c Hc. rewrite (get_setitem _ _ String.eqb String.eqb_eq).
    apply String.eqb_neq in Hc. now rewrite Hc.
  - intros e [<-|[]]. exists since_t. split; [reflexivity|].
    apply Z.ltb_ge in Elen. apply Z.leb_le in Edur.
    split; [exact Elen|]. split; [exact Edur|reflexivity].
Qed.

Lemma scan_some (reversed_window : list LogRecord) :
  forall depths start since_t,
    Watchdog.scan reversed_window depths start = Some since_t ->
    start = Some since_t \/
    exists record, In record reversed_window /\ t record = since_t.
Proof.
  induction reversed_window as [|record rest IH]; intros depths start since_t;
    cbn [Watchdog.scan]; [now left|].
  destruct (Watchdog.observe depths record) as [depths1 still].
  destruct still; [|now left].
  intros H. right. destruct (IH _ _ _ H) as [[= <-]|(r & Hr & Ht)].
  - exists record. split; [now left|reflexivity].
  - exists r. split; [now right|exact Ht].
Qed.

Lemma scan_head_still (record : LogRecord) (rest : list LogRecord)
      (since_t : Z) :
  Watchdog.scan (record :: rest) [] None = Some since_t ->
  existsb is_directional_event (events record) = false.
Proof.
  cbn [Watchdog.scan]. unfold Watchdog.observe.
  destruct (existsb is_directional_event (events record)); [|reflexivity].
  rewrite andb_false_r. discriminate.
Qed.

Lemma scan_future_bound (obstacle_time : Z) (future : list LogRecord) :
  forall stop_found n,
    n <= ACCIDENT_PATTERN_WINDOW_S + ACCIDENT_NO_PROCEED_S ->
    snd (Watchdog.scan_future obstacle_time future stop_found n)
    <= ACCIDENT_PATTERN_WINDOW_S + ACCIDENT_NO_PROCEED_S.
Proof.
  induction future as [|rec2 rest IH]; intros stop_found n Hn;
    cbn [Watchdog.scan_future]; [exact Hn|].
  destruct (_ <? t rec2 - obstacle_time) eqn:Efar; [exact Hn|].
  apply Z.ltb_ge in Efar.
  destruct (if mem_str "stop" (events rec2) then true else stop_found).
  - destruct (existsb is_directional_event (events rec2)); [exact Hn|].
    now apply IH.
  - now apply IH.
Qed.

Lemma find_anchor_spec (window : list LogRecord) (indices : list Z)
      (tm : Z) (depth : Q) (n : Z) :
  Watchdog.find_anchor window indices = Some (tm, depth, n) ->
  (exists anchor, In anchor window /\ t anchor = tm /\
                  is_anchor anchor depth) /\
  ACCIDENT_NO_PROCEED_S <= n
  <= ACCIDENT_PATTERN_WINDOW_S + ACCIDENT_NO_PROCEED_S.
Proof.
  induction indices as [|i indices IH]; cbn [Watchdog.find_anchor];
    [discriminate|].
  destruct (nth_error window (Z.to_nat i)) as [rec|] eqn:Enth;
    [|discriminate].
  destruct (intersects (events rec) OBSTACLE_EVENTS) eqn:Eobs;
    cbn [negb]; [|exact IH].
  destruct (Qltb (confidence rec) ACCIDENT_CONF) eqn:Econf; [exact IH|].
  destruct (free_ahead_m rec) as [depth0|] eqn:Edepth; [|exact IH].
  destruct (Qltb ACCIDENT_DEPTH_M depth0) eqn:Efar; [exact IH|].
  pose proof (scan_future_bound (t rec)
                (skipn (S (Z.to_nat i)) window) false 0) as Hbound.
  destruct (Watchdog.scan_future _ _ _ _) as [stop_found n0].
  cbn [snd] in Hbound.
  destruct (stop_found && (ACCIDENT_NO_PROCEED_S <=? n0)) eqn:Ego;
    [|exact IH].
  apply andb_true_iff in Ego. destruct Ego as [_ Hn]. apply Z.leb_le in Hn.
  intros [= <- <- <-]. split.
  - exists rec. split; [now apply nth_error_In in Enth|].
    split; [reflexivity|].
    split; [exact Eobs|]. split; [now apply Qltb_false|].
    split; [exact Edepth|now apply Qltb_false].
  - split; [exact Hn|]. apply Hbound.
    unfold ACCIDENT_PATTERN_WINDOW_S, ACCIDENT_NO_PROCEED_S. lia.
Qed.

Lemma check_accident_frame (w : Watchdog.Agent) (client : string)
      (record : LogRecord) (now : Z) :
  let out := Watchdog._check_accident get_emergency_contacts w client record
               now in
  Watchdog.client_windows (fst out) = Watchdog.client_windows w /\
  Watchdog.stuck_alerts (fst out) = Watchdog.stuck_alerts w /\
  Watchdog.emergency_contacts (fst out) = Watchdog.emergency_contacts w /\
  (forall c, c <> client ->
     PyDict.get String.eqb (Watchdog.accident_alerts (fst out)) c
     = PyDict.get String.eqb (Watchdog.accident_alerts w) c) /\
  (forall e, In e (snd out) ->
     exists tm why,
       accident_pattern (Watchdog.window_of w client) record tm why /\
       e = Watchdog.Emitted
             (Watchdog.mkAlert Watchdog.accident_alert client tm (Some why)
                               None)
             now (Watchdog.contacts_for get_emergency_contacts w client)).
Proof.
  assert (Hsend : forall tm why,
             accident_pattern (Watchdog.window_of w client) record tm why ->
             let out := Watchdog._send_accident_alert get_emergency_contacts
                          w client tm why now in
             Watchdog.client_windows (fst out) = Watchdog.client_windows w /\
             Watchdog.stuck_alerts (fst out) = Watchdog.stuck_alerts w /\
             Watchdog.emergency_contacts (fst out)
             = Watchdog.emergency_contacts w /\
             (forall c, c <> client ->
                PyDict.get String.eqb (Watchdog.accident_alerts (fst out)) c
                = PyDict.get String.eqb (Watchdog.accident_alerts w) c) /\
             (forall e, In e (snd out) ->
                exists tm why,
                  accident_pattern (Watchdog.window_of w client) record tm
                                   why /\
                  e = Watchdog.Emitted
                        (Watchdog.mkAlert Watchdog.accident_alert client tm
                                          (Some why) None)
                        now (Watchdog.contacts_for get_emergency_contacts w
                                                   client))).
  { intros tm why Hwhy out.
    destruct (send_accident_frame w client tm why now)
      as (H1 & H2 & H3 & H4 & H5).
    split; [exact H1|]. split; [exact H2|]. split; [exact H3|].
    split; [exact H4|].
    intros e He. exists tm, why. split; [exact Hwhy|now apply H5]. }
  assert (Hquiet :
            Watchdog.client_windows w = Watchdog.client_windows w /\
            Watchdog.stuck_alerts w = Watchdog.stuck_alerts w /\
            Watchdog.emergency_contacts w = Watchdog.emergency_contacts w /\
            (forall c, c <> client ->
               PyDict.get String.eqb (Watchdog.accident_alerts w) c
               = PyDict.get String.eqb (Watchdog.accident_alerts w) c) /\
            (forall e, In e (@nil Watchdog.Event) ->
               exists tm why,
                 accident_pattern (Watchdog.window_of w client) record tm
                                  why /\
                 e = Watchdog.Emitted
                       (Watchdog.mkAlert Watchdog.accident_alert client tm
                                         (Some why) None)
                       now (Watchdog.contacts_for get_emergency_contacts w
                                                  client))).
  { split; [reflexivity|]. split; [reflexivity|]. split; [reflexivity|].
    split; [reflexivity|]. intros e []. }
  unfold Watchdog._check_accident.
  destruct (intersects (events record) ACCIDENT_EVENTS) eqn:Eacc.
  { apply Hsend. cbn. now split. }
  destruct (len (Watchdog.window_of w client) <? 3) eqn:Elen;
    [exact Hquiet|].
  apply Z.ltb_ge in Elen.
  destruct (Watchdog.find_anchor _ _) as [[[tm depth] n]|] eqn:Eanchor.
  { apply Hsend. destruct (find_anchor_spec _ _ _ _ _ Eanchor) as [Ha Hn].
    cbn. split; [exact Eacc|]. split; [exact Elen|].
    split; [exact Ha|exact Hn]. }
  destruct ((3 <=? _) && mem_str "stop" (events record)) eqn:Eveer;
    [|exact Hquiet].
  destruct (120 <=? _) eqn:Estill; [|exact Hquiet].
  apply andb_true_iff in Eveer. destruct Eveer as [Hv Hs].
  apply Z.leb_le in Hv. apply Z.leb_le in Estill.
  apply Hsend. cbn. split; [exact Eacc|]. split; [exact Elen|].
  split; [exact Hv|].
  split; [exact Estill|]. split; [exact Hs|reflexivity].
Qed.

Lemma process_record_unfold (w : Watchdog.Agent) (record : LogRecord)
      (clock : Watchdog.Clock) :
  let client := client_id record in
  let w1 :=
    Watchdog.set_client_windows w
      (PyDict.setitem String.eqb (Watchdog.client_windows w) client
         (Watchdog.deque_append (Watchdog.window_of w client) record)) in
  let stuck :=
    Watchdog._check_stuck get_emergency_contacts w1 client
      (Watchdog.now_stuck clock) (Watchdog.now_sent clock) in
  let accident :=
    Watchdog._check_accident get_emergency_contacts (fst stuck) client record
      (Watchdog.now_accident clock) in
  Watchdog.process_record get_emergency_contacts w record clock
  = (fst accident, snd stuck ++ snd accident).
Proof.
  cbn zeta. unfold Watchdog.process_record.
  destruct (Watchdog._check_stuck _ _ _ _ _) as [w2 out_stuck].
  cbn [fst snd].
  now destruct (Watchdog._check_accident _ _ _ _ _) as [w3 out_accident].
Qed.

Lemma window_after_append (w : Watchdog.Agent) (client : string)
      (window : list LogRecord) (c : string) :
  Watchdog.window_of
    (Watchdog.set_client_windows w
       (PyDict.setitem String.eqb (Watchdog.client_windows w) client window))
    c
  = if String.eqb c client then window else Watchdog.window_of w c.
Proof.
  unfold Watchdog.window_of, Watchdog.set_client_windows.
  cbn [Watchdog.client_windows].
  rewrite (get_setitem _ _ String.eqb String.eqb_eq).
  now destruct (String.eqb c client).
Qed.

(** What one [process_record] does, its two checks put together. *)
Lemma process_record_spec (w : Watchdog.Agent) (record : LogRecord)
      (clock : Watchdog.Clock) :
  let client := client_id record in
  let run := Watchdog.process_record get_emergency_contacts w record clock in
  let window := Watchdog.deque_append (Watchdog.window_of w client) record in
  let contacts := Watchdog.contacts_for get_emergency_contacts w client in
  (forall c, Watchdog.window_of (fst run) c
             = if String.eqb c client then window
               else Watchdog.window_of w c) /\
  Watchdog.emergency_contacts (fst run) = Watchdog.emergency_contacts w /\
  (forall c, c <> client ->
     PyDict.get String.eqb (Watchdog.stuck_alerts (fst run)) c
     = PyDict.get String.eqb (Watchdog.stuck_alerts w) c /\
     PyDict.get String.eqb (Watchdog.accident_alerts (fst run)) c
     = PyDict.get String.eqb (Watchdog.accident_alerts w) c) /\
  (forall e, In e (snd run) ->
     (exists since_t,
        Watchdog.scan (rev window) [] None = Some since_t /\
        2 <= len window /\
        STUCK_ALERT_S <= Watchdog.now_stuck clock - since_t /\
        e = Watchdog.Emitted
              (Watchdog.mkAlert Watchdog.stuck_alert client
                 (Watchdog.now_sent clock) None (Some since_t))
              (Watchdog.now_stuck clock) contacts) \/
     (exists tm why,
        accident_pattern window record tm why /\
        e = Watchdog.Emitted
              (Watchdog.mkAlert Watchdog.accident_alert client tm (Some why)
                                None)
              (Watchdog.now_accident clock) contacts)).
Proof.
  intros client run window contacts. unfold run.
  rewrite process_record_unfold. cbn zeta. fold client. fold window.
  set (w1 := Watchdog.set_client_windows w _).
  destruct (check_stuck_frame w1 client (Watchdog.now_stuck clock)
              (Watchdog.now_sent clock)) as (S1 & S2 & S3 & S4 & S5).
  set (stuck := Watchdog._check_stuck _ _ _ _ _) in *.
  destruct (check_accident_frame (fst stuck) client record
              (Watchdog.now_accident clock)) as (A1 & A2 & A3 & A4 & A5).
  set (accident := Watchdog._check_accident _ _ _ _ _) in *.
  cbn [fst snd].
  assert (Hwin : forall wx, Watchdog.client_windows wx
                            = Watchdog.client_windows w1 ->
                            forall c, Watchdog.window_of wx c
                                      = if String.eqb c client then window
                                        else Watchdog.window_of w c).
  { intros wx Hwx c. unfold Watchdog.window_of at 1. rewrite Hwx.
    exact (window_after_append w client window c). }
  assert (Hcontacts : forall wx, Watchdog.emergency_contacts wx
                                 = Watchdog.emergency_contacts w ->
                                 Watchdog.contacts_for get_emergency_contacts
                                                       wx client = contacts).
  { intros wx Hwx. unfold contacts, Watchdog.contacts_for. now rewrite Hwx. }
  split; [|split; [|split]].
  - apply Hwin. now rewrite A1, S1.
  - now rewrite A3, S3.
  - intros c Hc. split.
    + rewrite A2. now apply S4.
    + rewrite (A4 c Hc). now rewrite S2.
  - intros e He. apply in_app_or in He. destruct He as [He|He].
    + left. destruct (S5 e He) as (since_t & Hscan & Hlen & Hdur & ->).
      exists since_t. rewrite (Hwin w1 eq_refl client) in Hscan, Hlen.
      unfold client in Hscan, Hlen at 1. rewrite String.eqb_refl in Hscan, Hlen.
      split; [exact Hscan|]. split; [exact Hlen|]. split; [exact Hdur|].
      now rewrite (Hcontacts w1 eq_refl).
    + right. destruct (A5 e He) as (tm & why & Hwhy & ->).
      exists tm, why. rewrite (Hwin (fst stuck) S1 client) in Hwhy.
      unfold client in Hwhy at 1. rewrite String.eqb_refl in Hwhy.
      split; [exact Hwhy|].
      rewrite (Hcontacts (fst stuck)); [reflexivity|exact S3].
Qed.
End WatchdogFacts.

Lemma run_cons (get_emergency_contacts : string -> list string)
      (w : Watchdog.Agent) (op : Watchdog.Op) (ops : list Watchdog.Op) :
  fst (Watchdog.run get_emergency_contacts w (op :: ops))
  = fst (Watchdog.run get_emergency_contacts
           (fst (Watchdog.step get_emergency_contacts w op)) ops).
Proof.
  cbn [Watchdog.run].
  destruct (Watchdog.step get_emergency_contacts w op) as [w1 out1].
  cbn [fst]. now destruct (Watchdog.run get_emergency_contacts w1 ops).
Qed.

Lemma window_after_clear (w : Watchdog.Agent) (cleared c : string) :
  Watchdog.window_of (fst (Watchdog.clear_client_state w cleared)) c
  = if String.eqb c cleared then [] else Watchdog.window_of w c.
Proof.
  unfold Watchdog.clear_client_state, Watchdog.window_of.
  cbn [fst Watchdog.client_windows].
  destruct (PyDict.get String.eqb (Watchdog.client_windows w) cleared)
    as [window|] eqn:Eget.
  - rewrite (get_setitem _ _ String.eqb String.eqb_eq).
    now destruct (String.eqb c cleared).
  - destruct (String.eqb c cleared) eqn:E; [|reflexivity].
    apply String.eqb_eq in E. subst c. now rewrite Eget.
Qed.

Lemma run_window (get_emergency_contacts : string -> list string)
      (client : string) (ops : list Watchdog.Op) :
  forall w acc,
    Watchdog.window_of w client = last_n 100 acc ->
    Watchdog.window_of (fst (Watchdog.run get_emergency_contacts w ops)) client
    = last_n 100 (fold_left (session_step client) ops acc).
Proof.
  induction ops as [|op ops IH]; intros w acc Hw; [exact Hw|].
  rewrite run_cons. cbn [fold_left]. apply IH.
  destruct op as [record clock|cleared]; cbn [Watchdog.step session_step].
  - destruct (process_record_spec get_emergency_contacts w record clock)
      as (Hwin & _).
    rewrite Hwin. destruct (String.eqb client (client_id record)) eqn:E;
      [|exact Hw].
    apply String.eqb_eq in E. subst client. rewrite Hw.
    apply deque_append_last_n.
  - rewrite window_after_clear.
    now destruct (String.eqb client cleared).
Qed.

(** X17.  After any execution from the initial state, the window the
    watchdog holds for a client is made of the last hundred (or fewer)
    records of that client streamed since its state was last cleared, in
    arrival order; it never holds more than a hundred. *)
Theorem X17_window_is_last_hundred_session_records :
  forall (get_emergency_contacts : string -> list string)
         (ops : list Watchdog.Op) (client : string),
    let w := fst (Watchdog.run get_emergency_contacts Watchdog.init ops) in
    Watchdog.window_of w client = last_n 100 (session_records client ops) /\
    len (Watchdog.window_of w client) <= 100.
Proof.
  intros gec ops client w.
  assert (H : Watchdog.window_of w client
              = last_n 100 (session_records client ops)).
  { unfold w, session_records. now apply run_window. }
  split; [exact H|]. rewrite H. unfold last_n, len.
  rewrite length_skipn. lia.
Qed.

(** ** The watchdog's alerts *)

(** X18.  A stuck alert is only emitted on a record that carries no
    directional event, for a window of at least two records; it names the
    record's client, is stamped with the clock read when sending, and its
    [since] is the time of a record of the window that lies at least
    [STUCK_ALERT_S] before the clock read by the check. *)
Theorem X18_stuck_alert_needs_still_newest_record :
  forall (get_emergency_contacts : string -> list string)
         (w : Watchdog.Agent) (record : LogRecord) (clock : Watchdog.Clock)
         (alert : Watchdog.Alert) (now : Z) (contacts : list string),
    let run := Watchdog.process_record get_emergency_contacts w record clock in
    let window := Watchdog.window_of (fst run) (client_id record) in
    In (Watchdog.Emitted alert now contacts) (snd run) ->
    Watchdog.alert_type alert = Watchdog.stuck_alert ->
    existsb is_directional_event (events record) = false /\
    2 <= len window /\
    Watchdog.a_client_id alert = client_id record /\
    Watchdog.a_t alert = Watchdog.now_sent clock /\
    now = Watchdog.now_stuck clock /\
    exists since_t still,
      Watchdog.since alert = Some since_t /\
      In still window /\ t still = since_t /\
      STUCK_ALERT_S <= now - since_t.
Proof.
  intros gec w record clock alert now contacts run window Hin Hkind.
  destruct (process_record_spec gec w record clock) as (Hwin & _ & _ & Hout).
  unfold window, run. rewrite Hwin, String.eqb_refl.
  destruct (Hout _ Hin)
    as [(since_t & Hscan & Hlen & Hdur & [= -> -> _])
       |(tm & why & _ & [= -> _ _])]; [|discriminate].
  cbn [Watchdog.a_client_id Watchdog.a_t Watchdog.since].
  destruct (deque_append_snoc (Watchdog.window_of w (client_id record)) record)
    as [older Holder].
  rewrite Holder in *. rewrite rev_app_distr in Hscan. cbn [rev List.app] in Hscan.
  split; [exact (scan_head_still _ _ _ Hscan)|].
  split; [exact Hlen|]. split; [reflexivity|]. split; [reflexivity|].
  split; [reflexivity|].
  destruct (scan_some _ _ _ _ Hscan) as [[=]|(still & Hstill & Ht)].
  exists since_t, still. split; [reflexivity|]. split.
  - destruct Hstill as [<-|Hstill].
    + apply in_or_app. right. now left.
    + apply in_or_app. left. now apply in_rev.
  - split; [exact Ht|exact Hdur].
Qed.

Lemma X18_witness :
  existsb is_directional_event (events (stop_at 1)) = false /\
  exists since_t, STUCK_ALERT_S <= 10000 - since_t.
Proof.
  pose proof (X18_stuck_alert_needs_still_newest_record no_db_contacts
                (fst (Watchdog.run no_db_contacts Watchdog.init
                        [Watchdog.Process (stop_at 0) (at_clock 9999)]))
                (stop_at 1) (at_clock 10000)
                (Watchdog.mkAlert Watchdog.stuck_alert "alice" 10000 None
                                  (Some 0))
                10000 [] (or_introl eq_refl) eq_refl) as H.
  destruct H as (Hstill & _ & _ & _ & _ & since_t & _ & _ & _ & _ & Hdur).
  split; [exact Hstill|]. exists since_t. exact Hdur.
Defined.

(** X19.  Every accident alert emitted by [process_record] names the
    record's client, carries no [since], and has a rationale backed by what
    the watchdog saw: a direct accident event of the record itself; or,
    with no such event and a window of at least three records, an obstacle
    record of the window seen with confidence at least [ACCIDENT_CONF] at
    depth at most [ACCIDENT_DEPTH_M] followed by 30 to 35 seconds without
    moving; or at least three veers, a stop in the record and 120 seconds
    since the last move. *)
Theorem X19_accident_alert_rationale_is_backed :
  forall (get_emergency_contacts : string -> list string)
         (w : Watchdog.Agent) (record : LogRecord) (clock : Watchdog.Clock)
         (alert : Watchdog.Alert) (now : Z) (contacts : list string),
    let run := Watchdog.process_record get_emergency_contacts w record clock in
    let window := Watchdog.window_of (fst run) (client_id record) in
    In (Watchdog.Emitted alert now contacts) (snd run) ->
    Watchdog.alert_type alert = Watchdog.accident_alert ->
    Watchdog.a_client_id alert = client_id record /\
    now = Watchdog.now_accident clock /\
    Watchdog.since alert = None /\
    exists why,
      Watchdog.rationale alert = Some why /\
      accident_pattern window record (Watchdog.a_t alert) why.
Proof.
  intros gec w record clock alert now contacts run window Hin Hkind.
  destruct (process_record_spec gec w record clock) as (Hwin & _ & _ & Hout).
  unfold window, run. rewrite Hwin, String.eqb_refl.
  destruct (Hout _ Hin)
    as [(since_t & _ & _ & _ & [= -> _ _])
       |(tm & why & Hwhy & [= -> -> _])]; [discriminate|].
  cbn [Watchdog.a_client_id Watchdog.a_t Watchdog.since Watchdog.rationale].
  split; [reflexivity|]. split; [reflexivity|]. split; [reflexivity|].
  exists why. split; [reflexivity|exact Hwhy].
Qed.

Lemma X19_witness :
  let fallen := mkLog "alice" "s1" 7 ["fall"%string] None None (9 # 10) None in
  exists why,
    Some (DirectAccident ["fall"%string]) = Some why /\
    accident_pattern [fallen] fallen 7 why.
Proof.
  pose proof (X19_accident_alert_rationale_is_backed no_db_contacts
                Watchdog.init
                (mkLog "alice" "s1" 7 ["fall"%string] None None (9 # 10) None)
                (at_clock 10000)
                (Watchdog.mkAlert Watchdog.accident_alert "alice" 7
                   (Some (DirectAccident ["fall"%string])) None)
                10000 [] (or_introl eq_refl) eq_refl) as H.
  destruct H as (_ & _ & _ & H). exact H.
Defined.

(** X20.  [process_record] only touches the state of the record's client:
    the window and the two alert times of every other client, and the
    contact table, are what they were, and every event it emits is an alert
    for the record's client handed to that client's contacts. *)
Theorem X20_process_record_leaves_other_clients_alone :
  forall (get_emergency_contacts : string -> list string)
         (w : Watchdog.Agent) (record : LogRecord) (clock : Watchdog.Clock)
         (other : string),
    let run := Watchdog.process_record get_emergency_contacts w record clock in
    other <> client_id record ->
    Watchdog.window_of (fst run) other = Watchdog.window_of w other /\
    PyDict.get String.eqb (Watchdog.stuck_alerts (fst run)) other
    = PyDict.get String.eqb (Watchdog.stuck_alerts w) other /\
    PyDict.get String.eqb (Watchdog.accident_alerts (fst run)) other
    = PyDict.get String.eqb (Watchdog.accident_alerts w) other /\
    Watchdog.emergency_contacts (fst run) = Watchdog.emergency_contacts w /\
    forall e, In e (snd run) ->
      exists alert now,
        e = Watchdog.Emitted alert now
              (Watchdog.contacts_for get_emergency_contacts w
                                     (client_id record)) /\
        Watchdog.a_client_id alert = client_id record.
Proof.
  intros gec w record clock other run Hother.
  destruct (process_record_spec gec w record clock)
    as (Hwin & Hcontacts & Hstamps & Hout).
  fold run in Hwin, Hcontacts, Hstamps, Hout.
  split.
  { rewrite Hwin. apply String.eqb_neq in Hother. now rewrite Hother. }
  destruct (Hstamps other Hother) as [Hs Ha].
  split; [exact Hs|]. split; [exact Ha|]. split; [exact Hcontacts|].
  intros e He.
  destruct (Hout e He) as [(since_t & _ & _ & _ & ->)|(tm & why & _ & ->)].
  - eexists _, _. split; reflexivity.
  - eexists _, _. split; reflexivity.
Qed.

Lemma X20_witness :
  let run := Watchdog.process_record no_db_contacts Watchdog.init (stop_at 0)
               (at_clock 10000) in
  Watchdog.window_of (fst run) "demo_user" = [] /\
  Watchdog.emergency_contacts (fst run)
  = Watchdog.emergency_contacts Watchdog.init.
Proof.
  pose proof (X20_process_record_leaves_other_clients_alone no_db_contacts
                Watchdog.init (stop_at 0) (at_clock 10000) "demo_user") as H.
  cbn zeta in H.
  assert (Hne : "demo_user"%string <> client_id (stop_at 0))
    by discriminate.
  destruct (H Hne) as (Hwin & _ & _ & Hcontacts & _).
  split; [exact Hwin|exact Hcontacts].
Defined.

(** ** Authorizing a contact *)

Lemma reauthorize_again (client contact : string) (rows : list ContactRow) :
  match Registry.reauthorize client contact rows with
  | Some rows' => Registry.reauthorize client contact rows' = Some rows'
  | None =>
      Registry.reauthorize client contact
        (rows ++ [mkContact client contact 1])
      = Some (rows ++ [mkContact client contact 1])
  end.
Proof.
  induction rows as [|row rows IH]; cbn [Registry.reauthorize List.app].
  - unfold Registry.contact_matches. cbn. now rewrite !String.eqb_refl.
  - destruct (Registry.contact_matches client contact row) eqn:E.
    + cbn [Registry.reauthorize].
      unfold Registry.contact_matches in *. cbn. now rewrite E.
    + destruct (Registry.reauthorize client contact rows) as [rows'|];
        cbn [Registry.reauthorize List.app]; rewrite ?E, IH; reflexivity.
Qed.

Lemma add_emergency_contact_again (client contact : string) (db : Db) :
  Registry.add_emergency_contact client contact
    (Registry.add_emergency_contact client contact db)
  = Registry.add_emergency_contact client contact db.
Proof.
  unfold Registry.add_emergency_contact. cbn.
  pose proof (reauthorize_again client contact (emergency_contacts db)) as H.
  destruct (Registry.reauthorize client contact (emergency_contacts db));
    now rewrite H.
Qed.

Lemma mem_str_snoc (x : string) (l : list string) :
  mem_str x (l ++ [x]) = true.
Proof.
  unfold mem_str. rewrite existsb_app. cbn. rewrite String.eqb_refl.
  now rewrite orb_true_r.
Qed.

Lemma cache_contact_spec (w : Watchdog.Agent) (client contact : string) :
  let w' := Registry.cache_contact w client contact in
  (exists known,
      PyDict.get String.eqb (Watchdog.emergency_contacts w') client
      = Some known /\ mem_str contact known = true) /\
  Registry.cache_contact w' client contact = w'.
Proof.
  assert (Hsame : forall wx known,
             PyDict.get String.eqb (Watchdog.emergency_contacts wx) client
             = Some known ->
             mem_str contact known = true ->
             Registry.cache_contact wx client contact = wx).
  { intros [windows stuck accident cache] known Hget Hmem.
    unfold Registry.cache_contact.
    cbn [Watchdog.emergency_contacts Watchdog.client_windows
         Watchdog.stuck_alerts Watchdog.accident_alerts] in *.
    now rewrite Hget, Hget, Hmem. }
  assert (Hboth : forall wx,
             (exists known,
                 PyDict.get String.eqb (Watchdog.emergency_contacts wx) client
                 = Some known /\ mem_str contact known = true) ->
             (exists known,
                 PyDict.get String.eqb (Watchdog.emergency_contacts wx) client
                 = Some known /\ mem_str contact known = true) /\
             Registry.cache_contact wx client contact = wx).
  { intros wx (known & Hget & Hmem). split; [now exists known|].
    exact (Hsame wx known Hget Hmem). }
  cbn zeta. apply Hboth. unfold Registry.cache_contact.
  destruct (PyDict.get String.eqb (Watchdog.emergency_contacts w) client)
    as [known|] eqn:Eget.
  - rewrite Eget. destruct (mem_str contact known) eqn:Emem; cbn.
    + now exists known.
    + exists (known ++ [contact]).
      rewrite (get_setitem _ _ String.eqb String.eqb_eq), String.eqb_refl.
      split; [reflexivity|apply mem_str_snoc].
  - rewrite (get_setitem _ _ String.eqb String.eqb_eq), String.eqb_refl.
    cbn. exists [contact].
    rewrite (get_setitem _ _ String.eqb String.eqb_eq), String.eqb_refl.
    split; [reflexivity|]. cbn. now rewrite String.eqb_refl.
Qed.

(** X21.  [authorize_contact] answers 400 and changes nothing when a field
    is absent or empty.  Otherwise it answers 200; the contact is then
    authorized in the database, is among the contacts the watchdog alerts
    for the client and is listed in the watchdog's own table; the
    watchdog's windows and alert times are untouched; and authorizing the
    same contact again changes nothing more. *)
Theorem X21_authorize_contact_is_effective_and_idempotent :
  forall (client_id contact_id : option string) (db : Db)
         (w : Watchdog.Agent),
    let out := Registry.authorize_contact client_id contact_id (db, w) in
    let db' := fst (fst out) in
    let w' := snd (fst out) in
    if truthy client_id && truthy contact_id then
      snd out = 200 /\
      Registry.authorize_contact client_id contact_id (fst out) = out /\
      Watchdog.client_windows w' = Watchdog.client_windows w /\
      Watchdog.stuck_alerts w' = Watchdog.stuck_alerts w /\
      Watchdog.accident_alerts w' = Watchdog.accident_alerts w /\
      exists client contact known,
        client_id = Some client /\ contact_id = Some contact /\
        result_of (is_authorized contact client) db' = Return true /\
        In contact
           (Watchdog.contacts_for (Registry.get_emergency_contacts db') w'
                                  client) /\
        PyDict.get String.eqb (Watchdog.emergency_contacts w') client
        = Some known /\
        In contact known
    else out = ((db, w), 400).
Proof.
  intros [client|] [contact|] db w; cbn zeta;
    try (cbn; rewrite ?andb_false_r; reflexivity).
  unfold Registry.authorize_contact.
  destruct (truthy (Some client) && truthy (Some contact)) eqn:Eok;
    cbn [negb]; [|reflexivity].
  cbn [negb fst snd].
  unfold Registry.add_authorized_contact. cbn [fst].
  destruct (cache_contact_spec w client contact)
    as ((known & Hget & Hmem) & Hagain).
  split; [reflexivity|]. split.
  { now rewrite add_emergency_contact_again, Hagain. }
  split; [reflexivity|]. split; [reflexivity|]. split; [reflexivity|].
  exists client, contact, known.
  split; [reflexivity|]. split; [reflexivity|]. split.
  { rewrite is_authorized_after_add. now rewrite !String.eqb_refl. }
  split.
  { pose proof (contacts_after_add client contact db) as Hin.
    unfold Watchdog.contacts_for.
    destruct (Registry.get_emergency_contacts _ client); [destruct Hin|].
    exact Hin. }
  split; [exact Hget|].
  unfold mem_str in Hmem. apply existsb_exists in Hmem.
  destruct Hmem as (x & Hx & E). apply String.eqb_eq in E. now subst x.
Qed.

(** ** Ingestion and the cache *)

Lemma stored_row_again (data : LogRecord) :
  Registry.stored_row (Registry.stored_row data) = Registry.stored_row data.
Proof. unfold Registry.stored_row. cbn. now destruct (app data). Qed.

Lemma read_index_tables (key : string) (db1 db2 : Db) :
  user_indices db1 = user_indices db2 ->
  result_of (read_index key) db1 = result_of (read_index key) db2.
Proof.
  intros H. unfold result_of, read_index.
  destruct (split key) as [|p0 [|client rest]]; [reflexivity..|].
  unfold get_index, bind, call, read, ret. cbn. now rewrite H.
Qed.

Lemma handle_query_cached_outcome
      (parse_iso : string -> option Z) (isoformat : Z -> string)
      (round1 : Q -> Q) (requester client question : string)
      (session time_start time_end : option string) (tz : string)
      (params : option QueryParams) (now : Z) (db : Db) (log : list DbCall)
      (cached : JsonIndex) :
  result_of (read_index (index_key client session)) db
  = Return (Some cached) ->
  fst (fst (QueryAgent.handle_query parse_iso isoformat round1 requester
              client question session time_start time_end tz params now
              db log))
  = match result_of (is_authorized requester client) db with
    | Return true =>
        match QueryAgent._parse_time_window parse_iso now time_start
                                            time_end tz with
        | Return tw =>
            let mt := QueryAgent._classify_intent question in
            let p := match params with
                     | Some p => p
                     | None => default_params
                     end in
            match QueryAgent._compute_metric isoformat round1 mt
                    (QueryAgent.Cached cached) p with
            | Return out =>
                Return (QueryAgent._format_answer isoformat mt (fst out),
                        QueryAgent.mkResponse client tw mt p (fst out)
                                              (firstn 3 (snd out)))
            | Raise e => Raise e
            end
        | Raise e => Raise e
        end
    | Return false => Raise (PermissionError requester)
    | Raise e => Raise e
    end.
Proof.
  intros Hhit.
  assert (Hauth : fst (fst (is_authorized requester client db log))
                  = result_of (is_authorized requester client) db)
    by reflexivity.
  destruct (result_of (is_authorized requester client) db)
    as [[|]|e] eqn:Eauth.
  - destruct (QueryAgent._parse_time_window parse_iso now time_start
                                              time_end tz) as [tw|e] eqn:Etw.
    + rewrite (handle_query_run parse_iso isoformat round1 requester
                 client question session time_start time_end tz params
                 now db log tw Hauth Etw).
      now rewrite Hhit.
    + unfold QueryAgent.handle_query.
      unfold bind at 1. rewrite is_authorized_run, Hauth. cbn [negb].
      unfold bind at 1. unfold lift at 1. now rewrite Etw.
  - unfold QueryAgent.handle_query.
    unfold bind at 1. now rewrite is_authorized_run, Hauth.
  - unfold QueryAgent.handle_query.
    unfold bind at 1. now rewrite is_authorized_run, Hauth.
Qed.

(** X22.  An ingested record, with [app] defaulted, is appended to the
    stored records and becomes the newest record of its client's watchdog
    window; but ingestion never touches a persisted index, so a query whose
    index is cached is answered exactly as before the record came in. *)
Theorem X22_ingest_does_not_refresh_cached_answers :
  forall (parse_iso : string -> option Z) (isoformat : Z -> string)
         (round1 : Q -> Q) (data : LogRecord) (clock : Watchdog.Clock)
         (db : Db) (w : Watchdog.Agent)
         (requester client question : string)
         (session time_start time_end : option string) (tz : string)
         (params : option QueryParams) (now : Z) (log : list DbCall)
         (cached : JsonIndex),
    result_of (read_index (index_key client session)) db
    = Return (Some cached) ->
    let out := Registry.ingest_log data clock (db, w) in
    let db' := fst (fst (fst out)) in
    let w' := snd (fst (fst out)) in
    log_records db' = log_records db ++ [Registry.stored_row data] /\
    (exists older,
        Watchdog.window_of w' (client_id data)
        = older ++ [Registry.stored_row data]) /\
    fst (fst (QueryAgent.handle_query parse_iso isoformat round1 requester
                client question session time_start time_end tz params now
                db' log))
    = fst (fst (QueryAgent.handle_query parse_iso isoformat round1 requester
                  client question session time_start time_end tz params now
                  db log)).
Proof.
  intros parse_iso isoformat round1 data clock db w requester client question
         session time_start time_end tz params now log cached Hhit.
  cbn zeta. unfold Registry.ingest_log, Registry.save_log_to_db,
    Registry.insert_log. cbn [fst snd].
  rewrite stored_row_again.
  set (db' := mkDb _ _ _).
  pose proof (process_record_spec (Registry.get_emergency_contacts db') w
                (Registry.stored_row data) clock) as (Hwin & _).
  destruct (Watchdog.process_record _ w (Registry.stored_row data) clock)
    as [w' emitted].
  cbn [fst snd] in *.
  split; [reflexivity|]. split.
  - change (client_id data) with (client_id (Registry.stored_row data)).
    rewrite Hwin, String.eqb_refl. apply deque_append_snoc.
  - assert (Hhit' : result_of (read_index (index_key client session)) db'
                    = Return (Some cached)).
    { rewrite <- Hhit. now apply read_index_tables. }
    rewrite (handle_query_cached_outcome parse_iso isoformat round1 requester
               client question session time_start time_end tz params now
               db' log cached Hhit').
    rewrite (handle_query_cached_outcome parse_iso isoformat round1 requester
               client question session time_start time_end tz params now
               db log cached Hhit).
    reflexivity.
Qed.

Lemma X22_witness :
  let out := Registry.ingest_log (stop_at 40) (at_clock 10000)
               (cached_db, Watchdog.init) in
  log_records (fst (fst (fst out)))
  = log_records cached_db ++ [Registry.stored_row (stop_at 40)].
Proof.
  exact (proj1 (X22_ingest_does_not_refresh_cached_answers
                  (fun _ => None) (fun _ => EmptyString) (fun q => q)
                  (stop_at 40) (at_clock 10000) cached_db Watchdog.init
                  "carol" "alice" "did he fall today?" None None None "UTC"
                  None 100000 [] (to_json sample_index) eq_refl)).
Defined.

(** ** Class counts and the event total *)

Lemma build_loop_by_class (c : string) (rows : list LogRecord) :
  forall index,
    lookup_count (by_class (fold_left Indexer.build_step rows index)) c
    = lookup_count (by_class index) c
      + len (filter (String.eqb c) (class_tags rows)).
Proof.
  unfold class_tags.
  induction rows as [|r rows IH]; intros index; cbn [fold_left flat_map].
  - unfold len. cbn. lia.
  - rewrite IH. unfold Indexer.build_step. rewrite validate_in_range_bool.
    rewrite filter_app. unfold len. rewrite length_app.
    destruct (in_range r); cbn [negb].
    + unfold Indexer._add_to_index.
      cbn [by_class classes Indexer.record_of_log_dict].
      destruct (classes r) as [[|c0 cs]|].
      * cbn. lia.
      * rewrite event_loop_counters. unfold len. lia.
      * cbn. lia.
    + cbn [by_class Indexer.set_dropped filter List.length]. lia.
Qed.

(** X23.  In a built index, [by_class[c]] is the number of times the class
    tag [c] occurs in the [classes] of the rows in range; a row without
    classes, or with an empty list, adds nothing, and a class no row
    carries reads as 0. *)
Theorem X23_by_class_counts_class_tags :
  forall (client : string) (rows : list LogRecord) (c : string),
    lookup_count (by_class (Indexer.build_index client rows)) c
    = len (filter (String.eqb c) (class_tags rows)).
Proof.
  intros client rows c. unfold Indexer.build_index.
  cbn [by_class Indexer.set_hazards].
  now rewrite build_loop_by_class.
Qed.

Lemma total_cons (x : Z) (l : list Z) : total (x :: l) = x + total l.
Proof.
  unfold total. cbn [fold_left].
  assert (H : forall l a, fold_left Z.add l a = a + fold_left Z.add l 0).
  { clear. induction l as [|y l IH]; intros a; cbn [fold_left]; [lia|].
    rewrite (IH (a + y)), (IH (0 + y)). lia. }
  rewrite (H l (0 + x)). lia.
Qed.

Lemma total_incr (d : str_dict Z) (k : string) :
  total (map snd (Indexer.dd_incr d k)) = total (map snd d) + 1.
Proof.
  unfold Indexer.dd_incr.
  induction d as [|[k' v'] d IH]; cbn [PyDict.setitem PyDict.get map snd].
  - reflexivity.
  - destruct (String.eqb k k'); cbn [map snd]; rewrite !total_cons.
    + lia.
    + rewrite IH. lia.
Qed.

Lemma total_incr_loop (evs : list string) :
  forall d, total (map snd (fold_left Indexer.dd_incr evs d))
            = total (map snd d) + len evs.
Proof.
  induction evs as [|ev evs IH]; intros d; cbn [fold_left].
  - unfold len. cbn. lia.
  - rewrite IH, total_incr. unfold len. cbn [List.length]. lia.
Qed.

Lemma build_loop_total (rows : list LogRecord) :
  forall index,
    total (map snd (counters (fold_left Indexer.build_step rows index)))
    = total (map snd (counters index)) + len (event_tags rows).
Proof.
  unfold event_tags.
  induction rows as [|r rows IH]; intros index; cbn [fold_left flat_map].
  - unfold len. cbn. lia.
  - rewrite IH. unfold Indexer.build_step. rewrite validate_in_range_bool.
    unfold len. rewrite length_app.
    destruct (in_range r); cbn [negb].
    + unfold Indexer._add_to_index.
      cbn [counters events Indexer.record_of_log_dict].
      rewrite total_incr_loop. unfold len. lia.
    + cbn [counters Indexer.set_dropped List.length]. lia.
Qed.

(** X24.  The total the event-count answer gives for a built index is the
    number of event tags the rows in range carry, repeated tags and rows
    sharing a timestamp included. *)
Theorem X24_event_total_counts_every_tag :
  forall (isoformat : Z -> string) (client : string)
         (rows : list LogRecord) (params : QueryParams),
    let index := Indexer.build_index client rows in
    QueryAgent._format_answer isoformat event_counts
      (fst (QueryAgent._compute_event_counts index params))
    = QueryAgent.TotalEventsAnswer (len (event_tags rows)).
Proof.
  intros isoformat client rows params index.
  unfold QueryAgent._compute_event_counts, QueryAgent._format_answer.
  cbn [fst]. f_equal. fold (total (map snd (counters index))).
  unfold index, Indexer.build_index. cbn [counters Indexer.set_hazards].
  now rewrite build_loop_total.
Qed.

(** ** The metrics on a cached index *)




